(** * Bloodwork screening route: extraction, classification, summary

    A shallow embedding of [src/app/api/bloodwork-screening/route.ts]:
    the reference catalog [NORMAL_RANGES], the line scanner
    [parseBloodworkText] with its regular expressions, the classifier
    [analyzeValue] and the narrative builder [generateSummary]; then the
    error and validation helpers with the rate limiter, the listing handler
    [GET] with the database client and the two mail functions of
    [src/lib/email.ts]; and last the upload handler [POST] with its staged
    temporary file.

    JavaScript strings are sequences of UTF-16 code units, numbers are
    IEEE-754 binary64 values; both are modelled as such. *)

From Stdlib Require Import ZArith NArith PArith List Bool Lia String Ascii.
From Stdlib Require Import Floats.SpecFloat.
From stdpp Require gmap.
Import ListNotations.

Set Implicit Arguments.

(** ** JavaScript strings *)

Module JsString.

(** A string value: the list of its UTF-16 code units. *)
Definition jsstring := list N.

Open Scope N_scope.

(** The source file is UTF-8; [lit] reads a literal of the source as the
    runtime sees it, decoding UTF-8 into UTF-16 code units. *)
Definition cont_bits (a : ascii) : N := N.land (N_of_ascii a) 63.

Fixpoint lit (s : string) : jsstring :=
  match s with
  | EmptyString => []
  | String a rest =>
      let b0 := N_of_ascii a in
      if b0 <? 128 then b0 :: lit rest
      else if b0 <? 224 then
        match rest with
        | String b r1 =>
            N.lor (N.shiftl (N.land b0 31) 6) (cont_bits b) :: lit r1
        | _ => []
        end
      else if b0 <? 240 then
        match rest with
        | String b (String c r2) =>
            N.lor (N.shiftl (N.land b0 15) 12)
              (N.lor (N.shiftl (cont_bits b) 6) (cont_bits c)) :: lit r2
        | _ => []
        end
      else
        match rest with
        | String b (String c (String d r3)) =>
            let cp := N.lor (N.shiftl (N.land b0 7) 18)
                        (N.lor (N.shiftl (cont_bits b) 12)
                           (N.lor (N.shiftl (cont_bits c) 6) (cont_bits d))) in
            let v := cp - 65536 in
            (55296 + N.shiftr v 10) :: (56320 + N.land v 1023) :: lit r3
        | _ => []
        end
  end.

Definition eqb (a b : jsstring) : bool :=
  if list_eq_dec N.eq_dec a b then true else false.

(** *** Character classes of the regular expressions *)

Definition isDigit (c : N) : bool := (48 <=? c) && (c <=? 57).
Definition isUpper (c : N) : bool := (65 <=? c) && (c <=? 90).
Definition isLower (c : N) : bool := (97 <=? c) && (c <=? 122).
Definition isLetter (c : N) : bool := isUpper c || isLower c.

(** [\s], and the characters [trim] strips: WhiteSpace and LineTerminator
    of ECMA-262 (TAB, LF, VT, FF, CR, SP, NBSP, U+1680, U+2000..U+200A,
    LS, PS, U+202F, U+205F, U+3000, BOM). *)
Definition isSpace (c : N) : bool :=
  ((9 <=? c) && (c <=? 13)) || (c =? 32) || (c =? 160) || (c =? 5760)
  || ((8192 <=? c) && (c <=? 8202)) || (c =? 8232) || (c =? 8233)
  || (c =? 8239) || (c =? 8287) || (c =? 12288) || (c =? 65279).

(** *** String methods *)

Fixpoint dropWhile (p : N -> bool) (s : jsstring) : jsstring :=
  match s with
  | c :: s' => if p c then dropWhile p s' else s
  | [] => []
  end.

Fixpoint span (p : N -> bool) (s : jsstring) : jsstring * jsstring :=
  match s with
  | c :: s' => if p c then let (a, b) := span p s' in (c :: a, b) else ([], s)
  | [] => ([], [])
  end.

Definition trimStart (s : jsstring) : jsstring := dropWhile isSpace s.
Definition trim (s : jsstring) : jsstring :=
  rev (dropWhile isSpace (rev (dropWhile isSpace s))).

Fixpoint startsWith (p s : jsstring) : bool :=
  match p, s with
  | [], _ => true
  | a :: p', b :: s' => (a =? b) && startsWith p' s'
  | _ :: _, [] => false
  end.

(** [String.prototype.includes] *)
Fixpoint includes (s needle : jsstring) : bool :=
  startsWith needle s ||
  match s with
  | [] => false
  | _ :: s' => includes s' needle
  end.

(** [String.prototype.toLowerCase].  Exact on ASCII.  Outside ASCII only
    two code units have a lower-case form that contains an ASCII letter:
    U+212A (Kelvin sign, to k) and U+0130 (to i followed by U+0307); every
    other non-ASCII code unit lower-cases to non-ASCII code units, for which
    the code unit itself stands here.  The program only ever asks whether a
    lower-cased string contains, or is contained in, an ASCII string. *)
Definition lower1 (c : N) : list N :=
  if isUpper c then [c + 32]
  else if c =? 8490 then [107]
  else if c =? 304 then [105; 775]
  else [c].

Definition toLowerCase (s : jsstring) : jsstring := flat_map lower1 s.

(** [s.split(sep)] for a one-code-unit separator: always at least one piece. *)
Fixpoint split_aux (sep : N) (cur : jsstring) (s : jsstring) : list jsstring :=
  match s with
  | [] => [rev cur]
  | c :: s' => if c =? sep then rev cur :: split_aux sep [] s'
               else split_aux sep (c :: cur) s'
  end.

Definition split (sep : N) (s : jsstring) : list jsstring := split_aux sep [] s.

(** [s.split(sep)[0]] *)
Definition firstPiece (sep : N) (s : jsstring) : jsstring :=
  hd [] (split sep s).

(** Decimal rendering of an array length (template literal [${xs.length}]). *)
Fixpoint digits_of_pos_fuel (fuel : nat) (n : N) (acc : jsstring) : jsstring :=
  match fuel with
  | O => acc
  | S f => if n <? 10 then (48 + n) :: acc
           else digits_of_pos_fuel f (n / 10) ((48 + n mod 10) :: acc)
  end.

Definition ofN (n : N) : jsstring :=
  digits_of_pos_fuel (S (N.to_nat (N.log2 n))) n [].

Definition ofNat (n : nat) : jsstring := ofN (N.of_nat n).

Close Scope N_scope.

End JsString.

Import JsString.

(** ** JavaScript numbers *)

Module Number.

(** A Number is an IEEE-754 binary64 value. *)
Definition number := spec_float.

Definition prec : Z := 53.
Definition emax : Z := 1024.

Definition NaN : number := S754_nan.

(** [x * y], [x < y], [x > y] and [isNaN(x)] *)
Definition mul (x y : number) : number := SFmul prec emax x y.
Definition ltb (x y : number) : bool := SFltb x y.
Definition gtb (x y : number) : bool := ltb y x.
Definition leb (x y : number) : bool := SFleb x y.
Definition isNaN (x : number) : bool :=
  match x with S754_nan => true | _ => false end.

Definition same (x y : number) : bool :=
  match x, y with
  | S754_zero a, S754_zero b => Bool.eqb a b
  | S754_infinity a, S754_infinity b => Bool.eqb a b
  | S754_nan, S754_nan => true
  | S754_finite a m e, S754_finite b m' e' =>
      Bool.eqb a b && Pos.eqb m m' && Z.eqb e e'
  | _, _ => false
  end.

(** The Number value for [m * 10^e] (sign [neg]): the nearest binary64
    value, ties to even, as the runtime reads a decimal numeral. *)
Definition of_decimal (neg : bool) (m : N) (e : Z) : number :=
  match m with
  | N0 => S754_zero neg
  | Npos p =>
      match e with
      | Zneg k =>
          SFdiv prec emax (S754_finite neg p 0)
                (S754_finite false (Pos.pow 10 k) 0)
      | Z0 => binary_round prec emax neg p 0
      | Zpos k => binary_round prec emax neg (p * Pos.pow 10 k) 0
      end
  end.

(** A numeric literal of the source, [m] with [frac] digits after the point. *)
Definition dec (m : N) (frac : nat) : number :=
  of_decimal false m (- Z.of_nat frac).

Definition digit_val (c : N) : N := (c - 48)%N.

Definition digits_val (ds : jsstring) : N :=
  fold_left (fun acc c => (acc * 10 + digit_val c)%N) ds 0%N.

(** [parseFloat(s)]: skip leading white space, read the longest prefix that
    is a StrDecimalLiteral (sign, [Infinity], digits, fraction, exponent),
    NaN when there is none. *)
Definition parse_exponent (s : jsstring) : Z :=
  match s with
  | c :: r =>
      if (c =? 101)%N || (c =? 69)%N then
        let '(neg, r') :=
          match r with
          | 43%N :: t => (false, t)
          | 45%N :: t => (true, t)
          | _ => (false, r)
          end in
        let (ed, _) := span isDigit r' in
        match ed with
        | [] => 0%Z
        | _ => let v := Z.of_N (digits_val ed) in if neg then (- v)%Z else v
        end
      else 0%Z
  | [] => 0%Z
  end.

Definition parseFloat (str : jsstring) : number :=
  let s := trimStart str in
  let '(neg, s) :=
    match s with
    | 43%N :: t => (false, t)
    | 45%N :: t => (true, t)
    | _ => (false, s)
    end in
  if startsWith (lit "Infinity") s then S754_infinity neg
  else
    let (ip, s1) := span isDigit s in
    let '(fp, s2) :=
      match s1 with
      | 46%N :: t =>
          let (f, u) := span isDigit t in
          match ip, f with
          | [], [] => ([], s1)
          | _, _ => (f, u)
          end
      | _ => ([], s1)
      end in
    match ip ++ fp with
    | [] => NaN
    | ds => of_decimal neg (digits_val ds)
              (parse_exponent s2 - Z.of_nat (List.length fp))
    end.

(** [Number::toString(x)] in radix 10: the shortest digit string [s] of
    [k] digits and the exponent [n] with [s * 10^(n-k)] reading back as [x],
    the closest to [x] among those, laid out as ECMA-262 prescribes. *)
Fixpoint count_digits (fuel : nat) (q : Z) : Z :=
  match fuel with
  | O => 0
  | S f => if (q <? 10)%Z then 1 else (1 + count_digits f (q / 10))%Z
  end.

Fixpoint leading_shift (fuel : nat) (a b : Z) : Z :=
  match fuel with
  | O => 0
  | S f => if (b <=? a)%Z then 0 else (1 + leading_shift f (a * 10) b)%Z
  end.

(** [n] with [10^(n-1) <= a/b < 10^n] *)
Definition decimal_exponent (a b : Z) : Z :=
  if (b <=? a)%Z then count_digits (S (Z.to_nat (Z.log2 a))) (a / b)
  else (1 - leading_shift 400 a b)%Z.

Definition shortest_at (x : number) (a b n0 : Z) (k : Z) : option (Z * Z) :=
  let p := (n0 - k)%Z in
  let '(num, den) :=
    if (p <? 0)%Z then ((a * 10 ^ (- p))%Z, b) else (a, (b * 10 ^ p)%Z) in
  let lo := (num / den)%Z in
  let hi := (lo + 1)%Z in
  let ok s := same (of_decimal false (Z.to_N s) p) x in
  let pick s := if (s =? 10 ^ k)%Z then Some (1%Z, (n0 + 1)%Z) else Some (s, n0) in
  match ok lo, ok hi with
  | true, false => pick lo
  | false, true => pick hi
  | false, false => None
  | true, true =>
      match (2 * num ?= (2 * lo + 1) * den)%Z with
      | Lt => pick lo
      | Gt => pick hi
      | Eq => if Z.even lo then pick lo else pick hi
      end
  end.

Fixpoint shortest (fuel : nat) (x : number) (a b n0 : Z) (k : Z) : Z * Z :=
  match fuel with
  | O => (0%Z, 0%Z)
  | S f =>
      match shortest_at x a b n0 k with
      | Some r => r
      | None => shortest f x a b n0 (k + 1)
      end
  end.

Definition zeros (n : Z) : jsstring := repeat 48%N (Z.to_nat n).

Definition layout (ds : jsstring) (n : Z) : jsstring :=
  let k := Z.of_nat (List.length ds) in
  if ((k <=? n) && (n <=? 21))%Z then ds ++ zeros (n - k)
  else if ((0 <? n) && (n <=? 21))%Z then
    firstn (Z.to_nat n) ds ++ lit "." ++ skipn (Z.to_nat n) ds
  else if ((-6 <? n) && (n <=? 0))%Z then lit "0." ++ zeros (- n) ++ ds
  else
    let e := (n - 1)%Z in
    let tail := (if (e <? 0)%Z then lit "e-" else lit "e+") ++ ofN (Z.to_N (Z.abs e)) in
    match ds with
    | [d] => [d] ++ tail
    | d :: rest => [d] ++ lit "." ++ rest ++ tail
    | [] => tail
    end.

Definition toString (x : number) : jsstring :=
  match x with
  | S754_nan => lit "NaN"
  | S754_zero _ => lit "0"
  | S754_infinity s => if s then lit "-Infinity" else lit "Infinity"
  | S754_finite s m e =>
      let a := if (0 <=? e)%Z then (Zpos m * 2 ^ e)%Z else Zpos m in
      let b := if (0 <=? e)%Z then 1%Z else (2 ^ (- e))%Z in
      let n0 := decimal_exponent a b in
      let '(sd, n) := shortest 18 (S754_finite false m e) a b n0 1 in
      (if s then lit "-" else []) ++ layout (ofN (Z.to_N sd)) n
  end.

End Number.

Import Number.

(** ** Regular expressions

    The backtracking matcher of ECMA-262 for the constructs the route's
    patterns use: one-code-unit classes, [^], sequence, alternation, greedy
    repetition and capture groups.  None of the patterns carries the [u] or
    [m] flag; under the [i] flag the classes used here match the same code
    units as without it (no non-ASCII code unit canonicalizes to an ASCII
    one), only literal letters compare modulo ASCII case. *)

Module Regex.

Inductive regex : Type :=
| Eps : regex
| Bol : regex
| Chr : (N -> bool) -> regex
| Seq : regex -> regex -> regex
| Alt : regex -> regex -> regex
| Star : regex -> regex
| Group : nat -> regex -> regex.

Definition Plus (r : regex) : regex := Seq r (Star r).
Definition Opt (r : regex) : regex := Alt r Eps.

(** Captures: group number to matched text; an absent group is [undefined]. *)
Definition captures := list (nat * jsstring).

Fixpoint capture (i : nat) (c : captures) : option jsstring :=
  match c with
  | [] => None
  | (j, s) :: c' => if Nat.eqb i j then Some s else capture i c'
  end.

Definition state := (nat * captures)%type.
Definition kont := nat -> jsstring -> captures -> option state.

(** Greedy repetition of [body]: try one more iteration that consumes
    something, then the rest of the pattern [k]; failing that, [k] here.
    [fuel] bounds the iterations by the length of the remaining input. *)
Fixpoint star_loop (body : nat -> jsstring -> captures -> kont -> option state)
  (k : kont) (fuel : nat) (pos : nat) (s : jsstring) (c : captures)
  : option state :=
  match fuel with
  | O => k pos s c
  | S fuel' =>
      match body pos s c
              (fun pos' s' c' =>
                 if Nat.ltb pos pos' then star_loop body k fuel' pos' s' c'
                 else None)
      with
      | Some st => Some st
      | None => k pos s c
      end
  end.

(** [run r pos s c k]: match [r] at index [pos], where [s] is the input from
    [pos] on, then continue with [k]; the first success in priority order. *)
Fixpoint run (r : regex) (pos : nat) (s : jsstring) (c : captures) (k : kont)
  {struct r} : option state :=
  match r with
  | Eps => k pos s c
  | Bol => if Nat.eqb pos 0 then k pos s c else None
  | Chr p =>
      match s with
      | x :: s' => if p x then k (S pos) s' c else None
      | [] => None
      end
  | Seq r1 r2 => run r1 pos s c (fun pos' s' c' => run r2 pos' s' c' k)
  | Alt r1 r2 =>
      match run r1 pos s c k with
      | Some st => Some st
      | None => run r2 pos s c k
      end
  | Star r1 => star_loop (run r1) k (List.length s) pos s c
  | Group i r1 =>
      run r1 pos s c
        (fun pos' s' c' => k pos' s' ((i, firstn (pos' - pos) s) :: c'))
  end.

(** One match: where it starts and ends, and its groups. *)
Record rmatch := { m_index : nat; m_end : nat; m_groups : captures }.

Definition match_at (r : regex) (input : jsstring) (i : nat) : option rmatch :=
  match run r i (skipn i input) [] (fun pos' _ c' => Some (pos', c')) with
  | Some (e, c) => Some {| m_index := i; m_end := e; m_groups := c |}
  | None => None
  end.

(** [RegExpBuiltinExec] from [lastIndex = i]: the leftmost start that matches. *)
Fixpoint exec_from (r : regex) (input : jsstring) (i : nat) (steps : nat)
  : option rmatch :=
  match match_at r input i with
  | Some m => Some m
  | None =>
      match steps with
      | O => None
      | S steps' => exec_from r input (S i) steps'
      end
  end.

Definition exec (r : regex) (input : jsstring) (i : nat) : option rmatch :=
  exec_from r input i (List.length input - i).

(** [regex.test(s)] and [s.match(regex)] for a pattern without the [g] flag. *)
Definition test (r : regex) (input : jsstring) : bool :=
  match exec r input 0 with Some _ => true | None => false end.

Definition match_first (r : regex) (input : jsstring) : option rmatch :=
  exec r input 0.

(** [[...s.matchAll(regex)]] for a pattern with the [g] flag: successive
    matches, each search resuming at the end of the previous match (one
    further when that match was empty). *)
Fixpoint matchAll_from (r : regex) (input : jsstring) (i : nat) (fuel : nat)
  : list rmatch :=
  match fuel with
  | O => []
  | S fuel' =>
      if Nat.ltb (List.length input) i then []
      else
        match exec r input i with
        | None => []
        | Some m =>
            let next := if Nat.eqb (m_end m) (m_index m) then S (m_end m)
                        else m_end m in
            m :: matchAll_from r input next fuel'
        end
  end.

Definition matchAll (r : regex) (input : jsstring) : list rmatch :=
  matchAll_from r input 0 (S (List.length input)).

(** *** Patterns built at run time

    [new RegExp(source, "i")] for a source made of literal ASCII characters
    and backslash-escaped punctuation: what
    [range.name.replace(/[()]/g, "\\$&")] produces for the catalog. *)

Definition asciiUpper (c : N) : N := if isLower c then (c - 32)%N else c.

(** A literal under the [i] flag. *)
Definition chr_i (p : N) : regex :=
  Chr (fun c => N.eqb (asciiUpper c) (asciiUpper p)).

Definition isSyntaxChar (c : N) : bool :=
  existsb (N.eqb c) (lit "^$\.*+?()[]{}|/").

Fixpoint compile_i (src : jsstring) : option regex :=
  match src with
  | [] => Some Eps
  | c :: rest =>
      if (c =? 92)%N then
        match rest with
        | d :: rest' =>
            if isSyntaxChar d then option_map (Seq (chr_i d)) (compile_i rest')
            else None
        | [] => None
        end
      else if isSyntaxChar c || negb (c <? 128)%N then None
      else option_map (Seq (chr_i c)) (compile_i rest)
  end.

(** [s.replace(/[()]/g, "\\$&")]: a backslash before each parenthesis. *)
Definition escapeParens (s : jsstring) : jsstring :=
  flat_map (fun c => if (c =? 40)%N || (c =? 41)%N then [92%N; c] else [c]) s.

End Regex.

Import Regex.

(** ** The route *)

(** Entries of [NORMAL_RANGES]. *)
Module Range.
Record t := { min : number; max : number; unit : jsstring; name : jsstring }.
End Range.

(** Elements of the array [parseBloodworkText] returns. *)
Module Parsed.
Record t := { name : jsstring; value : number; unit : jsstring }.
End Parsed.

Inductive status : Type := normal | low | high | critical.

Definition status_eqb (a b : status) : bool :=
  match a, b with
  | normal, normal | low, low | high, high | critical, critical => true
  | _, _ => false
  end.

(** What [analyzeValue] returns. *)
Module Analysis.
Record t := { status : status; normalRange : jsstring; explanation : jsstring }.
End Analysis.

(** [{ ...pv, ...analysis }] *)
Module Analyzed.
Record t := {
  name : jsstring; value : number; unit : jsstring;
  status : status; normalRange : jsstring; explanation : jsstring }.
End Analyzed.

Definition mkRange (lo hi : number) (u n : string) : Range.t :=
  {| Range.min := lo; Range.max := hi; Range.unit := lit u; Range.name := lit n |}.

(** Normal ranges for common bloodwork tests, in insertion order. *)
Definition NORMAL_RANGES : list (jsstring * Range.t) :=
  [ (lit "glucose", mkRange (dec 70 0) (dec 100 0) "mg/dL" "Glucose (Fasting)");
    (lit "hemoglobin", mkRange (dec 12 0) (dec 175 1) "g/dL" "Hemoglobin");
    (lit "hematocrit", mkRange (dec 36 0) (dec 52 0) "%" "Hematocrit");
    (lit "wbc", mkRange (dec 45 1) (dec 11 0) "K/μL" "White Blood Cell Count");
    (lit "rbc", mkRange (dec 45 1) (dec 59 1) "M/μL" "Red Blood Cell Count");
    (lit "platelets", mkRange (dec 150 0) (dec 450 0) "K/μL" "Platelet Count");
    (lit "cholesterol", mkRange (dec 0 0) (dec 200 0) "mg/dL" "Total Cholesterol");
    (lit "ldl", mkRange (dec 0 0) (dec 100 0) "mg/dL" "LDL Cholesterol");
    (lit "hdl", mkRange (dec 40 0) (dec 999 0) "mg/dL" "HDL Cholesterol");
    (lit "triglycerides", mkRange (dec 0 0) (dec 150 0) "mg/dL" "Triglycerides");
    (lit "creatinine", mkRange (dec 6 1) (dec 12 1) "mg/dL" "Creatinine");
    (lit "bun", mkRange (dec 7 0) (dec 20 0) "mg/dL" "BUN (Blood Urea Nitrogen)");
    (lit "alt", mkRange (dec 7 0) (dec 56 0) "U/L" "ALT (Alanine Aminotransferase)");
    (lit "ast", mkRange (dec 10 0) (dec 40 0) "U/L" "AST (Aspartate Aminotransferase)");
    (lit "tsh", mkRange (dec 4 1) (dec 40 1) "mIU/L" "TSH (Thyroid Stimulating Hormone)");
    (lit "t4", mkRange (dec 45 1) (dec 112 1) "μg/dL" "T4 (Thyroxine)");
    (lit "vitamin_d", mkRange (dec 20 0) (dec 50 0) "ng/mL" "Vitamin D");
    (lit "b12", mkRange (dec 200 0) (dec 900 0) "pg/mL" "Vitamin B12");
    (lit "iron", mkRange (dec 60 0) (dec 170 0) "μg/dL" "Iron");
    (lit "ferritin", mkRange (dec 15 0) (dec 200 0) "ng/mL" "Ferritin") ].

(** [Object.entries(NORMAL_RANGES)] and [Object.values(NORMAL_RANGES)] *)
Definition entries : list (jsstring * Range.t) := NORMAL_RANGES.
Definition values : list Range.t := map snd NORMAL_RANGES.

(** *** The patterns of [parseBloodworkText] *)

Definition seq (rs : list regex) : regex := fold_right Seq Eps rs.
(** The class of one character, and the pattern that matches it. *)
Definition isChar (c : string) (x : N) : bool :=
  match lit c with [y] => N.eqb x y | _ => false end.
Definition one (c : string) : regex := Chr (isChar c).

(** [[A-Za-z\s]], [[a-zA-Z\/%]], [[^)]], [\d], [\s] *)
Definition nameChar (c : N) : bool := isLetter c || isSpace c.
Definition unitChar (c : N) : bool := isLetter c || (c =? 47)%N || (c =? 37)%N.
Definition notRParen (c : N) : bool := negb (c =? 41)%N.

(** Capture group [i] around [\d+\.?\d*] *)
Definition numberGroup (i : nat) : regex :=
  Group i (seq [Plus (Chr isDigit); Opt (one "."); Star (Chr isDigit)]).

(** Capture group [i] around [[a-zA-Z\/%]+] *)
Definition unitGroup (i : nat) : regex := Group i (Plus (Chr unitChar)).

(** Capture group [i] around [[A-Za-z\s]+(?:\([^)]+\))?] *)
Definition nameGroup (i : nat) : regex :=
  Group i (seq [Plus (Chr nameChar);
                Opt (seq [one "("; Plus (Chr notRParen); one ")"])]).

(** Pattern: "Glucose: 95 mg/dL" or "Glucose 95 mg/dL".
    [(?:^|\s)], the name group, [\s*:?\s*], the number group, [\s*], the
    unit group; flags [gi]. *)
Definition pattern1 : regex :=
  seq [Alt Bol (Chr isSpace); nameGroup 1; Star (Chr isSpace); Opt (one ":");
       Star (Chr isSpace); numberGroup 2; Star (Chr isSpace); unitGroup 3].

(** Pattern: "95 mg/dL Glucose".
    The number group, [\s*], the unit group, [\s+], the name group; flags
    [gi]. *)
Definition pattern2 : regex :=
  seq [numberGroup 1; Star (Chr isSpace); unitGroup 2; Plus (Chr isSpace);
       nameGroup 3].

Definition patterns : list regex := [pattern1; pattern2].

(** The number group, [\s*], the unit group; no flags. *)
Definition valuePattern : regex :=
  seq [numberGroup 1; Star (Chr isSpace); unitGroup 2].

(** [new RegExp(range.name.replace(/[()]/g, "\\$&"), "i")]; a source the
    constructor rejects throws, which no catalog name causes. *)
Definition testNameRegex (range : Range.t) : option regex :=
  compile_i (escapeParens (Range.name range)).

(** *** Optional strings: [undefined], [||], truthiness *)

Definition truthy (o : option jsstring) : bool :=
  match o with Some (_ :: _) => true | _ => false end.

Definition js_or (a b : option jsstring) : option jsstring :=
  if truthy a then a else b.

(** [parseFloat(x)] where [x] may be [undefined], which reads as NaN. *)
Definition parseFloat_opt (o : option jsstring) : number :=
  match o with Some s => parseFloat s | None => NaN end.

(** *** parseBloodworkText *)

(** Try to match known test names: the inner loop over the catalog. *)
Definition knownNameHits (line : jsstring) : list Parsed.t :=
  flat_map
    (fun kv : jsstring * Range.t =>
       let range := snd kv in
       match testNameRegex range with
       | Some re =>
           if test re line then
             match match_first valuePattern line with
             | Some valueMatch =>
                 let value := parseFloat_opt (capture 1 (m_groups valueMatch)) in
                 match capture 2 (m_groups valueMatch) with
                 | Some unit =>
                     [ {| Parsed.name := Range.name range;
                          Parsed.value := value;
                          Parsed.unit := unit |} ]
                 | None => []
                 end
             | None => []
             end
           else []
       | None => []
       end)
    entries.

(** The predicate of [Object.values(NORMAL_RANGES).find(...)]. *)
Definition isKnownTest (testName : jsstring) (r : Range.t) : bool :=
  includes (toLowerCase (Range.name r)) (toLowerCase testName)
  || includes (toLowerCase testName)
       (firstPiece 32 (toLowerCase (Range.name r))).

(** The body of [for (const match of matches)]. *)
Definition genericHit (m : rmatch) : list Parsed.t :=
  let g i := capture i (m_groups m) in
  let testName := js_or (option_map trim (g 1)) (option_map trim (g 3)) in
  let value := parseFloat_opt (js_or (g 2) (g 1)) in
  let unit := js_or (g 3) (g 2) in
  match testName, unit with
  | Some tn, Some u =>
      if truthy testName && negb (isNaN value) && truthy unit then
        match find (isKnownTest tn) values with
        | Some knownTest =>
            [ {| Parsed.name := Range.name knownTest;
                 Parsed.value := value;
                 Parsed.unit := u |} ]
        | None => []
        end
      else []
  | _, _ => []
  end.

(** Try generic patterns. *)
Definition genericHits (line : jsstring) : list Parsed.t :=
  flat_map (fun pattern => flat_map genericHit (matchAll pattern line)) patterns.

(** The array [results] when the loop over the lines ends. *)
Definition collect (text : jsstring) : list Parsed.t :=
  flat_map (fun line => knownNameHits line ++ genericHits line) (split 10 text).

(** [self.findIndex(p)], [-1] when nothing satisfies [p]. *)
Fixpoint findIndex_from {A} (p : A -> bool) (i : Z) (l : list A) : Z :=
  match l with
  | [] => (-1)%Z
  | x :: l' => if p x then i else findIndex_from p (i + 1) l'
  end.

Definition findIndex {A} (p : A -> bool) (l : list A) : Z := findIndex_from p 0 l.

(** [self.filter((result, index, self) => keep result index self)] *)
Fixpoint filter_from {A} (keep : A -> Z -> list A -> bool) (self : list A)
  (i : Z) (l : list A) : list A :=
  match l with
  | [] => []
  | x :: l' =>
      if keep x i self then x :: filter_from keep self (i + 1) l'
      else filter_from keep self (i + 1) l'
  end.

Definition filter_indexed {A} (keep : A -> Z -> list A -> bool) (self : list A)
  : list A := filter_from keep self 0 self.

(** Remove duplicates: the callback
    [index === self.findIndex((r) => r.name === result.name)]. *)
Definition keepFirst (result : Parsed.t) (index : Z) (self : list Parsed.t) : bool :=
  Z.eqb index
    (findIndex (fun r => JsString.eqb (Parsed.name r) (Parsed.name result)) self).

Definition uniqueResults (results : list Parsed.t) : list Parsed.t :=
  filter_indexed keepFirst results.

Definition parseBloodworkText (text : jsstring) : list Parsed.t :=
  uniqueResults (collect text).

(** *** analyzeValue *)

Definition rangeText (range : Range.t) : jsstring :=
  toString (Range.min range) ++ lit "-" ++ toString (Range.max range)
  ++ lit " " ++ Range.unit range.

(** Normalize units if needed (basic conversion). *)
Definition normalizedValue (range : Range.t) (value : number) (unit : jsstring)
  : number :=
  if negb (JsString.eqb unit (Range.unit range)) then
    if JsString.eqb (Range.unit range) (lit "mg/dL")
       && includes (toLowerCase unit) (lit "mmol")
    then mul value (dec 18 0)
    else value
  else value.

(** Find matching normal range:
    [Object.values(NORMAL_RANGES).find((r) => r.name === name)]. *)
Definition findRange (name : jsstring) : option Range.t :=
  find (fun r => JsString.eqb (Range.name r) name) values.

Definition analyzeValue (name : jsstring) (value : number) (unit : jsstring)
  : Analysis.t :=
  match findRange name with
  | None =>
      {| Analysis.status := normal;
         Analysis.normalRange := lit "Unknown";
         Analysis.explanation :=
           lit "This test result was found in your bloodwork. We recommend consulting with your doctor about this value." |}
  | Some range =>
      let nv := normalizedValue range value unit in
      let min := Range.min range in
      let max := Range.max range in
      let '(status, explanation) :=
        if ltb nv min then
          (if ltb nv (mul min (dec 7 1)) then critical else low,
           lit "Your " ++ name ++ lit " level is below the normal range ("
           ++ rangeText range
           ++ lit "). This could indicate a deficiency or underlying condition.")
        else if gtb nv max then
          (if gtb nv (mul max (dec 15 1)) then critical else high,
           lit "Your " ++ name ++ lit " level is above the normal range ("
           ++ rangeText range ++ lit "). This may require medical attention.")
        else
          (normal,
           lit "Your " ++ name ++ lit " level is within the normal range ("
           ++ rangeText range ++ lit "). This is a good sign!") in
      {| Analysis.status := status;
         Analysis.normalRange := rangeText range;
         Analysis.explanation := explanation |}
  end.

(** *** generateSummary *)

Definition hasStatus (st : status) (v : Analyzed.t) : bool :=
  status_eqb (Analyzed.status v) st.

Definition criticalSummary (n : nat) : jsstring :=
  lit "⚠️ Your bloodwork shows " ++ ofNat n
  ++ lit " critical value(s) that require immediate medical attention. ".

Definition flaggedSummary (n : nat) : jsstring :=
  lit "Your bloodwork shows " ++ ofNat n
  ++ lit " value(s) outside the normal range. ".

Definition elevatedSentence (n : nat) : jsstring :=
  lit "You have " ++ ofNat n ++ lit " elevated value(s). ".

Definition lowSentence (n : nat) : jsstring :=
  lit "You have " ++ ofNat n ++ lit " low value(s). ".

Definition normalSummary : jsstring :=
  lit "✅ Great news! All your bloodwork values are within normal ranges. ".

Definition closingSentence : jsstring :=
  lit "Review the detailed results below for more information about each test.".

Definition criticalRecommendations : list jsstring :=
  [ lit "Schedule an appointment with your doctor as soon as possible.";
    lit "If you're experiencing severe symptoms, consider seeking emergency care." ].

Definition flaggedRecommendations : list jsstring :=
  [ lit "Consult with your healthcare provider about these results.";
    lit "Consider lifestyle changes like diet and exercise if recommended by your doctor." ].

Definition normalRecommendations : list jsstring :=
  [ lit "Continue maintaining a healthy lifestyle.";
    lit "Schedule regular check-ups to monitor your health." ].

Definition generateSummary (vs : list Analyzed.t) : jsstring * list jsstring :=
  let flagged := filter (fun v => negb (hasStatus normal v)) vs in
  let critical := filter (hasStatus critical) vs in
  let high := filter (hasStatus high) vs in
  let low := filter (hasStatus low) vs in
  let '(summary, recommendations) :=
    if Nat.ltb 0 (List.length critical) then
      (criticalSummary (List.length critical), criticalRecommendations)
    else if Nat.ltb 0 (List.length high) || Nat.ltb 0 (List.length low) then
      (flaggedSummary (List.length flagged)
       ++ (if Nat.ltb 0 (List.length high)
           then elevatedSentence (List.length high) else [])
       ++ (if Nat.ltb 0 (List.length low)
           then lowSentence (List.length low) else []),
       flaggedRecommendations)
    else (normalSummary, normalRecommendations) in
  (summary ++ closingSentence, recommendations).

(** *** The result object of a successful upload *)

Module Screening.
Record t := {
  userId : jsstring;
  fileName : jsstring;
  uploadedAt : jsstring;
  values : list Analyzed.t;
  summary : jsstring;
  recommendations : list jsstring;
  flaggedCount : nat }.
End Screening.

(** Analyze each value: [{ ...pv, ...analyzeValue(pv.name, pv.value, pv.unit) }]. *)
Definition analyze (pv : Parsed.t) : Analyzed.t :=
  let analysis := analyzeValue (Parsed.name pv) (Parsed.value pv) (Parsed.unit pv) in
  {| Analyzed.name := Parsed.name pv;
     Analyzed.value := Parsed.value pv;
     Analyzed.unit := Parsed.unit pv;
     Analyzed.status := Analysis.status analysis;
     Analyzed.normalRange := Analysis.normalRange analysis;
     Analyzed.explanation := Analysis.explanation analysis |}.

(** The part of [POST] between the parse and the database: from the parsed
    values to the result object. *)
Definition screen (userId fileName uploadedAt : jsstring)
  (parsedValues : list Parsed.t) : Screening.t :=
  let analyzedValues := map analyze parsedValues in
  let '(summary, recommendations) := generateSummary analyzedValues in
  let flaggedCount :=
    List.length (filter (fun v => negb (hasStatus normal v)) analyzedValues) in
  {| Screening.userId := userId;
     Screening.fileName := fileName;
     Screening.uploadedAt := uploadedAt;
     Screening.values := analyzedValues;
     Screening.summary := summary;
     Screening.recommendations := recommendations;
     Screening.flaggedCount := flaggedCount |}.



(** ** API errors, validation and rate limiting

    The helpers that follow the route in the source: the error class
    [APIError] with [handleAPIError], the validators [validateRequired] and
    [validateAppointmentDate], and the in-memory rate limiter
    [checkRateLimit]. *)

Module Api.

Import stdpp.base stdpp.option stdpp.gmap.

Set Warnings "-register-all".

(** JavaScript values, as far as truthiness and property lookup go. *)
Inductive value : Type :=
| Undefined
| Null
| Bool (b : bool)
| Num (x : number)
| Str (s : jsstring)
| Fun
| Arr (items : list value)
| Obj (fields : list (jsstring * value)).

Set Warnings "+register-all".

(** [ToBoolean]: [undefined], [null], [false], [0], [NaN] and the empty
    string are falsy. *)
Definition toBoolean (v : value) : bool :=
  match v with
  | Undefined | Null => false
  | Bool b => b
  | Num (S754_zero _) | Num S754_nan => false
  | Num _ => true
  | Str [] => false
  | Str _ => true
  | Fun | Arr _ | Obj _ => true
  end.

(** The property names every object inherits from [Object.prototype]. *)
Definition objectPrototype : list jsstring :=
  [ lit "constructor"; lit "hasOwnProperty"; lit "isPrototypeOf";
    lit "propertyIsEnumerable"; lit "toLocaleString"; lit "toString";
    lit "valueOf"; lit "__proto__"; lit "__defineGetter__";
    lit "__defineSetter__"; lit "__lookupGetter__"; lit "__lookupSetter__" ].

(** [data[field]] on an object with the own properties [fields]: the own
    property, else what [Object.prototype] provides (an accessor for
    [__proto__] that yields the prototype, functions otherwise). *)
Definition get (fields : list (jsstring * value)) (key : jsstring) : value :=
  match find (fun kv => JsString.eqb (fst kv) key) fields with
  | Some kv => snd kv
  | None =>
      if JsString.eqb key (lit "__proto__") then Obj []
      else if existsb (JsString.eqb key) objectPrototype then Fun
      else Undefined
  end.

(** [xs.join(sep)] on strings *)
Fixpoint join (sep : jsstring) (xs : list jsstring) : jsstring :=
  match xs with
  | [] => []
  | [x] => x
  | x :: rest => x ++ sep ++ join sep rest
  end.

(** What a [throw] carries: an [APIError] (the status code defaults to 500,
    the code may be absent), any other [Error], or a value that is not an
    error. *)
Inductive thrown : Type :=
| APIError (message : jsstring) (statusCode : nat) (code : option jsstring)
| Error (message : jsstring)
| NotAnError (v : value).

(** [new APIError(message, statusCode = 500, code?)] *)
Definition newAPIError (message : jsstring) (statusCode : option nat)
  (code : option jsstring) : thrown :=
  APIError message (default 500 statusCode) code.

(** The object [handleAPIError] returns; [code] is absent for errors that
    are not [APIError]s. *)
Record ErrorBody := {
  error : jsstring;
  code : option jsstring;
  status : nat }.

(** [handleAPIError(error)], with the line it writes to the console. *)
Definition handleAPIError (e : thrown) (console : list jsstring)
  : ErrorBody * list jsstring :=
  let console := console ++ [lit "API Error:"] in
  match e with
  | APIError message statusCode code =>
      ({| error := message; code := code; status := statusCode |}, console)
  | Error message => ({| error := message; code := None; status := 500 |}, console)
  | NotAnError _ =>
      ({| error := lit "An unexpected error occurred"; code := None;
          status := 500 |}, console)
  end.

(** [validateRequired(data, fields)]: [None] when it returns, the error
    when it throws. *)
Definition missingFields (data : list (jsstring * value)) (fields : list jsstring)
  : list jsstring :=
  List.filter (fun field => negb (toBoolean (get data field))) fields.

Definition validateRequired (data : list (jsstring * value))
  (fields : list jsstring) : option thrown :=
  let missing := missingFields data fields in
  if Nat.ltb 0 (List.length missing) then
    Some (newAPIError (lit "Missing required fields: " ++ join (lit ", ") missing)
            (Some 400) (Some (lit "MISSING_FIELDS")))
  else None.

(** [validateAppointmentDate(date, time)].  [timeValue s] is the time value
    of [new Date(s)], NaN for a string the runtime cannot read as a date;
    [now] is the time value of [new Date()].  Dates compare by their time
    values. *)
Definition validateAppointmentDate (timeValue : jsstring -> number)
  (now : number) (date time : jsstring) : option thrown :=
  let appointmentDate := timeValue (date ++ lit "T" ++ time) in
  if Number.ltb appointmentDate now then
    Some (newAPIError (lit "Appointment date must be in the future")
            (Some 400) (Some (lit "INVALID_DATE")))
  else None.

(** *** The rate limiter *)

Definition add (x y : number) : number := SFadd prec emax x y.
Definition geb (x y : number) : bool := Number.leb y x.

Record Entry := { count : number; resetTime : number }.

Definition tooManyRequests : thrown :=
  newAPIError (lit "Too many requests") (Some 429)
    (Some (lit "RATE_LIMIT_EXCEEDED")).

(** [checkRateLimit(userId, limit = 100, windowMs = 60000)] at the instant
    [now = Date.now()], on the module-level [Map] [rateLimit] from user ids
    to their entries: [None] when it returns, the error when it throws, and
    the map afterwards. *)
Definition checkRateLimit (now : number) (userId : jsstring)
  (limit windowMs : option number) (rateLimit : gmap jsstring Entry)
  : option thrown * gmap jsstring Entry :=
  let limit := default (dec 100 0) limit in
  let windowMs := default (dec 60000 0) windowMs in
  let restart :=
    (None, <[userId := {| count := dec 1 0; resetTime := add now windowMs |}]>
             rateLimit) in
  match rateLimit !! userId with
  | None => restart
  | Some userRateLimit =>
      if Number.gtb now (resetTime userRateLimit) then restart
      else if geb (count userRateLimit) limit then
        (Some tooManyRequests, rateLimit)
      else
        (None,
         <[userId := {| count := add (count userRateLimit) (dec 1 0);
                        resetTime := resetTime userRateLimit |}]> rateLimit)
  end.

End Api.

(** Runs of the rate limiter. *)
Module ApiRuns.

Import stdpp.base stdpp.option stdpp.gmap.
Import Api.

(** The number [n] as the runtime holds it. *)
Definition numberOf (n : nat) : number := dec (N.of_nat n) 0.

(** The entry a user gets at the start of a window. *)
Definition freshEntry (now : number) (windowMs : option number) : Entry :=
  {| count := dec 1 0; resetTime := add now (default (dec 60000 0) windowMs) |}.

(** Calls of [checkRateLimit] for one user at the instants [times], in
    order: what each call did, and the map at the end. *)
Fixpoint requests (userId : jsstring) (limit windowMs : option number)
  (times : list number) (rateLimit : gmap jsstring Entry)
  : list (option thrown) * gmap jsstring Entry :=
  match times with
  | [] => ([], rateLimit)
  | now :: later =>
      let '(outcome, rateLimit') :=
        checkRateLimit now userId limit windowMs rateLimit in
      let '(outcomes, final) := requests userId limit windowMs later rateLimit' in
      (outcome :: outcomes, final)
  end.

(** For [fuel] counts from [k] on, adding one to a count gives the next
    count, which is larger. *)
Fixpoint countsFrom (fuel : nat) (k : N) : bool :=
  match fuel with
  | O => true
  | S fuel' =>
      same (add (dec k 0) (dec 1 0)) (dec (k + 1) 0)
      && Number.ltb (dec k 0) (dec (k + 1) 0)
      && countsFrom fuel' (k + 1)
  end.

Definition largestLimit : nat := N.to_nat 100000.

End ApiRuns.
(** ** Asynchronous functions that catch

    [GET] of the route and the two mail functions run their body in a
    [try] block.  A computation writes to the console and then falls
    through with a value, returns from the function, or throws. *)

Module Async.

Import Api.

Inductive Completion (R A : Type) : Type :=
| Normal (a : A)
| Return (r : R)
| Throw (e : thrown).
Arguments Normal {R A} a.
Arguments Return {R A} r.
Arguments Throw {R A} e.

Definition M (R A : Type) : Type :=
  list jsstring -> Completion R A * list jsstring.

Definition ret {R A} (a : A) : M R A := fun console => (Normal a, console).
Definition returns {R A} (r : R) : M R A := fun console => (Return r, console).
Definition throw {R A} (e : thrown) : M R A := fun console => (Throw e, console).

Definition bind {R A B} (m : M R A) (f : A -> M R B) : M R B :=
  fun console =>
    match m console with
    | (Normal a, console') => f a console'
    | (Return r, console') => (Return r, console')
    | (Throw e, console') => (Throw e, console')
    end.

Notation "x <- m ;; k" := (bind m (fun x => k))
  (at level 100, m at next level, right associativity).
Notation "m ;;; k" := (bind m (fun _ => k))
  (at level 100, right associativity).

(** [try { body } catch (error) { handler error }] *)
Definition tryCatch {R A} (body : M R A) (handler : thrown -> M R A) : M R A :=
  fun console =>
    match body console with
    | (Throw e, console') => handler e console'
    | other => other
    end.

Definition console_error {R} (msg : jsstring) : M R unit :=
  fun console => (Normal tt, console ++ [msg]).

End Async.

(** ** The listing handler and the database client

    [GET] of the route lists the stored screenings of a user;
    [createSupabaseServerClient] builds the client both handlers use. *)

Module History.

Import stdpp.base stdpp.option.
Import Api Async.

(** [process.env] as far as the client reads it. *)
Record ProcessEnv := {
  NEXT_PUBLIC_SUPABASE_URL : option jsstring;
  NEXT_PUBLIC_SUPABASE_PUBLISHABLE_KEY : option jsstring }.

Definition missingEnvironment : jsstring :=
  lit "Missing Supabase environment variables".

(** [createSupabaseServerClient()]: the url and key the client is created
    with, unless one of them is unset or empty. *)
Definition createSupabaseServerClient {R} (env : ProcessEnv)
  : M R (jsstring * jsstring) :=
  let supabaseUrl := NEXT_PUBLIC_SUPABASE_URL env in
  let supabaseAnonKey := NEXT_PUBLIC_SUPABASE_PUBLISHABLE_KEY env in
  if negb (truthy supabaseUrl) || negb (truthy supabaseAnonKey) then
    throw (Error missingEnvironment)
  else ret (default [] supabaseUrl, default [] supabaseAnonKey).

(** What the query of [GET] settles to: it resolves with rows (an array)
    and no error, or with an error of the database, or it rejects. *)
Inductive QueryOutcome : Type :=
| Rows (data : list (list (jsstring * value)))
| QueryError (message : jsstring)
| Rejected (e : thrown).

(** [await supabase.from(...).select("*").eq("user_id", userId).order(...)] *)
Definition select {R} (query : jsstring -> QueryOutcome) (userId : jsstring)
  : M R (list (list (jsstring * value)) + jsstring) :=
  match query userId with
  | Rows data => ret (inl data)
  | QueryError message => ret (inr message)
  | Rejected e => throw e
  end.

(** [v?.key] followed by a property read: [undefined] on [undefined] and
    [null]; the own property of an object; [values] of an array is the
    method of that name; other values have none of the properties the
    handler reads. *)
Definition member (v : value) (key : jsstring) : value :=
  match v with
  | Undefined | Null => Undefined
  | Obj fields => get fields key
  | Arr _ => if JsString.eqb key (lit "values") then Fun else Undefined
  | _ => Undefined
  end.

(** [a || b] *)
Definition orValue (a b : value) : value := if toBoolean a then a else b.

(** Transform data to match frontend interface. *)
Definition transform (record : list (jsstring * value))
  : list (jsstring * value) :=
  let results := get record (lit "results") in
  [ (lit "id", get record (lit "id"));
    (lit "userId", get record (lit "user_id"));
    (lit "fileName", get record (lit "file_name"));
    (lit "uploadedAt", get record (lit "created_at"));
    (lit "values", orValue (member results (lit "values")) (Arr []));
    (lit "summary", orValue (member results (lit "summary")) (Str []));
    (lit "recommendations",
       orValue (member results (lit "recommendations")) (Arr []));
    (lit "flaggedCount",
       orValue (member results (lit "flaggedCount")) (Num (dec 0 0))) ].

(** [error instanceof Error ? error.message : "Unknown error"] *)
Definition detailsOf (e : thrown) : jsstring :=
  match e with
  | APIError message _ _ | Error message => message
  | NotAnError _ => lit "Unknown error"
  end.

Inductive Response : Type :=
| Listing (data : list (list (jsstring * value)))
| Failure (httpStatus : nat) (error : jsstring) (details : option jsstring).

(** The body of the [try] of [GET], for a request with a well-formed URL:
    [userId] is [searchParams.get("userId")], [null] when the parameter is
    absent. *)
Definition list_screenings (env : ProcessEnv) (query : jsstring -> QueryOutcome)
  (userId : option jsstring) : M Response Empty_set :=
  if negb (truthy userId) then
    returns (Failure 400 (lit "userId parameter is required") None)
  else
    supabase <- createSupabaseServerClient env ;;
    answer <- select query (default [] userId) ;;
    match answer with
    | inr message =>
        console_error (lit "Database error:") ;;;
        returns (Failure 500 (lit "Failed to fetch bloodwork screenings")
                   (Some message))
    | inl data => returns (Listing (map transform data))
    end.

Definition GET (env : ProcessEnv) (query : jsstring -> QueryOutcome)
  (userId : option jsstring) : M Response Empty_set :=
  tryCatch (list_screenings env query userId)
    (fun error =>
       console_error (lit "Error fetching bloodwork screenings:") ;;;
       returns (Failure 500 (lit "Internal server error")
                  (Some (detailsOf error)))).

(** A row of the table as [POST] writes it: the result object under
    [results], beside the columns; [id] is given by the database. *)
Definition storedRow (id userId fileName createdAt uploadedAt : jsstring)
  (values : list value) (summary : jsstring) (recommendations : list value)
  (flaggedCount : nat) : list (jsstring * value) :=
  [ (lit "id", Str id);
    (lit "user_id", Str userId);
    (lit "file_name", Str fileName);
    (lit "results",
       Obj [ (lit "userId", Str userId);
             (lit "fileName", Str fileName);
             (lit "uploadedAt", Str uploadedAt);
             (lit "values", Arr values);
             (lit "summary", Str summary);
             (lit "recommendations", Arr recommendations);
             (lit "flaggedCount", Num (dec (N.of_nat flaggedCount) 0)) ]);
    (lit "created_at", Str createdAt) ].

End History.
(** ** Mail

    [src/lib/email.ts]: the two messages sent through the mail service. *)

Module Mail.

Import Api Async.

Record Email := {
  from : jsstring;
  to : list jsstring;
  subject : jsstring;
  html : jsstring }.

(** What [resend.emails.send] does: it resolves with [{ data, error }], or
    it rejects. *)
Inductive SendOutcome : Type :=
| Answered (data error : value)
| Rejected (e : thrown).

(** What the two functions return: [{ success: true, data }] or
    [{ success: false, error }]. *)
Inductive SendResult : Type :=
| Success (data : value)
| NoSuccess (error : thrown).

(** [await resend.emails.send(email)] *)
Definition emails_send {R} (send : Email -> SendOutcome) (email : Email)
  : M R (value * value) :=
  match send email with
  | Answered data error => ret (data, error)
  | Rejected e => throw e
  end.

Definition line (s : jsstring) : jsstring := [10%N] ++ lit "        " ++ s.

Definition appointmentEmail (to name date time : jsstring) : Email :=
  {| from := lit "Curanova <appointments@curanova.com>";
     to := [to];
     subject := lit "Your Appointment is Confirmed";
     html :=
       line (lit "<h1>Appointment Confirmation</h1>")
       ++ line (lit "<p>Dear " ++ name ++ lit ",</p>")
       ++ line (lit "<p>Your appointment has been confirmed for:</p>")
       ++ line (lit "<p>Date: " ++ date ++ lit "</p>")
       ++ line (lit "<p>Time: " ++ time ++ lit "</p>")
       ++ line (lit "<p>Thank you for choosing Curanova!</p>")
       ++ [10%N] ++ lit "      " |}.

Definition diagnosticEmail (to name diagnosisType json : jsstring) : Email :=
  {| from := lit "Curanova <diagnostics@curanova.com>";
     to := [to];
     subject := lit "Your " ++ diagnosisType ++ lit " Results";
     html :=
       line (lit "<h1>Diagnostic Results</h1>")
       ++ line (lit "<p>Dear " ++ name ++ lit ",</p>")
       ++ line (lit "<p>Your " ++ diagnosisType ++ lit " results are ready:</p>")
       ++ line (lit "<pre>" ++ json ++ lit "</pre>")
       ++ line (lit "<p>Please consult with your healthcare provider about these results.</p>")
       ++ [10%N] ++ lit "      " |}.

(** What follows the call in both functions: throw the error of the answer
    if there is one (the service answers with a plain object), else return
    the data. *)
Definition answered (answer : value * value) : M SendResult Empty_set :=
  let '(data, error) := answer in
  if toBoolean error then throw (NotAnError error)
  else returns (Success data).

(** The [catch] block of both functions. *)
Definition failed (error : thrown) : M SendResult Empty_set :=
  console_error (lit "Error sending email:") ;;;
  returns (NoSuccess error).

Definition sendAppointmentConfirmation (send : Email -> SendOutcome)
  (to name date time : jsstring) : M SendResult Empty_set :=
  tryCatch
    (answer <- emails_send send (appointmentEmail to name date time) ;;
     answered answer)
    failed.

(** [stringify] is what [JSON.stringify(result, null, 2)] does: the text
    the template prints, or what it throws. *)
Definition sendDiagnosticResults (send : Email -> SendOutcome)
  (to name diagnosisType : jsstring) (stringify : jsstring + thrown)
  : M SendResult Empty_set :=
  tryCatch
    (json <- match stringify with
             | inl text => ret text
             | inr e => throw e
             end ;;
     answer <- emails_send send (diagnosticEmail to name diagnosisType json) ;;
     answered answer)
    failed.

End Mail.
(** ** The upload handler

    [POST] touches the world in three ways: it stages the upload in a
    temporary file, writes to the console, and asks the database to store
    the result.  Control leaves a block normally, by [return] or by a thrown
    error; [try]/[catch]/[finally] are written out on those completions.
    Every call that can fail in the runtime can fail here: writing and
    unlinking the file, parsing the PDF, building the database client and
    the insert. *)

Module Upload.

Import stdpp.base stdpp.option stdpp.gmap.

Definition buffer := list N.

Record File := { name : jsstring; bytes : buffer }.

(** The form fields the handler reads; a missing field is [None]. *)
Record Request := { file : option File; userId : option jsstring }.

Inductive Response : Type :=
| ErrorResponse (httpStatus : nat) (error : jsstring)
    (suggestion extractedTextPreview details : option jsstring)
| ResultResponse (result : Screening.t) (id warning : option jsstring).

(** What the insert into [bloodwork_screenings] settles to: it resolves
    with the saved row, of which the handler reads the id, or with an error
    of the database, or it rejects. *)
Inductive InsertOutcome : Type :=
| Saved (id : jsstring)
| DbError
| InsertRejected (e : Api.thrown).

(** What the runtime and the libraries answer during one request. *)
Record Env := {
  tmpdir : jsstring;                          (* os.tmpdir() *)
  now : number;                               (* Date.now() *)
  join : jsstring -> jsstring -> jsstring;    (* path.join *)
  canWrite : jsstring -> bool;                (* does fs.writeFile succeed there *)
  canUnlink : jsstring -> bool;               (* does fs.unlink succeed on a file that is there *)
  fsError : jsstring -> Api.thrown;           (* what a failing fs call on that path throws *)
  pdfParse : buffer -> option jsstring;       (* the text, or a thrown error *)
  pdfError : buffer -> Api.thrown;            (* what pdfParse throws when it fails *)
  decodeUtf8 : buffer -> jsstring;            (* buffer.toString("utf-8") *)
  isoNow : jsstring;                          (* new Date().toISOString() *)
  processEnv : History.ProcessEnv;            (* process.env *)
  dbInsert : Screening.t -> InsertOutcome     (* insert(...).select().single() *)
}.

Record World := { fs : gmap jsstring buffer; console : list jsstring }.

Inductive Completion (A : Type) : Type :=
| Normal (a : A)
| Return (r : Response)
| Throw (e : Api.thrown).
Arguments Normal {A} a.
Arguments Return {A} r.
Arguments Throw {A} e.

Definition M (A : Type) : Type := World -> Completion A * World.

Definition ret {A} (a : A) : M A := fun w => (Normal a, w).
Definition returns {A} (r : Response) : M A := fun w => (Return r, w).
Definition throw {A} (e : Api.thrown) : M A := fun w => (Throw e, w).

Definition bind {A B} (m : M A) (f : A -> M B) : M B :=
  fun w =>
    match m w with
    | (Normal a, w') => f a w'
    | (Return r, w') => (Return r, w')
    | (Throw e, w') => (Throw e, w')
    end.

Notation "x <- m ;; k" := (bind m (fun x => k))
  (at level 100, m at next level, right associativity).
Notation "m ;;; k" := (bind m (fun _ => k))
  (at level 100, right associativity).

(** [try { body } catch (error) { handler error }] *)
Definition tryCatch {A} (body : M A) (handler : Api.thrown -> M A) : M A :=
  fun w =>
    match body w with
    | (Throw e, w') => handler e w'
    | other => other
    end.

(** [try { body } finally { cleanup }]: the cleanup runs on every
    completion of the body, and an abrupt cleanup replaces it. *)
Definition tryFinally {A} (body : M A) (cleanup : M unit) : M A :=
  fun w =>
    let '(c, w1) := body w in
    match cleanup w1 with
    | (Normal _, w2) => (c, w2)
    | (Return r, w2) => (Return r, w2)
    | (Throw e, w2) => (Throw e, w2)
    end.

Definition console_error (msg : jsstring) : M unit :=
  fun w => (Normal tt, {| fs := fs w; console := console w ++ [msg] |}).

(** A computation that touches the console only, run inside the handler. *)
Definition onConsole {A} (m : Async.M Response A) : M A :=
  fun w =>
    match m (console w) with
    | (Async.Normal a, console') =>
        (Normal a, {| fs := fs w; console := console' |})
    | (Async.Return r, console') =>
        (Return r, {| fs := fs w; console := console' |})
    | (Async.Throw e, console') =>
        (Throw e, {| fs := fs w; console := console' |})
    end.

(** [fs.writeFile(path, data)] *)
Definition writeFile (env : Env) (path : jsstring) (data : buffer) : M unit :=
  fun w =>
    if canWrite env path
    then (Normal tt, {| fs := <[path := data]> (fs w); console := console w |})
    else (Throw (fsError env path), w).

(** [fs.unlink(path)]: throws when there is no such file, and when the
    runtime cannot remove the one that is there; else the file is gone. *)
Definition unlink (env : Env) (path : jsstring) : M unit :=
  fun w =>
    match fs w !! path with
    | Some _ =>
        if canUnlink env path
        then (Normal tt, {| fs := delete path (fs w); console := console w |})
        else (Throw (fsError env path), w)
    | None => (Throw (fsError env path), w)
    end.

Definition jsonError (st : nat) (msg : string) : Response :=
  ErrorResponse st (lit msg) None None None.

Definition tempFilePath (env : Env) (f : File) : jsstring :=
  join env (tmpdir env)
    (lit "bloodwork-" ++ toString (now env) ++ lit "-" ++ name f).

(** [file.name.split(".").pop()?.toLowerCase()] *)
Definition fileExtension (f : File) : jsstring :=
  toLowerCase (List.last (JsString.split 46%N (name f)) []).

Definition isImageExtension (ext : jsstring) : bool :=
  existsb (JsString.eqb ext) [lit "jpg"; lit "jpeg"; lit "png"; lit "gif"].

(** The two responses returned from inside the extraction [try]. *)
Definition imageResponse : Response :=
  ErrorResponse 400
    (lit "Image files are not yet supported. Please upload a PDF file of your bloodwork results.")
    (Some (lit "Most labs provide results in PDF format. If you only have an image, consider converting it to PDF first."))
    None None.

Definition extractionFailure : Response :=
  jsonError 500
    "Failed to extract text from file. Please ensure it's a valid PDF or text file.".

(** Extract text based on file type, then clean up the temp file. *)
Definition extractText (env : Env) (f : File) : M jsstring :=
  tryFinally
    (tryCatch
       (if JsString.eqb (fileExtension f) (lit "pdf") then
          match pdfParse env (bytes f) with
          | Some text => ret text
          | None => throw (pdfError env (bytes f))
          end
        else if isImageExtension (fileExtension f) then returns imageResponse
        else ret (decodeUtf8 env (bytes f)))
       (fun error =>
          console_error (lit "Error extracting text:") ;;;
          returns extractionFailure))
    (tryCatch (unlink env (tempFilePath env f))
       (fun error => console_error (lit "Error deleting temp file:"))).

(** Save to database: the client is built first; a rejected insert throws,
    an error of the database is logged and the result still returned. *)
Definition save (env : Env) (result : Screening.t) : M Empty_set :=
  supabase <- onConsole (History.createSupabaseServerClient (processEnv env)) ;;
  match dbInsert env result with
  | InsertRejected e => throw e
  | DbError =>
      console_error (lit "Database error:") ;;;
      returns
        (ResultResponse result None
           (Some (lit "Results processed but could not be saved to database.")))
  | Saved id => returns (ResultResponse result (Some id) None)
  end.

(** The body of the outer [try] of [POST]. *)
Definition handle (env : Env) (req : Request) : M Empty_set :=
  match file req with
  | None => returns (jsonError 400 "No file uploaded")
  | Some f =>
      if negb (truthy (userId req)) then returns (jsonError 400 "userId is required")
      else
        writeFile env (tempFilePath env f) (bytes f) ;;;
        extractedText <- extractText env f ;;
        let parsedValues := parseBloodworkText extractedText in
        if Nat.eqb (List.length parsedValues) 0 then
          returns
            (ErrorResponse 400
               (lit "Could not extract bloodwork values from the file.")
               (Some (lit "Please ensure your file contains readable bloodwork results with test names and values."))
               (Some (firstn 500 extractedText)) None)
        else
          let result :=
            screen (default [] (userId req)) (name f) (isoNow env) parsedValues in
          save env result
  end.

(** The outer [catch]: whatever the body throws becomes the 500 response,
    with the message of an [Error] as details. *)
Definition POST (env : Env) (req : Request) (w : World) : Response * World :=
  match handle env req w with
  | (Return r, w') => (r, w')
  | (Throw e, w') =>
      (ErrorResponse 500 (lit "Internal server error") None None
         (Some (History.detailsOf e)),
       {| fs := fs w'; console := console w' ++ [lit "Error processing bloodwork:"] |})
  | (Normal a, _) => match a with end
  end.

(** The world right after [fs.writeFile] has staged the upload [f]; the
    world once the staged file is unlinked with [msgs] logged; and the world
    when the unlink failed, which is logged after [msgs]. *)
Definition staged (env : Env) (f : File) (w : World) : World :=
  {| fs := <[tempFilePath env f := bytes f]> (fs w); console := console w |}.

Definition cleaned (env : Env) (f : File) (msgs : list jsstring) (w : World)
  : World :=
  {| fs := delete (tempFilePath env f) (fs w); console := console w ++ msgs |}.

Definition leftBehind (msgs : list jsstring) (w : World) : World :=
  {| fs := fs w;
     console := console w ++ msgs ++ [lit "Error deleting temp file:"] |}.

Definition afterCleanup (env : Env) (f : File) (msgs : list jsstring)
  (w : World) : World :=
  if canUnlink env (tempFilePath env f) then cleaned env f msgs w
  else leftBehind msgs w.

End Upload.

(** ** Vocabulary of the specification *)

(** The two cut-offs [min * 0.7] and [max * 1.5] of [analyzeValue]. *)
Definition lowCut (r : Range.t) : number := mul (Range.min r) (dec 7 1).
Definition highCut (r : Range.t) : number := mul (Range.max r) (dec 15 1).

(** [min * 0.7 <= min <= max <= max * 1.5] *)
Definition ordered (r : Range.t) : bool :=
  leb (lowCut r) (Range.min r) && leb (Range.min r) (Range.max r)
  && leb (Range.max r) (highCut r).

Definition statusOf (name : jsstring) (value : number) (unit : jsstring) : status :=
  Analysis.status (analyzeValue name value unit).

Definition glucoseName : jsstring := lit "Glucose (Fasting)".
Definition glucoseRange : Range.t :=
  mkRange (dec 70 0) (dec 100 0) "mg/dL" "Glucose (Fasting)".
Definition cholesterolRange : Range.t :=
  mkRange (dec 0 0) (dec 200 0) "mg/dL" "Total Cholesterol".

(** The analysis of a name the catalog does not know. *)
Definition unknownAnalysis : Analysis.t :=
  {| Analysis.status := normal;
     Analysis.normalRange := lit "Unknown";
     Analysis.explanation :=
       lit "This test result was found in your bloodwork. We recommend consulting with your doctor about this value." |}.

Definition parsed (name : string) (value : number) (unit : string) : Parsed.t :=
  {| Parsed.name := lit name; Parsed.value := value; Parsed.unit := lit unit |}.

(** The line "<name>: <v> <unit>" of a catalog entry, and whether
    [parseBloodworkText] answers it with the one measurement made of the
    entry's name, the value of [v] and the entry's unit. *)
Definition catalogLine (r : Range.t) (v : jsstring) : jsstring :=
  Range.name r ++ lit ": " ++ v ++ lit " " ++ Range.unit r.

Definition extractedAsWritten (r : Range.t) (v : jsstring) : bool :=
  match parseBloodworkText (catalogLine r v) with
  | [pv] =>
      JsString.eqb (Parsed.name pv) (Range.name r)
      && same (Parsed.value pv) (parseFloat v)
      && JsString.eqb (Parsed.unit pv) (Range.unit r)
  | _ => false
  end.

(** Does the unit contain U+03BC, the Greek small letter mu? *)
Definition unitHasMu (r : Range.t) : bool := existsb (N.eqb 956) (Range.unit r).

Definition analyzed (name : string) (value : number) (unit : string) : Analyzed.t :=
  analyze (parsed name value unit).

Definition newline : jsstring := [10%N].

Definition sampleReport : jsstring :=
  lit "Glucose: 250 mg/dL" ++ newline ++ lit "Hemoglobin: 14 g/dL".

Definition twoHemoglobinLines : jsstring :=
  lit "Hemoglobin: 14 g/dL" ++ newline ++ lit "Hemoglobin: 9 g/dL".

Definition status_eq_dec (a b : status) : {a = b} + {a <> b}.
Proof. decide equality. Defined.

(** How many values carry status [st]. *)
Definition count (st : status) (vs : list Analyzed.t) : nat :=
  count_occ status_eq_dec (map Analyzed.status vs) st.

(** The number of values whose status is not normal. *)
Fixpoint flaggedIn (vs : list Analyzed.t) : nat :=
  match vs with
  | [] => 0
  | v :: vs' =>
      match Analyzed.status v with
      | normal => flaggedIn vs'
      | _ => S (flaggedIn vs')
      end
  end.

(** Keep the first measurement for each distinct display name, in
    first-seen order: the rule as the specification words it.  [seen] holds
    the names already met. *)
Fixpoint firstOfEachName (seen : list jsstring) (l : list Parsed.t)
  : list Parsed.t :=
  match l with
  | [] => []
  | x :: l' =>
      if existsb (JsString.eqb (Parsed.name x)) seen
      then firstOfEachName seen l'
      else x :: firstOfEachName (Parsed.name x :: seen) l'
  end.

(** [out] keeps some elements of [l], in the order of [l]. *)
Inductive Subsequence {A : Type} : list A -> list A -> Prop :=
| sub_nil : Subsequence [] []
| sub_keep x out l : Subsequence out l -> Subsequence (x :: out) (x :: l)
| sub_skip x out l : Subsequence out l -> Subsequence out (x :: l).

Definition named (n : jsstring) (r : Parsed.t) : bool :=
  JsString.eqb (Parsed.name r) n.

(** [n] is the display name of a catalog entry. *)
Definition catalogName (n : jsstring) : Prop :=
  exists r, In r values /\ n = Range.name r.

(** *** Sample uploads *)

Module Samples.

Import stdpp.base stdpp.gmap.
Import Upload.

(** A runtime for examples: every write and unlink succeeds, no PDF parses,
    bytes are read as code units, the client's environment is set and the
    database stores every row. *)
Definition sampleEnv : Env :=
  {| tmpdir := lit "/tmp";
     now := dec 1700000000000 0;
     join := fun dir base => dir ++ lit "/" ++ base;
     canWrite := fun _ => true;
     canUnlink := fun _ => true;
     fsError := fun path =>
       Api.Error (lit "EACCES: permission denied, open '" ++ path ++ lit "'");
     pdfParse := fun _ => None;
     pdfError := fun _ => Api.Error (lit "Invalid PDF structure.");
     decodeUtf8 := fun b => b;
     isoNow := lit "2024-01-01T00:00:00.000Z";
     processEnv :=
       {| History.NEXT_PUBLIC_SUPABASE_URL := Some (lit "https://db.example");
          History.NEXT_PUBLIC_SUPABASE_PUBLISHABLE_KEY := Some (lit "key") |};
     dbInsert := fun _ => Saved (lit "row-1") |}.

(** The same runtime when staged files cannot be removed. *)
Definition stickyEnv : Env :=
  {| tmpdir := tmpdir sampleEnv;
     now := now sampleEnv;
     join := join sampleEnv;
     canWrite := canWrite sampleEnv;
     canUnlink := fun _ => false;
     fsError := fun path =>
       Api.Error (lit "EPERM: operation not permitted, unlink '" ++ path ++ lit "'");
     pdfParse := pdfParse sampleEnv;
     pdfError := pdfError sampleEnv;
     decodeUtf8 := decodeUtf8 sampleEnv;
     isoNow := isoNow sampleEnv;
     processEnv := processEnv sampleEnv;
     dbInsert := dbInsert sampleEnv |}.

Definition emptyWorld : World := {| fs := ∅; console := [] |}.

Definition upload (f : File) : Request :=
  {| file := Some f; userId := Some (lit "user_1") |}.

Definition textFile : File := {| name := lit "report.txt"; bytes := sampleReport |}.
Definition imageFile : File :=
  {| name := lit "scan.PNG"; bytes := [137; 80; 78; 71]%N |}.

End Samples.
(** ** Vocabulary for lines of the form name, colon, numeral, unit *)

(** Nothing, or a first code unit that [p] rejects. *)
Definition headFails (p : N -> bool) (s : jsstring) : bool :=
  match s with
  | [] => true
  | y :: _ => negb (p y)
  end.

(** A non-empty block of members of the class [p]. *)
Definition blockOf (p : N -> bool) (xs : jsstring) : bool :=
  negb (Nat.eqb (List.length xs) 0) && forallb p xs.

(** A decimal numeral: digits, then possibly a point and more digits. *)
Definition decimalText (ip fp : jsstring) : jsstring :=
  ip ++ match fp with [] => [] | _ => 46%N :: fp end.

Definition isDecimal (ip fp : jsstring) : bool :=
  blockOf isDigit ip && forallb isDigit fp.

(** The text of a parenthesized part, nothing for an empty one. *)
Definition parenText (b : jsstring) : jsstring :=
  match b with
  | [] => []
  | _ => 40%N :: b ++ [41%N]
  end.

(** The continuation that ends a match. *)
Definition finish : kont := fun pos' _ c' => Some (pos', c').

(** The shape of the unit of a line: a block of unit characters that does
    not start with a space. *)
Definition unitOk (u : jsstring) : bool :=
  blockOf unitChar u && headFails isSpace u.

(** The line "<name>: <numeral> <unit>". *)
Definition lineOf (n v u : jsstring) : jsstring :=
  n ++ 58%N :: 32%N :: v ++ 32%N :: u.

(** [lang r pos a]: [a] is a text the pattern [r] can consume at index
    [pos]. *)
Inductive lang : regex -> nat -> jsstring -> Prop :=
| lang_eps pos : lang Eps pos []
| lang_bol : lang Bol 0 []
| lang_chr (p : N -> bool) pos x : p x = true -> lang (Chr p) pos [x]
| lang_seq r1 r2 pos a b :
    lang r1 pos a -> lang r2 (pos + List.length a) b -> lang (Seq r1 r2) pos (a ++ b)
| lang_alt_l r1 r2 pos a : lang r1 pos a -> lang (Alt r1 r2) pos a
| lang_alt_r r1 r2 pos a : lang r2 pos a -> lang (Alt r1 r2) pos a
| lang_star_nil r pos : lang (Star r) pos []
| lang_star_cons r pos a b :
    lang r pos a -> lang (Star r) (pos + List.length a) b -> lang (Star r) pos (a ++ b)
| lang_group i r pos a : lang r pos a -> lang (Group i r) pos a.

(** A successful run consumed a text of the pattern and then its
    continuation succeeded on what was left. *)
Definition consumed (r : regex) (pos : nat) (s : jsstring) (k : kont)
  (st : state) : Prop :=
  exists a b c', s = a ++ b /\ lang r pos a /\ k (pos + List.length a) b c' = Some st.

(** A unit character directly followed by white space. *)
Fixpoint hasPair (s : jsstring) : bool :=
  match s with
  | [] => false
  | x :: s' =>
      match s' with
      | [] => false
      | y :: _ => (unitChar x && isSpace y) || hasPair s'
      end
  end.

(** [s] without the prefix [name], compared modulo ASCII case. *)
Fixpoint dropPrefix_ci (name s : jsstring) : option jsstring :=
  match name, s with
  | [], _ => Some s
  | f :: name', x :: s' =>
      if N.eqb (asciiUpper x) (asciiUpper f) then dropPrefix_ci name' s' else None
  | _ :: _, [] => None
  end.

(** The two texts differ, modulo ASCII case, where both have a character. *)
Fixpoint clash (name s : jsstring) : bool :=
  match name, s with
  | f :: name', x :: s' =>
      if N.eqb (asciiUpper x) (asciiUpper f) then clash name' s' else true
  | _, _ => false
  end.

(** The characters of a name the pattern compiler takes literally. *)
Definition literalChar (c : N) : bool :=
  (negb (isSyntaxChar c) && (c <? 128)%N) || (c =? 40)%N || (c =? 41)%N.

(** [re] matches exactly the text [name], modulo ASCII case. *)
Definition literalRun (name : jsstring) (re : regex) : Prop :=
  forall pos s c k,
    run re pos s c k =
      match dropPrefix_ci name s with
      | Some s' => k (pos + List.length name) s' c
      | None => None
      end.

(** A character of a numeral: a digit or the point. *)
Definition numeralChar (x : N) : bool := isDigit x || (x =? 46)%N.

(** The prefix "<name>: " of a line and what follows it. *)
Definition prefixOf (n : jsstring) : jsstring := n ++ [58%N; 32%N].
Definition suffixOf (u : jsstring) : jsstring := 32%N :: u.

(** After the first digit of a number: numeral characters and white space,
    then a unit character. *)
Fixpoint afterNumber (s : jsstring) : bool :=
  match s with
  | [] => false
  | x :: s' => unitChar x || ((numeralChar x || isSpace x) && afterNumber s')
  end.

(** A text in which a number, white space and a unit can start. *)
Definition valueCan (s : jsstring) : bool :=
  match s with
  | [] => false
  | x :: s' => isDigit x && afterNumber s'
  end.

(** After the first character of a name: more name characters, then a
    parenthesis, a colon or a value. *)
Fixpoint afterName (s : jsstring) : bool :=
  match s with
  | [] => false
  | x :: s' =>
      (x =? 40)%N || (x =? 58)%N || valueCan s || (nameChar x && afterName s')
  end.

Definition nameCan (s : jsstring) : bool :=
  match s with
  | [] => false
  | x :: s' => nameChar x && afterName s'
  end.

(** A text in which the first generic pattern can start: a name at the
    start of the line, or white space and a name. *)
Definition pattern1Can (atStart : bool) (s : jsstring) : bool :=
  (atStart && nameCan s)
  || match s with
     | [] => false
     | x :: s' => isSpace x && nameCan s'
     end.

(** No value, and no match of the first generic pattern, starts in the
    name [n] or at the colon after it. *)
Definition valueFree (n : jsstring) : bool :=
  forallb (fun i => negb (valueCan (skipn i n ++ [58%N])))
    (List.seq 0 (S (List.length n))).

Definition pattern1Free (n : jsstring) : bool :=
  forallb (fun i => negb (pattern1Can (Nat.eqb i 0) (skipn i n ++ [58%N])))
    (List.seq 0 (S (List.length n))).

(** The first generic pattern starts nowhere in the text [s], which is not
    at the start of the line. *)
Definition pattern1FreeTail (s : jsstring) : bool :=
  forallb (fun i => negb (pattern1Can false (skipn i s)))
    (List.seq 0 (S (List.length s))).

Definition isNone {A} (o : option A) : bool :=
  match o with None => true | Some _ => false end.

(** The name [F] occurs neither in the prefix of the line of [n], where it
    would have to stop before the numeral, nor in its suffix, and cannot
    start in the numeral. *)
Definition otherNameOk (F n u : jsstring) : bool :=
  forallb (fun i => clash F (skipn i (prefixOf n)))
    (List.seq 0 (List.length (prefixOf n)))
  && isLetter (hd 0%N F)
  && forallb (fun j => isNone (dropPrefix_ci F (skipn j (suffixOf u))))
       (List.seq 0 (S (List.length (suffixOf u)))).

(** The layout of a catalog name: a block of letters and spaces, then
    possibly a parenthesized part. *)
Definition nameBlock (n : jsstring) : jsstring := fst (span nameChar n).
Definition nameParen (n : jsstring) : jsstring :=
  removelast (tl (snd (span nameChar n))).

(** The name is a block of letters and spaces, possibly with a
    parenthesized part: the first generic pattern matches the whole line,
    and the fuzzy lookup of the name ends on the entry itself. *)
Definition namedByPattern1 (n : jsstring) : bool :=
  blockOf nameChar (nameBlock n)
  && forallb notRParen (nameParen n)
  && JsString.eqb n (nameBlock n ++ parenText (nameParen n))
  && JsString.eqb (trim n) n
  && match find (isKnownTest n) values with
     | Some k => JsString.eqb (Range.name k) n
     | None => true
     end.

(** The first generic pattern matches nowhere in the line. *)
Definition missedByPattern1 (n u : jsstring) : bool :=
  pattern1Free n && pattern1FreeTail (suffixOf u).

(** What makes the line of an entry read as written: the layout of its
    name and unit, and no other catalog name in it. *)
Definition entryOk (r : Range.t) : bool :=
  let n := Range.name r in
  let u := Range.unit r in
  valueFree n
  && forallb (fun x => negb (N.eqb x 10)) (n ++ u)
  && unitOk u
  && negb (hasPair (suffixOf u))
  && forallb (fun F => JsString.eqb (Range.name F) n
                       || otherNameOk (Range.name F) n u) values
  && Nat.eqb (List.length
                (filter (fun kv => JsString.eqb (Range.name (snd kv)) n) entries)) 1
  && (namedByPattern1 n || missedByPattern1 n u).

(** The entry whose name holds digits. *)
Definition vitaminB12Range : Range.t :=
  mkRange (dec 200 0) (dec 900 0) "pg/mL" "Vitamin B12".

(** [caught r pos a c c']: the pattern [r] can consume the text [a] at index
    [pos], turning the captures [c] into [c']. *)
Inductive caught : regex -> nat -> jsstring -> captures -> captures -> Prop :=
| caught_eps pos c : caught Eps pos [] c c
| caught_bol c : caught Bol 0 [] c c
| caught_chr (p : N -> bool) pos x c : p x = true -> caught (Chr p) pos [x] c c
| caught_seq r1 r2 pos a b c c1 c2 :
    caught r1 pos a c c1 -> caught r2 (pos + List.length a) b c1 c2 ->
    caught (Seq r1 r2) pos (a ++ b) c c2
| caught_alt_l r1 r2 pos a c c1 :
    caught r1 pos a c c1 -> caught (Alt r1 r2) pos a c c1
| caught_alt_r r1 r2 pos a c c1 :
    caught r2 pos a c c1 -> caught (Alt r1 r2) pos a c c1
| caught_star_nil r pos c : caught (Star r) pos [] c c
| caught_star_cons r pos a b c c1 c2 :
    caught r pos a c c1 -> caught (Star r) (pos + List.length a) b c1 c2 ->
    caught (Star r) pos (a ++ b) c c2
| caught_group i r pos a c c1 :
    caught r pos a c c1 -> caught (Group i r) pos a c ((i, a) :: c1).

(** A successful run caught a text of the pattern, and its continuation
    succeeded on what was left with the captures of that text. *)
Definition ran (r : regex) (pos : nat) (s : jsstring) (c : captures) (k : kont)
  (st : state) : Prop :=
  exists a b c', s = a ++ b /\ caught r pos a c c'
                 /\ k (pos + List.length a) b c' = Some st.

(** A pattern without capture groups. *)
Fixpoint groupFree (r : regex) : bool :=
  match r with
  | Eps | Bol | Chr _ => true
  | Seq r1 r2 | Alt r1 r2 => groupFree r1 && groupFree r2
  | Star r1 => groupFree r1
  | Group _ _ => false
  end.

(** The text of a number group: a digit, then numeral characters. *)
Definition numberText (s : jsstring) : bool :=
  match s with
  | [] => false
  | x :: t => isDigit x && forallb numeralChar t
  end.

(** A number that is not NaN and does not carry a minus sign. *)
Definition nonNegative (x : number) : bool :=
  match x with
  | S754_nan => false
  | S754_zero s | S754_infinity s | S754_finite s _ _ => negb s
  end.

(** The optional sign that [parseFloat] reads first. *)
Definition readSign (s : jsstring) : bool * jsstring :=
  match s with
  | 43%N :: t => (false, t)
  | 45%N :: t => (true, t)
  | _ => (false, s)
  end.

Definition infinity : number := S754_infinity false.

(** The same runtime with another database behind it. *)
Definition withDb (env : Upload.Env) (db : Screening.t -> Upload.InsertOutcome)
  : Upload.Env :=
  {| Upload.tmpdir := Upload.tmpdir env;
     Upload.now := Upload.now env;
     Upload.join := Upload.join env;
     Upload.canWrite := Upload.canWrite env;
     Upload.canUnlink := Upload.canUnlink env;
     Upload.fsError := Upload.fsError env;
     Upload.pdfParse := Upload.pdfParse env;
     Upload.pdfError := Upload.pdfError env;
     Upload.decodeUtf8 := Upload.decodeUtf8 env;
     Upload.isoNow := Upload.isoNow env;
     Upload.processEnv := Upload.processEnv env;
     Upload.dbInsert := db |}.

Definition databaseWarning : jsstring :=
  lit "Results processed but could not be saved to database.".

Definition noValuesResponse (text : jsstring) : Upload.Response :=
  Upload.ErrorResponse 400
    (lit "Could not extract bloodwork values from the file.")
    (Some (lit "Please ensure your file contains readable bloodwork results with test names and values."))
    (Some (firstn 500 text)) None.

(** The text the handler extracts from an upload: of a PDF what the PDF
    library reads, of an image nothing, of any other file its bytes as
    UTF-8. *)
Definition extracted (env : Upload.Env) (f : Upload.File) : option jsstring :=
  if JsString.eqb (Upload.fileExtension f) (lit "pdf")
  then Upload.pdfParse env (Upload.bytes f)
  else if Upload.isImageExtension (Upload.fileExtension f) then None
  else Some (Upload.decodeUtf8 env (Upload.bytes f)).

(** Sample uploads for the edges. *)
Module EdgeSamples.

Import stdpp.base stdpp.gmap.
Import Upload Samples.


Definition noFile : Request := {| file := None; userId := Some (lit "user_1") |}.
Definition noUser : Request := {| file := Some textFile; userId := Some [] |}.
Definition pendingFile : File :=
  {| name := lit "notes.txt"; bytes := lit "Glucose: pending" |}.

(** A runtime whose database refuses every row. *)
Definition refuseAll : Screening.t -> InsertOutcome := fun _ => DbError.

End EdgeSamples.


(** * Properties *)

(** ** Strings and numbers *)

Lemma jsstring_eqb_eq (a b : jsstring) : JsString.eqb a b = true <-> a = b.
Proof.
  unfold JsString.eqb. destruct (list_eq_dec N.eq_dec a b); split; congruence.
Qed.

Lemma jsstring_eqb_refl (a : jsstring) : JsString.eqb a a = true.
Proof. now apply jsstring_eqb_eq. Qed.

Lemma jsstring_eqb_neq (a b : jsstring) : JsString.eqb a b = false <-> a <> b.
Proof.
  unfold JsString.eqb. destruct (list_eq_dec N.eq_dec a b); split; congruence.
Qed.

Lemma forallb_In {A} (f : A -> bool) (l : list A) (x : A) :
  forallb f l = true -> In x l -> f x = true.
Proof. intros H. rewrite forallb_forall in H. auto. Qed.

(** The comparisons of binary64 values form an order: [SFcompare] is the
    lexicographic comparison of sign, exponent and mantissa. *)

Ltac order_cases :=
  repeat match goal with
    | H : context [Pos.compare_cont Eq ?a ?b] |- _ =>
        change (Pos.compare_cont Eq a b) with (Pos.compare a b) in H
    | |- context [Pos.compare_cont Eq ?a ?b] =>
        change (Pos.compare_cont Eq a b) with (Pos.compare a b)
    end;
  repeat match goal with
    | H : context [Z.compare ?a ?b] |- _ => destruct (Z.compare_spec a b)
    | |- context [Z.compare ?a ?b] => destruct (Z.compare_spec a b)
    | H : context [Pos.compare ?a ?b] |- _ => destruct (Pos.compare_spec a b)
    | |- context [Pos.compare ?a ?b] => destruct (Pos.compare_spec a b)
    end;
  simpl in *; try congruence; try lia.

Ltac float_cases x := destruct x as [[|]|[|]| |[|] ? ?].

Lemma ltb_leb_trans (x a b : number) :
  ltb x a = true -> leb a b = true -> ltb x b = true.
Proof.
  unfold ltb, leb, SFltb, SFleb.
  float_cases x; float_cases a; float_cases b; simpl;
    try congruence; order_cases.
Qed.

Lemma leb_ltb_trans (a b x : number) :
  leb a b = true -> ltb b x = true -> ltb a x = true.
Proof.
  unfold ltb, leb, SFltb, SFleb.
  float_cases x; float_cases a; float_cases b; simpl;
    try congruence; order_cases.
Qed.

Lemma leb_not_ltb (a x : number) : leb a x = true -> ltb x a = false.
Proof.
  unfold ltb, leb, SFltb, SFleb.
  float_cases x; float_cases a; simpl; try congruence; order_cases.
Qed.

Lemma ltb_leb (a x : number) : ltb a x = true -> leb a x = true.
Proof.
  unfold ltb, leb, SFltb, SFleb.
  destruct (SFcompare a x) as [[| |]|]; congruence.
Qed.

(** ** Clinical classification *)


(** Every catalog name, its parentheses escaped, is a pattern the RegExp
    constructor accepts. *)
Lemma catalog_names_compile :
  forallb (fun r => match testNameRegex r with Some _ => true | None => false end)
    values = true.
Proof. vm_compute. reflexivity. Qed.

(** In every catalog entry [min * 0.7 <= min <= max <= max * 1.5]. *)
Lemma catalog_ordered : forallb ordered values = true.
Proof. vm_compute. reflexivity. Qed.

Lemma findRange_In (name : jsstring) (range : Range.t) :
  findRange name = Some range -> In range values /\ Range.name range = name.
Proof.
  unfold findRange. intros H. apply find_some in H. destruct H as [Hin Heq].
  split; [exact Hin | now apply jsstring_eqb_eq].
Qed.

Lemma findRange_ordered (name : jsstring) (range : Range.t) :
  findRange name = Some range -> ordered range = true.
Proof.
  intros H. apply findRange_In in H. destruct H as [Hin _].
  exact (@forallb_In _ ordered values range catalog_ordered Hin).
Qed.

Lemma status_of_known (name : jsstring) (value : number) (unit : jsstring)
  (range : Range.t) :
  findRange name = Some range ->
  Analysis.status (analyzeValue name value unit) =
    let nv := normalizedValue range value unit in
    if ltb nv (Range.min range) then
      if ltb nv (lowCut range) then critical else low
    else if gtb nv (Range.max range) then
      if gtb nv (highCut range) then critical else high
    else normal.
Proof.
  unfold analyzeValue. intros ->. cbv zeta.
  fold (lowCut range) (highCut range).
  destruct (ltb _ (Range.min range)); [reflexivity|].
  destruct (gtb _ (Range.max range)); reflexivity.
Qed.


(** C1.  For a measurement whose name has a catalog range [min, max], with
    [nv] the value after unit normalization (the value itself when the
    measurement carries the catalog unit): [nv < min * 0.7] gives critical,
    [min * 0.7 <= nv < min] gives low, [nv > max * 1.5] gives critical,
    [max < nv <= max * 1.5] gives high, [min <= nv <= max] gives normal.  For
    glucose in mg/dL: 69.9 is low, 48.9 critical, 100.1 high, 150.1 critical
    and 85 normal. *)
Theorem C1_classification_thresholds :
  (forall (name : jsstring) (value : number) (unit : jsstring) (range : Range.t),
      findRange name = Some range ->
      let nv := normalizedValue range value unit in
      let st := Analysis.status (analyzeValue name value unit) in
      let min := Range.min range in
      let max := Range.max range in
      (unit = Range.unit range -> nv = value) /\
      (ltb nv (mul min (dec 7 1)) = true -> st = critical) /\
      (leb (mul min (dec 7 1)) nv = true -> ltb nv min = true -> st = low) /\
      (gtb nv (mul max (dec 15 1)) = true -> st = critical) /\
      (gtb nv max = true -> leb nv (mul max (dec 15 1)) = true -> st = high) /\
      (leb min nv = true -> leb nv max = true -> st = normal)) /\
  (option_map (fun r => (Range.min r, Range.max r, Range.unit r))
     (findRange glucoseName) = Some (dec 70 0, dec 100 0, lit "mg/dL") /\
   statusOf glucoseName (dec 699 1) (lit "mg/dL") = low /\
   statusOf glucoseName (dec 489 1) (lit "mg/dL") = critical /\
   statusOf glucoseName (dec 1001 1) (lit "mg/dL") = high /\
   statusOf glucoseName (dec 1501 1) (lit "mg/dL") = critical /\
   statusOf glucoseName (dec 85 0) (lit "mg/dL") = normal).
Proof.
  split; [| vm_compute; repeat split; reflexivity].
  intros name value unit range Hfind nv st lo hi.
  pose proof (@findRange_ordered name range Hfind) as Hord.
  unfold ordered in Hord. apply andb_prop in Hord. destruct Hord as [Hord H3].
  apply andb_prop in Hord. destruct Hord as [H1 H2].
  pose proof (@status_of_known name value unit range Hfind) as Hst.
  cbv zeta in Hst. fold nv st lo hi in Hst. fold lo hi in H1, H2, H3.
  unfold lowCut, highCut in *. fold lo hi in H1, H3, Hst.
  split.
  { intros ->. subst nv. unfold normalizedValue.
    now rewrite jsstring_eqb_refl. }
  clearbody nv st lo hi. unfold gtb in *.
  repeat split.
  - intros Hc. rewrite Hst, (@ltb_leb_trans nv _ _ Hc H1), Hc. reflexivity.
  - intros Hge Hlt. rewrite Hst, Hlt, (@leb_not_ltb _ _ Hge). reflexivity.
  - intros Hc.
    assert (Hgt : ltb hi nv = true) by (eapply leb_ltb_trans; eauto).
    assert (Hlo : ltb nv lo = false)
      by (apply leb_not_ltb, ltb_leb; eapply leb_ltb_trans; eauto).
    rewrite Hst, Hlo, Hgt, Hc. reflexivity.
  - intros Hgt Hle.
    assert (Hlo : ltb nv lo = false)
      by (apply leb_not_ltb, ltb_leb; eapply leb_ltb_trans; eauto).
    rewrite Hst, Hlo, Hgt, (@leb_not_ltb _ _ Hle). reflexivity.
  - intros Hge Hle.
    rewrite Hst, (@leb_not_ltb _ _ Hge), (@leb_not_ltb _ _ Hle). reflexivity.
Qed.

Lemma C1_classification_thresholds_witness :
  findRange (lit "Hemoglobin")
    = Some (mkRange (dec 12 0) (dec 175 1) "g/dL" "Hemoglobin") /\
  Analysis.status (analyzeValue (lit "Hemoglobin") (dec 8 0) (lit "g/dL")) = critical.
Proof.
  assert (Hf : findRange (lit "Hemoglobin")
               = Some (mkRange (dec 12 0) (dec 175 1) "g/dL" "Hemoglobin"))
    by (vm_compute; reflexivity).
  split; [exact Hf|].
  destruct (proj1 C1_classification_thresholds
              (lit "Hemoglobin") (dec 8 0) (lit "g/dL") _ Hf) as (_ & Hcrit & _).
  apply Hcrit. vm_compute. reflexivity.
Defined.

Lemma find_none_of_all {A} (f : A -> bool) (l : list A) :
  (forall x, In x l -> f x = false) -> find f l = None.
Proof.
  induction l as [|x l IH]; intros H; [reflexivity|].
  simpl. rewrite (H x (or_introl eq_refl)). apply IH.
  intros y Hy. apply H. now right.
Qed.


(** C8.  A measurement whose name is the display name of no catalog entry is
    classified normal, with range "Unknown" and the generic explanation,
    whatever its value and unit. *)
Theorem C8_unknown_name :
  forall (name : jsstring) (value : number) (unit : jsstring),
    (forall r, In r values -> Range.name r <> name) ->
    findRange name = None /\
    analyzeValue name value unit = unknownAnalysis.
Proof.
  intros name value unit Hnone.
  assert (Hf : findRange name = None).
  { unfold findRange. apply find_none_of_all.
    intros r Hr. apply jsstring_eqb_neq. now apply Hnone. }
  split; [exact Hf|]. unfold analyzeValue. rewrite Hf. reflexivity.
Qed.

Lemma C8_unknown_name_witness :
  analyzeValue (lit "Sodium") (dec 9999 0) (lit "mEq/L") = unknownAnalysis.
Proof.
  apply (@C8_unknown_name (lit "Sodium") (dec 9999 0) (lit "mEq/L")).
  intros r Hr.
  assert (Hall : forallb (fun r => negb (JsString.eqb (Range.name r) (lit "Sodium")))
                   values = true) by (vm_compute; reflexivity).
  pose proof (@forallb_In _ _ values r Hall Hr) as Hne.
  apply jsstring_eqb_neq. now apply negb_true_iff in Hne.
Defined.

(** *** Unit normalization *)

(** What [normalizedValue] computes: eighteen times the value when the
    units differ, the catalog unit is mg/dL and the measurement's unit
    contains "mmol" in any letter case; the value itself otherwise. *)
Lemma normalizedValue_cases (range : Range.t) (value : number) (unit : jsstring) :
  normalizedValue range value unit =
    if JsString.eqb (Range.unit range) (lit "mg/dL")
       && includes (toLowerCase unit) (lit "mmol")
    then mul value (dec 18 0) else value.
Proof.
  unfold normalizedValue.
  destruct (JsString.eqb unit (Range.unit range)) eqn:E; cbv [negb];
    [|reflexivity].
  apply jsstring_eqb_eq in E. subst unit.
  destruct (JsString.eqb (Range.unit range) (lit "mg/dL")) eqn:E2;
    [|reflexivity].
  apply jsstring_eqb_eq in E2. rewrite E2.
  assert (Hno : includes (toLowerCase (lit "mg/dL")) (lit "mmol") = false)
    by (vm_compute; reflexivity).
  rewrite Hno. reflexivity.
Qed.


(** C3, at the input where the code departs from it.  Glucose at 5 mmol/L
    is read as 90 mg/dL and is normal; but the factor 18 is applied to every
    entry whose catalog unit is mg/dL, not to glucose only: Total Cholesterol
    at 12 mmol/L is compared as 216 and comes out high, where the raw 12 is
    inside the range 0-200. *)
Theorem C3_factor_18_beyond_glucose :
  findRange glucoseName = Some glucoseRange /\
  normalizedValue glucoseRange (dec 5 0) (lit "mmol/L") = dec 90 0 /\
  statusOf glucoseName (dec 5 0) (lit "mmol/L") = normal /\
  findRange (lit "Total Cholesterol") = Some cholesterolRange /\
  normalizedValue cholesterolRange (dec 12 0) (lit "mmol/L") = dec 216 0 /\
  statusOf (lit "Total Cholesterol") (dec 12 0) (lit "mmol/L") = high /\
  statusOf (lit "Total Cholesterol") (dec 12 0) (lit "mg/dL") = normal.
Proof. vm_compute. repeat split; reflexivity. Qed.

(** ** Value extraction on concrete lines *)


(** C2, at the inputs where the code departs from it.  The unit class of
    the patterns has no Greek mu, which five catalog units contain: the line
    for Iron in its catalog unit yields no measurement at all, the line for
    White Blood Cell Count yields a measurement whose unit is cut to "K/".
    The line for Hemoglobin yields the measurement the claim describes, and
    at the values 120 and 7.25 so does the line of every catalog entry whose
    unit has no mu, and of no other. *)
Theorem C2_units_with_mu_are_lost :
  parseBloodworkText (lit "Iron: 100 μg/dL") = [] /\
  parseBloodworkText (lit "White Blood Cell Count: 7.5 K/μL")
    = [parsed "White Blood Cell Count" (dec 75 1) "K/"] /\
  parseBloodworkText (lit "Hemoglobin: 13.5 g/dL")
    = [parsed "Hemoglobin" (dec 135 1) "g/dL"] /\
  (forall v, In v [lit "120"; lit "7.25"] ->
     map (fun r => extractedAsWritten r v) values
     = map (fun r => negb (unitHasMu r)) values) /\
  List.length (filter unitHasMu values) = 5.
Proof.
  split; [vm_compute; reflexivity|].
  split; [vm_compute; reflexivity|].
  split; [vm_compute; reflexivity|].
  split; [|vm_compute; reflexivity].
  intros v [<-|[<-|[]]]; vm_compute; reflexivity.
Qed.

(** The order "95 mg/dL Glucose" that the second generic pattern is written
    for yields nothing: its groups are read in the order of the first
    pattern, so the value is parsed from the unit text and is NaN. *)
Example number_unit_name_line :
  parseBloodworkText (lit "95 mg/dL Glucose") = [] /\
  parseBloodworkText (lit "Glucose 95 mg/dL")
    = [parsed "Glucose (Fasting)" (dec 95 0) "mg/dL"].
Proof. vm_compute. split; reflexivity. Qed.

(** ** Summary synthesis *)


Lemma status_eqb_eq (a b : status) : status_eqb a b = true <-> a = b.
Proof. destruct a, b; simpl; split; congruence. Qed.

Lemma length_filter_hasStatus (st : status) (vs : list Analyzed.t) :
  List.length (filter (hasStatus st) vs) = count st vs.
Proof.
  unfold count, hasStatus. induction vs as [|v vs IH]; [reflexivity|].
  cbn [filter map count_occ].
  destruct (status_eq_dec (Analyzed.status v) st) as [->|Hne].
  - replace (status_eqb st st) with true
      by (symmetry; now apply status_eqb_eq).
    cbn [List.length]. now rewrite IH.
  - replace (status_eqb (Analyzed.status v) st) with false; [exact IH|].
    symmetry. apply not_true_is_false. intros H. now apply status_eqb_eq in H.
Qed.

Lemma length_filter_flagged (vs : list Analyzed.t) :
  List.length (filter (fun v => negb (hasStatus normal v)) vs)
  = count critical vs + count high vs + count low vs.
Proof.
  unfold count, hasStatus. induction vs as [|v vs IH]; [reflexivity|].
  cbn [filter map count_occ]. destruct (Analyzed.status v); cbn.
  - exact IH.
  - rewrite IH. lia.
  - rewrite IH. lia.
  - rewrite IH. lia.
Qed.


(** [generateSummary] written over the three counts. *)
Lemma generateSummary_counts (vs : list Analyzed.t) :
  generateSummary vs =
    let c := count critical vs in
    let h := count high vs in
    let l := count low vs in
    let '(summary, recommendations) :=
      if Nat.ltb 0 c then (criticalSummary c, criticalRecommendations)
      else if Nat.ltb 0 h || Nat.ltb 0 l then
        (flaggedSummary (c + h + l)
         ++ (if Nat.ltb 0 h then elevatedSentence h else [])
         ++ (if Nat.ltb 0 l then lowSentence l else []),
         flaggedRecommendations)
      else (normalSummary, normalRecommendations) in
    (summary ++ closingSentence, recommendations).
Proof.
  unfold generateSummary.
  rewrite !length_filter_hasStatus, length_filter_flagged. reflexivity.
Qed.




(** ** Deduplication *)


Section FindIndex.
Context {A : Type} (p : A -> bool).

Lemma findIndex_from_skip (pre suf : list A) (i : Z) :
  existsb p pre = false ->
  findIndex_from p i (pre ++ suf)
  = findIndex_from p (i + Z.of_nat (List.length pre)) suf.
Proof.
  revert i. induction pre as [|x pre IH]; intros i H.
  - simpl. f_equal. lia.
  - simpl in H. apply orb_false_iff in H. destruct H as [Hx Hpre].
    simpl app. cbn [findIndex_from]. rewrite Hx, (IH (i + 1)%Z Hpre).
    f_equal. cbn [List.length]. lia.
Qed.

Lemma findIndex_from_hit (pre suf : list A) (i : Z) :
  existsb p pre = true ->
  (i <= findIndex_from p i (pre ++ suf) < i + Z.of_nat (List.length pre))%Z.
Proof.
  revert i. induction pre as [|x pre IH]; intros i H; [discriminate|].
  simpl app. cbn [findIndex_from List.length].
  destruct (p x) eqn:Hx; [lia|].
  simpl in H. rewrite Hx in H. simpl in H.
  specialize (IH (i + 1)%Z H). lia.
Qed.
End FindIndex.

Lemma named_sym (a b : Parsed.t) :
  named (Parsed.name a) b = JsString.eqb (Parsed.name a) (Parsed.name b).
Proof.
  unfold named.
  destruct (JsString.eqb (Parsed.name a) (Parsed.name b)) eqn:E.
  - apply jsstring_eqb_eq in E. rewrite E. apply jsstring_eqb_refl.
  - apply jsstring_eqb_neq. apply jsstring_eqb_neq in E. congruence.
Qed.


Lemma filter_from_firstOfEachName (pre suf : list Parsed.t) (seen : list jsstring) :
  (forall x, existsb (JsString.eqb (Parsed.name x)) seen
             = existsb (named (Parsed.name x)) pre) ->
  filter_from keepFirst (pre ++ suf) (Z.of_nat (List.length pre)) suf
  = firstOfEachName seen suf.
Proof.
  revert pre seen. induction suf as [|x suf IH]; intros pre seen Hseen;
    [reflexivity|].
  cbn [filter_from firstOfEachName].
  assert (Hnext : (Z.of_nat (List.length pre) + 1
                   = Z.of_nat (List.length (pre ++ [x])))%Z)
    by (rewrite length_app; cbn [List.length]; lia).
  assert (Hself : pre ++ x :: suf = (pre ++ [x]) ++ suf)
    by (now rewrite <- app_assoc).
  rewrite (Hseen x).
  unfold keepFirst at 1. unfold findIndex.
  change (fun r => JsString.eqb (Parsed.name r) (Parsed.name x))
    with (named (Parsed.name x)).
  destruct (existsb (named (Parsed.name x)) pre) eqn:Hex.
  - pose proof (@findIndex_from_hit _ (named (Parsed.name x)) pre (x :: suf) 0%Z Hex)
      as Hlt.
    replace (Z.eqb _ _) with false by (symmetry; apply Z.eqb_neq; lia).
    rewrite Hnext, Hself. apply IH.
    intros y. rewrite (Hseen y), existsb_app. cbn [existsb].
    rewrite orb_false_r.
    destruct (named (Parsed.name y) x) eqn:Hyx; [|now rewrite orb_false_r].
    rewrite orb_true_r. unfold named in Hyx. apply jsstring_eqb_eq in Hyx.
    rewrite <- Hyx. exact Hex.
  - rewrite (@findIndex_from_skip _ (named (Parsed.name x)) pre (x :: suf) 0%Z Hex).
    cbn [findIndex_from]. unfold named at 1. rewrite jsstring_eqb_refl.
    replace (Z.eqb _ _) with true by (symmetry; apply Z.eqb_eq; lia).
    f_equal. rewrite Hnext, Hself. apply IH.
    intros y. rewrite existsb_app. cbn [existsb]. rewrite orb_false_r.
    rewrite (Hseen y). rewrite named_sym. apply orb_comm.
Qed.

(** The code's filter is the specification's rule. *)
Lemma uniqueResults_firstOfEachName (results : list Parsed.t) :
  uniqueResults results = firstOfEachName [] results.
Proof.
  unfold uniqueResults, filter_indexed.
  exact (@filter_from_firstOfEachName [] results [] (fun _ => eq_refl)).
Qed.

Lemma firstOfEachName_subsequence (seen : list jsstring) (l : list Parsed.t) :
  Subsequence (firstOfEachName seen l) l.
Proof.
  revert seen. induction l as [|x l IH]; intros seen; [constructor|].
  cbn [firstOfEachName].
  destruct (existsb _ seen); [apply sub_skip | apply sub_keep]; apply IH.
Qed.

Lemma Subsequence_In {A} (out l : list A) (x : A) :
  Subsequence out l -> In x out -> In x l.
Proof.
  induction 1 as [|y out l _ IH|y out l _ IH]; intros Hin.
  - exact Hin.
  - destruct Hin as [->|Hin]; [now left | right; now apply IH].
  - right. now apply IH.
Qed.

Lemma firstOfEachName_fresh (seen : list jsstring) (l : list Parsed.t) (x : Parsed.t) :
  In x (firstOfEachName seen l) ->
  existsb (JsString.eqb (Parsed.name x)) seen = false.
Proof.
  revert seen. induction l as [|y l IH]; intros seen Hin; [destruct Hin|].
  cbn [firstOfEachName] in Hin.
  destruct (existsb (JsString.eqb (Parsed.name y)) seen) eqn:Hy.
  - now apply IH.
  - destruct Hin as [->|Hin]; [exact Hy|].
    apply IH in Hin. cbn [existsb] in Hin. now apply orb_false_iff in Hin.
Qed.

Lemma firstOfEachName_NoDup (seen : list jsstring) (l : list Parsed.t) :
  NoDup (map Parsed.name (firstOfEachName seen l)).
Proof.
  revert seen. induction l as [|x l IH]; intros seen; [constructor|].
  cbn [firstOfEachName].
  destruct (existsb (JsString.eqb (Parsed.name x)) seen); [apply IH|].
  cbn [map]. constructor; [|apply IH].
  intros Hin. apply in_map_iff in Hin. destruct Hin as (y & Hname & Hy).
  apply firstOfEachName_fresh in Hy. cbn [existsb] in Hy.
  apply orb_false_iff in Hy. destruct Hy as [Hy _].
  rewrite Hname, jsstring_eqb_refl in Hy. discriminate.
Qed.

Lemma firstOfEachName_find (seen : list jsstring) (l : list Parsed.t) (n : jsstring) :
  existsb (JsString.eqb n) seen = false ->
  find (named n) (firstOfEachName seen l) = find (named n) l.
Proof.
  revert seen. induction l as [|x l IH]; intros seen Hn; [reflexivity|].
  cbn [firstOfEachName find].
  destruct (named n x) eqn:Hx.
  - pose proof Hx as Hname. unfold named in Hname.
    apply jsstring_eqb_eq in Hname. rewrite Hname, Hn.
    cbn [find]. now rewrite Hx.
  - destruct (existsb (JsString.eqb (Parsed.name x)) seen); [now apply IH|].
    cbn [find]. rewrite Hx. apply IH. cbn [existsb]. rewrite Hn.
    apply orb_false_iff. split; [|reflexivity].
    apply jsstring_eqb_neq. unfold named in Hx. apply jsstring_eqb_neq in Hx.
    congruence.
Qed.


(** C4.  For every text the output is the first measurement of each
    distinct display name among those collected, in first-seen order: it is
    the specification's rule applied to the collected measurements, it keeps
    their order, no name occurs twice, and the measurement kept for a name is
    the first one collected for it.  Two lines for Hemoglobin with the values
    14 and 9 leave the 14 alone. *)
Theorem C4_first_measurement_per_name :
  forall text : jsstring,
    let results := collect text in
    let out := parseBloodworkText text in
    out = firstOfEachName [] results /\
    Subsequence out results /\
    NoDup (map Parsed.name out) /\
    (forall n, find (named n) out = find (named n) results) /\
    parseBloodworkText twoHemoglobinLines = [parsed "Hemoglobin" (dec 14 0) "g/dL"].
Proof.
  intros text results out.
  assert (Hout : out = firstOfEachName [] results)
    by (apply uniqueResults_firstOfEachName).
  split; [exact Hout|]. rewrite Hout. clear Hout out.
  split; [apply firstOfEachName_subsequence|].
  split; [apply firstOfEachName_NoDup|].
  split; [intros n; now apply firstOfEachName_find|].
  vm_compute. reflexivity.
Qed.
(** ** Regular expressions on a line of known shape *)

Section Greedy.

Variable p : N -> bool.

Lemma run_chr_cons (x : N) (s : jsstring) (pos : nat) (c : captures) (k : kont) :
  run (Chr p) pos (x :: s) c k = if p x then k (S pos) s c else None.
Proof. reflexivity. Qed.

Lemma run_chr_headFails (s : jsstring) (pos : nat) (c : captures) (k : kont) :
  headFails p s = true -> run (Chr p) pos s c k = None.
Proof.
  destruct s as [|y s]; [reflexivity|]. cbn [headFails run].
  intros H. apply negb_true_iff in H. now rewrite H.
Qed.

(** A greedy repetition of one class over a block [xs] of its members,
    followed by something outside the class: when the rest of the pattern
    succeeds after the whole block, that is the result. *)
Lemma star_loop_greedy (k : kont) (xs rest : jsstring) (st : state) :
  forallb p xs = true ->
  headFails p rest = true ->
  forall (fuel pos : nat) (c : captures),
    List.length xs <= fuel ->
    k (pos + List.length xs) rest c = Some st ->
    star_loop (run (Chr p)) k fuel pos (xs ++ rest) c = Some st.
Proof.
  intros Hxs Hrest. induction xs as [|x xs IH]; intros fuel pos c Hfuel Hk.
  - cbn [List.length] in Hk. rewrite Nat.add_0_r in Hk. cbn [app].
    destruct fuel as [|fuel]; cbn [star_loop]; [exact Hk|].
    now rewrite (run_chr_headFails _ _ _ _ Hrest).
  - cbn [forallb] in Hxs. apply andb_prop in Hxs. destruct Hxs as [Hx Hxs].
    destruct fuel as [|fuel]; [cbn [List.length] in Hfuel; lia|].
    cbn [star_loop app]. rewrite run_chr_cons, Hx.
    replace (Nat.ltb pos (S pos)) with true
      by (symmetry; apply Nat.ltb_lt; lia).
    rewrite (IH Hxs fuel (S pos) c); [reflexivity | |].
    + cbn [List.length] in Hfuel. lia.
    + cbn [List.length] in Hk. now rewrite Nat.add_succ_comm.
Qed.

Lemma run_star_greedy (k : kont) (xs rest : jsstring) (st : state)
  (pos : nat) (c : captures) :
  forallb p xs = true ->
  headFails p rest = true ->
  k (pos + List.length xs) rest c = Some st ->
  run (Star (Chr p)) pos (xs ++ rest) c k = Some st.
Proof.
  intros Hxs Hrest Hk.
  change (run (Star (Chr p)) ?pos ?s ?c ?k)
    with (star_loop (run (Chr p)) k (List.length s) pos s c).
  apply star_loop_greedy; try assumption.
  rewrite length_app. lia.
Qed.

Lemma run_plus_greedy (k : kont) (xs rest : jsstring) (st : state)
  (pos : nat) (c : captures) :
  blockOf p xs = true ->
  headFails p rest = true ->
  k (pos + List.length xs) rest c = Some st ->
  run (Plus (Chr p)) pos (xs ++ rest) c k = Some st.
Proof.
  intros Hxs Hrest Hk. unfold blockOf in Hxs.
  apply andb_prop in Hxs. destruct Hxs as [Hne Hxs].
  destruct xs as [|x xs]; [discriminate|]. cbn [forallb] in Hxs.
  apply andb_prop in Hxs. destruct Hxs as [Hx Hxs].
  unfold Plus. cbn [app]. change (run (Seq ?a ?b) ?pos ?s ?c ?k)
    with (run a pos s c (fun pos' s' c' => run b pos' s' c' k)).
  rewrite run_chr_cons, Hx.
  change (run (Star (Chr p)) ?pos ?s ?c ?k)
    with (star_loop (run (Chr p)) k (List.length s) pos s c).
  apply star_loop_greedy; try assumption.
  - rewrite length_app. lia.
  - cbn [List.length] in Hk. now rewrite Nat.add_succ_comm.
Qed.

Lemma run_opt_skip (s : jsstring) (pos : nat) (c : captures) (k : kont) :
  headFails p s = true -> run (Opt (Chr p)) pos s c k = k pos s c.
Proof.
  intros H. unfold Opt.
  change (run (Alt ?a ?b) ?pos ?s ?c ?k)
    with (match run a pos s c k with
          | Some st => Some st
          | None => run b pos s c k
          end).
  now rewrite (run_chr_headFails _ _ _ _ H).
Qed.

Lemma run_opt_take (x : N) (s : jsstring) (pos : nat) (c : captures)
  (k : kont) (st : state) :
  p x = true -> k (S pos) s c = Some st ->
  run (Opt (Chr p)) pos (x :: s) c k = Some st.
Proof. intros Hx Hk. unfold Opt. cbn [run]. now rewrite Hx, Hk. Qed.

End Greedy.

(** *** The groups of the patterns on blocks of their classes *)

Lemma run_seq (r1 r2 : regex) (pos : nat) (s : jsstring) (c : captures) (k : kont) :
  run (Seq r1 r2) pos s c k
  = run r1 pos s c (fun pos' s' c' => run r2 pos' s' c' k).
Proof. reflexivity. Qed.

Lemma run_group (i : nat) (r : regex) (pos : nat) (s : jsstring) (c : captures)
  (k : kont) :
  run (Group i r) pos s c k
  = run r pos s c (fun pos' s' c' => k pos' s' ((i, firstn (pos' - pos) s) :: c')).
Proof. reflexivity. Qed.

Lemma firstn_consumed (pos n : nat) (a b : jsstring) :
  n = List.length a -> firstn (pos + n - pos) (a ++ b) = a.
Proof.
  intros ->. replace (pos + List.length a - pos) with (List.length a + 0) by lia.
  rewrite firstn_app_2. cbn [firstn]. apply app_nil_r.
Qed.

(** The number group takes the whole numeral when what follows it is
    neither a digit nor a point. *)
Lemma run_numberGroup (i : nat) (ip fp rest : jsstring) (pos : nat)
  (c : captures) (k : kont) (st : state) :
  isDecimal ip fp = true ->
  headFails isDigit rest = true ->
  headFails (isChar ".") rest = true ->
  k (pos + List.length (decimalText ip fp)) rest ((i, decimalText ip fp) :: c)
  = Some st ->
  run (numberGroup i) pos (decimalText ip fp ++ rest) c k = Some st.
Proof.
  intros Hdec Hdigit Hdot Hk.
  unfold isDecimal in Hdec. apply andb_prop in Hdec. destruct Hdec as [Hip Hfp].
  unfold numberGroup, seq. cbn [fold_right]. rewrite run_group, run_seq.
  unfold decimalText in *. rewrite <- app_assoc.
  destruct fp as [|e fp].
  - rewrite app_nil_r in Hk. rewrite app_nil_l.
    apply run_plus_greedy; [exact Hip | exact Hdigit |].
    rewrite run_seq, (run_opt_skip _ _ _ _ _ Hdot).
    rewrite run_seq.
    apply (@run_star_greedy isDigit _ [] rest); [reflexivity | exact Hdigit |].
    cbn [run]. change (List.length (@nil N)) with 0. rewrite Nat.add_0_r.
    rewrite firstn_consumed by reflexivity. exact Hk.
  - remember (e :: fp) as fq eqn:Efq.
    change ((46%N :: fq) ++ rest) with (46%N :: (fq ++ rest)).
    apply run_plus_greedy; [exact Hip | reflexivity |].
    rewrite run_seq.
    apply run_opt_take; [reflexivity|].
    rewrite run_seq.
    apply run_star_greedy; [exact Hfp | exact Hdigit |].
    cbn [run].
    replace (S (pos + List.length ip) + List.length fq)
      with (pos + List.length (ip ++ 46%N :: fq))
      by (rewrite length_app; cbn [List.length]; lia).
    change (ip ++ 46%N :: fq ++ rest) with (ip ++ (46%N :: fq) ++ rest).
    rewrite app_assoc, firstn_consumed by reflexivity. exact Hk.
Qed.

(** The unit group takes a whole block of unit characters. *)
Lemma run_unitGroup (i : nat) (u rest : jsstring) (pos : nat) (c : captures)
  (k : kont) (st : state) :
  blockOf unitChar u = true ->
  headFails unitChar rest = true ->
  k (pos + List.length u) rest ((i, u) :: c) = Some st ->
  run (unitGroup i) pos (u ++ rest) c k = Some st.
Proof.
  intros Hu Hrest Hk. unfold unitGroup. rewrite run_group.
  apply run_plus_greedy; [exact Hu | exact Hrest |].
  rewrite firstn_consumed by reflexivity. exact Hk.
Qed.

Lemma run_alt_left (r1 r2 : regex) (pos : nat) (s : jsstring) (c : captures)
  (k : kont) (st : state) :
  run r1 pos s c k = Some st -> run (Alt r1 r2) pos s c k = Some st.
Proof. intros H. cbn [run]. now rewrite H. Qed.

Lemma run_alt_right (r1 r2 : regex) (pos : nat) (s : jsstring) (c : captures)
  (k : kont) :
  run r1 pos s c k = None -> run (Alt r1 r2) pos s c k = run r2 pos s c k.
Proof. intros H. cbn [run]. now rewrite H. Qed.

Lemma run_chr_take (p : N -> bool) (x : N) (s : jsstring) (pos : nat)
  (c : captures) (k : kont) (st : state) :
  p x = true -> k (S pos) s c = Some st -> run (Chr p) pos (x :: s) c k = Some st.
Proof. intros Hx Hk. cbn [run]. now rewrite Hx. Qed.

(** The name group takes a block of letters and spaces and a
    parenthesized part after it. *)
Lemma run_nameGroup (i : nat) (a b rest : jsstring) (pos : nat) (c : captures)
  (k : kont) (st : state) :
  blockOf nameChar a = true ->
  forallb notRParen b = true ->
  headFails nameChar (parenText b ++ rest) = true ->
  (b = [] -> headFails (isChar "(") rest = true) ->
  k (pos + List.length (a ++ parenText b)) rest ((i, a ++ parenText b) :: c)
  = Some st ->
  run (nameGroup i) pos ((a ++ parenText b) ++ rest) c k = Some st.
Proof.
  intros Ha Hb Hhead Hopen Hk.
  unfold nameGroup, seq. cbn [fold_right]. rewrite run_group, run_seq.
  rewrite <- app_assoc.
  apply run_plus_greedy; [exact Ha | exact Hhead |].
  rewrite run_seq. unfold Opt.
  destruct b as [|y b].
  - cbn [parenText app] in *. rewrite app_nil_r in Hk.
    rewrite run_alt_right.
    + cbn [run]. rewrite firstn_consumed by reflexivity. exact Hk.
    + rewrite run_seq. apply run_chr_headFails. now apply Hopen.
  - remember (y :: b) as bq eqn:Ebq.
    assert (Hbq : blockOf notRParen bq = true)
      by (unfold blockOf; rewrite Hb, Ebq; reflexivity).
    assert (Hpar : parenText bq = 40%N :: bq ++ [41%N]) by (now rewrite Ebq).
    rewrite Hpar in *. clear Hpar.
    change ((40%N :: bq ++ [41%N]) ++ rest) with (40%N :: ((bq ++ [41%N]) ++ rest)).
    rewrite <- app_assoc.
    apply run_alt_left. rewrite run_seq.
    apply run_chr_take; [reflexivity|].
    rewrite run_seq.
    apply run_plus_greedy; [exact Hbq | reflexivity |].
    rewrite run_seq. cbn [app].
    apply run_chr_take; [reflexivity|].
    cbn [run].
    replace (S (S (pos + List.length a) + List.length bq))
      with (pos + List.length (a ++ 40%N :: bq ++ [41%N]))
      by (rewrite !length_app; cbn [List.length]; rewrite length_app;
          cbn [List.length]; lia).
    replace (a ++ 40%N :: bq ++ 41%N :: rest)
      with ((a ++ 40%N :: bq ++ [41%N]) ++ rest)
      by (rewrite <- !app_assoc; cbn [app]; rewrite <- app_assoc; reflexivity).
    rewrite firstn_consumed by reflexivity. exact Hk.
Qed.

Lemma digit_cases (x : N) :
  isDigit x = true ->
  In x [48; 49; 50; 51; 52; 53; 54; 55; 56; 57]%N.
Proof.
  unfold isDigit. intros H. apply andb_prop in H. destruct H as [H1 H2].
  apply N.leb_le in H1, H2. cbn [In]. lia.
Qed.

Ltac by_digit_cases H :=
  apply digit_cases in H; cbn [In] in H;
  repeat (destruct H as [<- | H]; [reflexivity|]); destruct H.

Lemma digit_not_space (x : N) : isDigit x = true -> isSpace x = false.
Proof. intros H. by_digit_cases H. Qed.

Lemma digit_not_unitChar (x : N) : isDigit x = true -> unitChar x = false.
Proof. intros H. by_digit_cases H. Qed.

Lemma digit_not_nameChar (x : N) : isDigit x = true -> nameChar x = false.
Proof. intros H. by_digit_cases H. Qed.

Lemma decimalText_head (ip fp rest : jsstring) :
  isDecimal ip fp = true ->
  exists d tl, decimalText ip fp ++ rest = d :: tl /\ isDigit d = true.
Proof.
  unfold isDecimal, blockOf, decimalText. intros H.
  apply andb_prop in H. destruct H as [H _].
  apply andb_prop in H. destruct H as [Hne Hip].
  destruct ip as [|d ds]; [discriminate|]. cbn [forallb] in Hip.
  apply andb_prop in Hip. destruct Hip as [Hd _].
  exists d. eexists. split; [reflexivity | exact Hd].
Qed.

Lemma decimalText_headFails_space (ip fp rest : jsstring) :
  isDecimal ip fp = true -> headFails isSpace (decimalText ip fp ++ rest) = true.
Proof.
  intros H. destruct (decimalText_head _ _ rest H) as (d & tl & -> & Hd).
  cbn [headFails]. now rewrite (digit_not_space _ Hd).
Qed.

(** The value pattern at the numeral of "<numeral> <unit>". *)
Lemma run_valuePattern (ip fp u : jsstring) (pos : nat) :
  isDecimal ip fp = true ->
  unitOk u = true ->
  let v := decimalText ip fp in
  run valuePattern pos (v ++ 32%N :: u) [] finish
  = Some (pos + List.length v + 1 + List.length u, [(2, u); (1, v)]).
Proof.
  intros Hv Hu v. unfold unitOk in Hu. apply andb_prop in Hu.
  destruct Hu as [Hu Hsp].
  unfold valuePattern, seq. cbn [fold_right]. rewrite run_seq.
  apply run_numberGroup; [exact Hv | reflexivity | reflexivity |].
  rewrite run_seq. fold v.
  apply (@run_star_greedy isSpace _ [32%N] u); [reflexivity | exact Hsp |].
  rewrite run_seq.
  rewrite <- (app_nil_r u) at 1.
  apply run_unitGroup; [exact Hu | reflexivity |].
  cbn [run List.length]. reflexivity.
Qed.

Lemma run_star_skip (p : N -> bool) (s : jsstring) (pos : nat) (c : captures)
  (k : kont) :
  headFails p s = true -> run (Star (Chr p)) pos s c k = k pos s c.
Proof.
  intros H.
  change (run (Star (Chr p)) pos s c k)
    with (star_loop (run (Chr p)) k (List.length s) pos s c).
  destruct (List.length s); cbn [star_loop]; [reflexivity|].
  now rewrite (run_chr_headFails _ _ _ _ _ H).
Qed.

Lemma run_bol_start (s : jsstring) (c : captures) (k : kont) :
  run Bol 0 s c k = k 0 s c.
Proof. reflexivity. Qed.

Lemma length_lineOf (n v u : jsstring) :
  List.length (lineOf n v u)
  = List.length n + 2 + List.length v + 1 + List.length u.
Proof.
  unfold lineOf. rewrite length_app. cbn [List.length].
  rewrite length_app. cbn [List.length]. lia.
Qed.

(** The first generic pattern reads the whole line from its start. *)
Lemma run_pattern1 (a b ip fp u : jsstring) :
  blockOf nameChar a = true ->
  forallb notRParen b = true ->
  isDecimal ip fp = true ->
  unitOk u = true ->
  let n := a ++ parenText b in
  let v := decimalText ip fp in
  run pattern1 0 (lineOf n v u) [] finish
  = Some (List.length (lineOf n v u), [(3, u); (2, v); (1, n)]).
Proof.
  intros Ha Hb Hv Hu n v. unfold unitOk in Hu. apply andb_prop in Hu.
  destruct Hu as [Hu Hsp].
  unfold pattern1, seq. cbn [fold_right]. rewrite run_seq.
  apply run_alt_left. rewrite run_bol_start. cbv beta. rewrite run_seq.
  unfold lineOf at 1.
  apply run_nameGroup; [exact Ha | exact Hb | | |].
  { destruct b; reflexivity. }
  { intros _. reflexivity. }
  fold n. rewrite run_seq, run_star_skip by reflexivity.
  rewrite run_seq. apply run_opt_take; [reflexivity|].
  rewrite run_seq.
  apply (@run_star_greedy isSpace _ [32%N] (v ++ 32%N :: u));
    [reflexivity | now apply decimalText_headFails_space |].
  rewrite run_seq.
  apply run_numberGroup; [exact Hv | reflexivity | reflexivity |].
  fold v. rewrite run_seq.
  apply (@run_star_greedy isSpace _ [32%N] u); [reflexivity | exact Hsp |].
  rewrite run_seq. rewrite <- (app_nil_r u) at 1.
  apply run_unitGroup; [exact Hu | reflexivity |].
  cbn [run]. unfold finish. rewrite length_lineOf. cbn [List.length].
  do 2 f_equal. lia.
Qed.

(** *** Searching and iterating *)

Section Search.

Variable r : regex.
Variable input : jsstring.

Lemma exec_from_hit (m : rmatch) (n : nat) :
  forall i steps,
    (forall j, j < n -> match_at r input (i + j) = None) ->
    match_at r input (i + n) = Some m ->
    n <= steps ->
    exec_from r input i steps = Some m.
Proof.
  induction n as [|n IH]; intros i steps Hmiss Hhit Hsteps.
  - rewrite Nat.add_0_r in Hhit.
    destruct steps; cbn [exec_from]; now rewrite Hhit.
  - destruct steps as [|steps]; [lia|]. cbn [exec_from].
    pose proof (Hmiss 0 (Nat.lt_0_succ n)) as H0. rewrite Nat.add_0_r in H0.
    rewrite H0. apply IH; [| |lia].
    + intros j Hj. replace (S i + j) with (i + S j) by lia. apply Hmiss. lia.
    + now replace (S i + n) with (i + S n) by lia.
Qed.

Lemma exec_from_miss :
  forall steps i,
    (forall j, j <= steps -> match_at r input (i + j) = None) ->
    exec_from r input i steps = None.
Proof.
  induction steps as [|steps IH]; intros i Hmiss; cbn [exec_from];
    pose proof (Hmiss 0 (Nat.le_0_l _)) as H0; rewrite Nat.add_0_r in H0;
    rewrite H0; [reflexivity|].
  apply IH. intros j Hj. replace (S i + j) with (i + S j) by lia.
  apply Hmiss. lia.
Qed.

Lemma matchAll_none : exec r input 0 = None -> matchAll r input = [].
Proof.
  intros H. unfold matchAll. cbn [matchAll_from].
  destruct (Nat.ltb (List.length input) 0); [reflexivity|]. now rewrite H.
Qed.

Lemma matchAll_from_end (fuel : nat) :
  match_at r input (List.length input) = None ->
  matchAll_from r input (List.length input) fuel = [].
Proof.
  intros Hnone. destruct fuel as [|fuel]; cbn [matchAll_from]; [reflexivity|].
  rewrite Nat.ltb_irrefl. unfold exec. rewrite Nat.sub_diag.
  cbn [exec_from]. now rewrite Hnone.
Qed.

(** One match that reaches the end of the input is the only one. *)
Lemma matchAll_one (m : rmatch) :
  exec r input 0 = Some m ->
  m_end m = List.length input ->
  m_index m < m_end m ->
  match_at r input (List.length input) = None ->
  matchAll r input = [m].
Proof.
  intros Hexec Hend Hlt Hnone. unfold matchAll. cbn [matchAll_from].
  replace (Nat.ltb (List.length input) 0) with false
    by (symmetry; apply Nat.ltb_ge; lia).
  rewrite Hexec.
  replace (Nat.eqb (m_end m) (m_index m)) with false
    by (symmetry; apply Nat.eqb_neq; lia).
  f_equal. rewrite Hend. now apply matchAll_from_end.
Qed.

End Search.

(** *** What a match consumes *)

Lemma star_loop_sound (r : regex) (k : kont) (st : state) :
  (forall pos s c k', run r pos s c k' = Some st -> consumed r pos s k' st) ->
  forall fuel pos s c,
    star_loop (run r) k fuel pos s c = Some st -> consumed (Star r) pos s k st.
Proof.
  intros IHr. induction fuel as [|fuel IH]; intros pos s c H; cbn [star_loop] in H.
  - exists [], s, c. rewrite Nat.add_0_r. repeat split; [constructor | exact H].
  - destruct (run r pos s c _) as [st'|] eqn:Hbody.
    + injection H as ->. apply IHr in Hbody.
      destruct Hbody as (a & b & c' & -> & Ha & Hk).
      destruct (Nat.ltb pos (pos + List.length a)); [|discriminate].
      apply IH in Hk. destruct Hk as (a2 & b2 & c2 & -> & Ha2 & Hk).
      exists (a ++ a2), b2, c2. rewrite <- app_assoc, length_app, Nat.add_assoc.
      repeat split; [now constructor | exact Hk].
    + exists [], s, c. rewrite Nat.add_0_r.
      repeat split; [constructor | exact H].
Qed.

Lemma run_sound (r : regex) :
  forall pos s c k st, run r pos s c k = Some st -> consumed r pos s k st.
Proof.
  induction r as [| |p|r1 IH1 r2 IH2|r1 IH1 r2 IH2|r IH|i r IH];
    intros pos s c k st H.
  - exists [], s, c. rewrite Nat.add_0_r. repeat split; [constructor | exact H].
  - cbn [run] in H. destruct pos; [|discriminate].
    exists [], s, c. repeat split; [constructor | exact H].
  - cbn [run] in H. destruct s as [|x s]; [discriminate|].
    destruct (p x) eqn:Hx; [|discriminate].
    exists [x], s, c. cbn [List.length]. rewrite Nat.add_1_r.
    repeat split; [now constructor | exact H].
  - cbn [run] in H. apply IH1 in H. destruct H as (a & b & c1 & -> & Ha & H).
    apply IH2 in H. destruct H as (a2 & b2 & c2 & -> & Ha2 & H).
    exists (a ++ a2), b2, c2. rewrite <- app_assoc, length_app, Nat.add_assoc.
    repeat split; [now constructor | exact H].
  - cbn [run] in H. destruct (run r1 pos s c k) as [st'|] eqn:H1.
    + injection H as ->. apply IH1 in H1.
      destruct H1 as (a & b & c' & -> & Ha & Hk).
      exists a, b, c'. repeat split; [now apply lang_alt_l | exact Hk].
    + apply IH2 in H. destruct H as (a & b & c' & -> & Ha & Hk).
      exists a, b, c'. repeat split; [now apply lang_alt_r | exact Hk].
  - cbn [run] in H. eapply star_loop_sound; [|exact H].
    intros pos' s' c' k' Hr. now apply IH in Hr.
  - cbn [run] in H. apply IH in H. destruct H as (a & b & c' & -> & Ha & Hk).
    exists a, b, ((i, firstn (pos + List.length a - pos) (a ++ b)) :: c').
    repeat split; [now constructor | exact Hk].
Qed.

(** Texts of the repetitions of one class. *)
Lemma lang_star_chr (p : N -> bool) (pos : nat) (a : jsstring) :
  lang (Star (Chr p)) pos a -> forallb p a = true.
Proof.
  intros H. remember (Star (Chr p)) as r eqn:Er. revert Er.
  induction H as [| | | | | | |r' pos a b Ha _ Hb IHb|]; intros Er;
    try discriminate; [reflexivity|].
  injection Er as ->. inversion Ha; subst.
  cbn [app forallb].
  match goal with Hx : p _ = true |- _ => rewrite Hx end.
  now apply IHb.
Qed.

Lemma lang_plus_chr (p : N -> bool) (pos : nat) (a : jsstring) :
  lang (Plus (Chr p)) pos a -> blockOf p a = true.
Proof.
  unfold Plus. intros H. inversion H; subst.
  match goal with Hc : lang (Chr p) _ _ |- _ => inversion Hc; subst end.
  match goal with Hs : lang (Star (Chr p)) _ _ |- _ =>
    apply lang_star_chr in Hs; rename Hs into Hrest end.
  unfold blockOf. cbn [app List.length Nat.eqb negb forallb andb].
  match goal with Hx : p _ = true |- _ => rewrite Hx end.
  exact Hrest.
Qed.

Lemma hasPair_intro (pre post : jsstring) (x y : N) :
  unitChar x = true -> isSpace y = true -> hasPair (pre ++ x :: y :: post) = true.
Proof.
  intros Hx Hy. induction pre as [|z pre IH].
  - cbn [app hasPair]. now rewrite Hx, Hy.
  - cbn [app]. cbn [hasPair].
    destruct (pre ++ x :: y :: post) as [|y0 t] eqn:E.
    + symmetry in E. now apply app_cons_not_nil in E.
    + rewrite IH. apply orb_true_r.
Qed.

Lemma hasPair_skipn (j : nat) (s : jsstring) :
  hasPair s = false -> hasPair (skipn j s) = false.
Proof.
  revert s. induction j as [|j IH]; intros s H; [exact H|].
  destruct s as [|x s]; [reflexivity|]. cbn [skipn]. apply IH.
  cbn [hasPair] in H. destruct s as [|y s]; [reflexivity|].
  now apply orb_false_iff in H.
Qed.

Lemma hasPair_app_left (t s : jsstring) :
  forallb (fun x => negb (unitChar x)) t = true ->
  hasPair (t ++ s) = hasPair s.
Proof.
  intros Ht. induction t as [|x t IH]; [reflexivity|].
  cbn [forallb] in Ht. apply andb_prop in Ht. destruct Ht as [Hx Ht].
  apply negb_true_iff in Hx. cbn [app]. cbn [hasPair].
  rewrite Hx. cbn [andb orb]. rewrite (IH Ht).
  destruct t as [|y t]; cbn [app]; [|reflexivity].
  destruct s; reflexivity.
Qed.

Lemma app_block_end (p : N -> bool) (u : jsstring) :
  blockOf p u = true -> exists u0 x, u = u0 ++ [x] /\ p x = true.
Proof.
  unfold blockOf. intros H. apply andb_prop in H. destruct H as [Hne Hu].
  destruct (exists_last (l := u)) as (u0 & x & ->).
  { intros ->. discriminate. }
  exists u0, x. split; [reflexivity|].
  rewrite forallb_app in Hu. apply andb_prop in Hu. destruct Hu as [_ Hx].
  cbn [forallb] in Hx. now apply andb_prop in Hx.
Qed.

Lemma app_block_start (p : N -> bool) (w : jsstring) :
  blockOf p w = true -> exists y w', w = y :: w' /\ p y = true.
Proof.
  unfold blockOf. intros H. apply andb_prop in H. destruct H as [Hne Hw].
  destruct w as [|y w']; [discriminate|]. cbn [forallb] in Hw.
  apply andb_prop in Hw. destruct Hw as [Hy _]. eauto.
Qed.

(** A match of the second generic pattern needs a unit directly followed
    by white space. *)
Lemma lang_pattern2_pair (pos : nat) (a : jsstring) :
  lang pattern2 pos a -> forall b, hasPair (a ++ b) = true.
Proof.
  unfold pattern2, seq. cbn [fold_right]. intros H b.
  inversion H as [| | |? ? ? an r1 Hn H1| | | | |]; subst; clear H.
  inversion H1 as [| | |? ? ? aw r2 Hw H2| | | | |]; subst; clear H1.
  inversion H2 as [| | |? ? ? au r3 Hu H3| | | | |]; subst; clear H2.
  inversion H3 as [| | |? ? ? aw' r4 Hw' H4| | | | |]; subst; clear H3.
  unfold unitGroup in Hu. inversion Hu; subst.
  match goal with Hl : lang (Plus (Chr unitChar)) _ _ |- _ =>
    apply lang_plus_chr, app_block_end in Hl;
    destruct Hl as (u0 & x & -> & Hx) end.
  apply lang_plus_chr, app_block_start in Hw'.
  destruct Hw' as (y & w' & -> & Hy).
  replace ((an ++ aw ++ (u0 ++ [x]) ++ (y :: w') ++ r4) ++ b)
    with ((an ++ aw ++ u0) ++ x :: y :: (w' ++ r4 ++ b)).
  - now apply hasPair_intro.
  - rewrite <- !app_assoc. cbn [app]. reflexivity.
Qed.

Lemma run_pattern2_none (s : jsstring) (pos : nat) (c : captures) (k : kont) :
  hasPair s = false -> run pattern2 pos s c k = None.
Proof.
  intros Hs. destruct (run pattern2 pos s c k) as [st|] eqn:H; [|reflexivity].
  apply run_sound in H. destruct H as (a & b & c' & -> & Ha & _).
  now rewrite (lang_pattern2_pair Ha b) in Hs.
Qed.

(** *** Patterns made from catalog names *)

Lemma compile_i_escaped (d : N) (rest : jsstring) :
  isSyntaxChar d = true ->
  compile_i (92%N :: d :: rest) = option_map (Seq (chr_i d)) (compile_i rest).
Proof. intros H. cbn [compile_i]. rewrite N.eqb_refl, H. reflexivity. Qed.

Lemma compile_i_plain (f : N) (rest : jsstring) :
  isSyntaxChar f = false -> (f <? 128)%N = true ->
  compile_i (f :: rest) = option_map (Seq (chr_i f)) (compile_i rest).
Proof.
  intros Hsyn Hascii. cbn [compile_i].
  destruct (N.eqb_spec f 92) as [->|H92]; [discriminate Hsyn|].
  rewrite Hsyn, Hascii. reflexivity.
Qed.

Lemma escapeParens_cons (f : N) (name : jsstring) :
  escapeParens (f :: name)
  = (if (f =? 40)%N || (f =? 41)%N then [92%N; f] else [f]) ++ escapeParens name.
Proof. reflexivity. Qed.

Lemma compile_i_literal (name : jsstring) :
  forallb literalChar name = true ->
  exists re, compile_i (escapeParens name) = Some re /\ literalRun name re.
Proof.
  unfold literalRun.
  induction name as [|f name IH]; intros Hall.
  - exists Eps. split; [reflexivity|]. intros pos s c k. cbn [run dropPrefix_ci].
    now rewrite Nat.add_0_r.
  - cbn [forallb] in Hall. apply andb_prop in Hall. destruct Hall as [Hf Hall].
    destruct (IH Hall) as (re & Hre & Hrun).
    exists (Seq (chr_i f) re). split.
    + rewrite escapeParens_cons. unfold literalChar in Hf.
      destruct (N.eqb_spec f 40) as [->|H40].
      { cbn [orb app]. rewrite compile_i_escaped by reflexivity.
        now rewrite Hre. }
      destruct (N.eqb_spec f 41) as [->|H41].
      { cbn [orb app]. rewrite compile_i_escaped by reflexivity.
        now rewrite Hre. }
      cbn [orb app]. rewrite !orb_false_r in Hf.
      apply andb_prop in Hf. destruct Hf as [Hsyn Hascii].
      apply negb_true_iff in Hsyn.
      rewrite compile_i_plain by assumption. now rewrite Hre.
    + intros pos s c k. rewrite run_seq. unfold chr_i.
      destruct s as [|x s]; [reflexivity|].
      rewrite run_chr_cons. cbn [dropPrefix_ci].
      destruct (N.eqb (asciiUpper x) (asciiUpper f)); [|reflexivity].
      rewrite Hrun. cbn [List.length]. now rewrite Nat.add_succ_comm.
Qed.

Lemma dropPrefix_ci_self (name rest : jsstring) :
  dropPrefix_ci name (name ++ rest) = Some rest.
Proof.
  induction name as [|f name IH]; [reflexivity|].
  cbn [app dropPrefix_ci]. now rewrite N.eqb_refl.
Qed.

Lemma clash_dropPrefix (name s rest : jsstring) :
  clash name s = true -> dropPrefix_ci name (s ++ rest) = None.
Proof.
  revert s. induction name as [|f name IH]; intros s H; [discriminate|].
  destruct s as [|x s]; [discriminate|]. cbn [clash] in H.
  cbn [app dropPrefix_ci].
  destruct (N.eqb (asciiUpper x) (asciiUpper f)); [now apply IH | reflexivity].
Qed.

Lemma asciiUpper_letter (f : N) :
  isLetter f = true -> (65 <= asciiUpper f <= 90)%N.
Proof.
  unfold isLetter, asciiUpper, isUpper, isLower.
  destruct (N.leb_spec 97 f) as [Ha|Ha], (N.leb_spec f 122) as [Hb|Hb];
    cbn [andb orb];
    destruct (N.leb_spec 65 f) as [Hc|Hc], (N.leb_spec f 90) as [Hd|Hd];
    cbn [andb]; intros He; try discriminate; lia.
Qed.

Lemma numeralChar_not_letter (x f : N) :
  numeralChar x = true -> isLetter f = true ->
  N.eqb (asciiUpper x) (asciiUpper f) = false.
Proof.
  intros Hx Hf. apply asciiUpper_letter in Hf.
  assert (Hlow : asciiUpper x = x /\ (x <= 57)%N).
  { unfold numeralChar in Hx. apply orb_prop in Hx. destruct Hx as [Hx|Hx].
    - apply digit_cases in Hx. cbn [In] in Hx.
      repeat (destruct Hx as [<-|Hx]; [split; [reflexivity | lia]|]).
      destruct Hx.
    - apply N.eqb_eq in Hx. subst x. split; [reflexivity | lia]. }
  destruct Hlow as [-> Hle]. apply N.eqb_neq. lia.
Qed.

Lemma dropPrefix_ci_numeral (name s : jsstring) (x : N) :
  isLetter (hd 0%N name) = true -> numeralChar x = true ->
  dropPrefix_ci name (x :: s) = None.
Proof.
  destruct name as [|f name]; [discriminate|]. cbn [hd dropPrefix_ci].
  intros Hf Hx. now rewrite numeralChar_not_letter.
Qed.

(** A matching attempt of a name pattern. *)
Lemma match_at_literal (name : jsstring) (re : regex) (input : jsstring) (i : nat) :
  literalRun name re ->
  match_at re input i =
    match dropPrefix_ci name (skipn i input) with
    | Some _ => Some {| m_index := i; m_end := i + List.length name; m_groups := [] |}
    | None => None
    end.
Proof.
  intros Hrun. unfold match_at. rewrite Hrun.
  destruct (dropPrefix_ci name (skipn i input)); reflexivity.
Qed.

(** *** Positions in a line *)

Lemma skipn_in_prefix (i : nat) (pre rest : jsstring) :
  i <= List.length pre -> skipn i (pre ++ rest) = skipn i pre ++ rest.
Proof.
  intros H. rewrite skipn_app.
  replace (i - List.length pre) with 0 by lia. reflexivity.
Qed.

Lemma skipn_past_prefix (j : nat) (pre rest : jsstring) :
  skipn (List.length pre + j) (pre ++ rest) = skipn j rest.
Proof.
  rewrite skipn_app, skipn_all2 by lia.
  replace (List.length pre + j - List.length pre) with j by lia. reflexivity.
Qed.

Lemma skipn_head (q : N -> bool) (l rest : jsstring) (j : nat) :
  forallb q l = true -> j < List.length l ->
  exists x t, skipn j l ++ rest = x :: t /\ q x = true.
Proof.
  revert j. induction l as [|y l IH]; intros j Hall Hj; [cbn in Hj; lia|].
  cbn [forallb] in Hall. apply andb_prop in Hall. destruct Hall as [Hy Hall].
  destruct j as [|j].
  - exists y, (l ++ rest). split; [reflexivity | exact Hy].
  - cbn [skipn]. apply IH; [exact Hall | cbn [List.length] in Hj; lia].
Qed.

Lemma forallb_seq_lt (f : nat -> bool) (n i : nat) :
  forallb f (List.seq 0 n) = true -> i < n -> f i = true.
Proof.
  intros H Hi. rewrite forallb_forall in H. apply H. apply in_seq. lia.
Qed.

Lemma lineOf_parts (n v u : jsstring) :
  lineOf n v u = prefixOf n ++ v ++ suffixOf u.
Proof. unfold lineOf, prefixOf, suffixOf. now rewrite <- app_assoc. Qed.

(** Every position of a line lies in the prefix, in the numeral, or in the
    suffix (its end included). *)
Lemma line_positions (n v u : jsstring) (Q : nat -> Prop) :
  (forall i, i < List.length (prefixOf n) -> Q i) ->
  (forall j, j < List.length v -> Q (List.length (prefixOf n) + j)) ->
  (forall j, j <= List.length (suffixOf u) ->
             Q (List.length (prefixOf n) + List.length v + j)) ->
  forall i, i <= List.length (lineOf n v u) -> Q i.
Proof.
  intros HP Hv HS i Hi. rewrite lineOf_parts, !length_app in Hi.
  destruct (Nat.lt_ge_cases i (List.length (prefixOf n))) as [H1|H1];
    [now apply HP|].
  destruct (Nat.lt_ge_cases i (List.length (prefixOf n) + List.length v))
    as [H2|H2].
  - replace i with (List.length (prefixOf n) + (i - List.length (prefixOf n)))
      by lia.
    apply Hv. lia.
  - replace i with (List.length (prefixOf n) + List.length v
                    + (i - List.length (prefixOf n) - List.length v)) by lia.
    apply HS. lia.
Qed.

Lemma skipn_line_prefix (n v u : jsstring) (i : nat) :
  i < List.length (prefixOf n) ->
  skipn i (lineOf n v u) = skipn i (prefixOf n) ++ v ++ suffixOf u.
Proof. intros H. rewrite lineOf_parts. apply skipn_in_prefix. lia. Qed.

Lemma skipn_line_numeral (n v u : jsstring) (j : nat) :
  j <= List.length v ->
  skipn (List.length (prefixOf n) + j) (lineOf n v u) = skipn j v ++ suffixOf u.
Proof.
  intros H. rewrite lineOf_parts, skipn_past_prefix. now apply skipn_in_prefix.
Qed.

Lemma skipn_line_suffix (n v u : jsstring) (j : nat) :
  skipn (List.length (prefixOf n) + List.length v + j) (lineOf n v u)
  = skipn j (suffixOf u).
Proof.
  rewrite lineOf_parts, <- Nat.add_assoc, skipn_past_prefix.
  apply skipn_past_prefix.
Qed.

(** *** The characters of a numeral *)

Lemma decimalText_numeral (ip fp : jsstring) :
  isDecimal ip fp = true -> forallb numeralChar (decimalText ip fp) = true.
Proof.
  unfold isDecimal, blockOf, decimalText. intros H.
  apply andb_prop in H. destruct H as [H Hfp].
  apply andb_prop in H. destruct H as [_ Hip].
  assert (Hd : forall l, forallb isDigit l = true -> forallb numeralChar l = true).
  { intros l Hl. rewrite forallb_forall in *. intros x Hx.
    unfold numeralChar. now rewrite (Hl x Hx). }
  rewrite forallb_app, (Hd _ Hip). destruct fp as [|e fp]; [reflexivity|].
  cbn [forallb andb]. now rewrite <- (Hd _ Hfp).
Qed.

Lemma numeral_not_unitChar (x : N) : numeralChar x = true -> unitChar x = false.
Proof.
  unfold numeralChar. intros H. apply orb_prop in H. destruct H as [H|H].
  - now apply digit_not_unitChar.
  - apply N.eqb_eq in H. now subst.
Qed.

(** *** Single attempts *)

Lemma run_pattern1_end (pos : nat) (c : captures) (k : kont) :
  run pattern1 (S pos) [] c k = None.
Proof. reflexivity. Qed.

Lemma match_at_none (r : regex) (input : jsstring) (i : nat) :
  run r i (skipn i input) [] finish = None -> match_at r input i = None.
Proof. unfold match_at. fold finish. now intros ->. Qed.

Lemma match_at_some (r : regex) (input : jsstring) (i e : nat) (c : captures) :
  run r i (skipn i input) [] finish = Some (e, c) ->
  match_at r input i = Some {| m_index := i; m_end := e; m_groups := c |}.
Proof. unfold match_at. fold finish. now intros ->. Qed.

(** *** What the patterns need of a text *)

Lemma lang_seq_inv (r1 r2 : regex) (pos : nat) (a : jsstring) :
  lang (Seq r1 r2) pos a ->
  exists a1 a2, a = a1 ++ a2 /\ lang r1 pos a1 /\ lang r2 (pos + List.length a1) a2.
Proof. inversion 1; subst; eauto. Qed.

Lemma lang_group_inv (i : nat) (r : regex) (pos : nat) (a : jsstring) :
  lang (Group i r) pos a -> lang r pos a.
Proof. now inversion 1. Qed.

Lemma lang_eps_inv (pos : nat) (a : jsstring) : lang Eps pos a -> a = [].
Proof. now inversion 1. Qed.

Lemma lang_chr_inv (p : N -> bool) (pos : nat) (a : jsstring) :
  lang (Chr p) pos a -> exists x, a = [x] /\ p x = true.
Proof. inversion 1; subst; eauto. Qed.

Lemma lang_opt_inv (r : regex) (pos : nat) (a : jsstring) :
  lang (Opt r) pos a -> a = [] \/ lang r pos a.
Proof.
  unfold Opt. inversion 1; subst; [now right|].
  left. now apply lang_eps_inv with (pos := pos).
Qed.

Lemma lang_one_inv (ch : string) (y : N) (pos : nat) (a : jsstring) :
  lit ch = [y] -> lang (one ch) pos a -> a = [y].
Proof.
  intros Hch H. apply lang_chr_inv in H. destruct H as (x & -> & Hx).
  unfold isChar in Hx. rewrite Hch in Hx. apply N.eqb_eq in Hx. now subst.
Qed.

Lemma afterNumber_numeral (xs r : jsstring) :
  forallb numeralChar xs = true -> afterNumber r = true ->
  afterNumber (xs ++ r) = true.
Proof.
  intros Hxs Hr. induction xs as [|x xs IH]; [exact Hr|].
  cbn [forallb] in Hxs. apply andb_prop in Hxs. destruct Hxs as [Hx Hxs].
  cbn [app afterNumber]. rewrite Hx, (IH Hxs). cbn [orb andb].
  apply orb_true_r.
Qed.

Lemma afterNumber_space (xs r : jsstring) :
  forallb isSpace xs = true -> afterNumber r = true ->
  afterNumber (xs ++ r) = true.
Proof.
  intros Hxs Hr. induction xs as [|x xs IH]; [exact Hr|].
  cbn [forallb] in Hxs. apply andb_prop in Hxs. destruct Hxs as [Hx Hxs].
  cbn [app afterNumber]. rewrite Hx, (IH Hxs). rewrite orb_true_r.
  cbn [andb]. apply orb_true_r.
Qed.

(** The text of the number group starts with a digit and holds numeral
    characters only. *)
Lemma lang_numberGroup (i pos : nat) (a : jsstring) :
  lang (numberGroup i) pos a ->
  exists x t, a = x :: t /\ isDigit x = true /\ forallb numeralChar t = true.
Proof.
  unfold numberGroup, seq. cbn [fold_right]. intros H.
  apply lang_group_inv, lang_seq_inv in H.
  destruct H as (d1 & a2 & -> & Hd1 & H).
  apply lang_seq_inv in H. destruct H as (o & a3 & -> & Ho & H).
  apply lang_seq_inv in H. destruct H as (d2 & e & -> & Hd2 & He).
  apply lang_eps_inv in He. subst e.
  apply lang_plus_chr in Hd1. apply lang_star_chr in Hd2.
  unfold blockOf in Hd1. apply andb_prop in Hd1. destruct Hd1 as [Hne Hd1].
  destruct d1 as [|x d1]; [discriminate|].
  cbn [forallb] in Hd1. apply andb_prop in Hd1. destruct Hd1 as [Hx Hd1].
  assert (Hdigits : forall l, forallb isDigit l = true ->
                              forallb numeralChar l = true).
  { intros l Hl. rewrite forallb_forall in *. intros y Hy.
    unfold numeralChar. now rewrite (Hl y Hy). }
  exists x, (d1 ++ o ++ d2 ++ []). repeat split; [exact Hx|].
  rewrite !forallb_app, (Hdigits _ Hd1), (Hdigits _ Hd2). cbn [forallb andb].
  rewrite andb_true_r.
  apply lang_opt_inv in Ho. destruct Ho as [->|Ho]; [reflexivity|].
  now rewrite (@lang_one_inv "." 46%N _ _ eq_refl Ho).
Qed.

(** A number, white space and a unit, whatever follows in the pattern. *)
Lemma lang_value_can (i j : nat) (r : regex) (pos : nat) (a : jsstring) :
  lang (Seq (numberGroup i) (Seq (Star (Chr isSpace)) (Seq (unitGroup j) r)))
    pos a ->
  forall b, valueCan (a ++ b) = true.
Proof.
  intros H b. apply lang_seq_inv in H. destruct H as (an & a1 & -> & Hn & H).
  apply lang_seq_inv in H. destruct H as (aw & a2 & -> & Hw & H).
  apply lang_seq_inv in H. destruct H as (au & ar & -> & Hu & _).
  apply lang_numberGroup in Hn. destruct Hn as (x & t & -> & Hx & Ht).
  apply lang_star_chr in Hw.
  apply lang_group_inv, lang_plus_chr, app_block_start in Hu.
  destruct Hu as (y & u' & -> & Hy).
  rewrite <- !app_assoc. cbn [app valueCan]. rewrite Hx. cbn [andb].
  apply afterNumber_numeral; [exact Ht|].
  apply afterNumber_space; [exact Hw|].
  cbn [afterNumber]. now rewrite Hy.
Qed.

Lemma run_value_none (i j : nat) (r : regex) (s : jsstring) (pos : nat)
  (c : captures) (k : kont) :
  valueCan s = false ->
  run (Seq (numberGroup i) (Seq (Star (Chr isSpace)) (Seq (unitGroup j) r)))
    pos s c k = None.
Proof.
  intros Hs.
  destruct (run _ pos s c k) as [st|] eqn:H; [|reflexivity].
  apply run_sound in H. destruct H as (a & b & c' & -> & Ha & _).
  now rewrite (lang_value_can Ha b) in Hs.
Qed.

Lemma afterName_value (s : jsstring) : valueCan s = true -> afterName s = true.
Proof.
  destruct s as [|x s]; [discriminate|]. intros H. cbn [afterName].
  rewrite H. rewrite orb_true_r. reflexivity.
Qed.

Lemma afterName_skip (xs r : jsstring) :
  forallb nameChar xs = true -> afterName r = true -> afterName (xs ++ r) = true.
Proof.
  intros Hxs Hr. induction xs as [|x xs IH]; [exact Hr|].
  cbn [forallb] in Hxs. apply andb_prop in Hxs. destruct Hxs as [Hx Hxs].
  cbn [app]. cbn [afterName]. rewrite Hx, (IH Hxs). apply orb_true_r.
Qed.

Lemma spaces_nameChars (xs : jsstring) :
  forallb isSpace xs = true -> forallb nameChar xs = true.
Proof.
  intros H. rewrite forallb_forall in *. intros x Hx.
  unfold nameChar. rewrite (H x Hx). apply orb_true_r.
Qed.

(** The text of the name group, and what follows it, starts a name. *)
Lemma lang_nameGroup_can (i pos : nat) (a r : jsstring) :
  lang (nameGroup i) pos a -> afterName r = true -> nameCan (a ++ r) = true.
Proof.
  unfold nameGroup, seq. cbn [fold_right]. intros H Hr.
  apply lang_group_inv, lang_seq_inv in H.
  destruct H as (nm & a2 & -> & Hnm & H).
  apply lang_seq_inv in H. destruct H as (par & e & -> & Hpar & He).
  apply lang_eps_inv in He. subst e.
  apply lang_plus_chr in Hnm. unfold blockOf in Hnm.
  apply andb_prop in Hnm. destruct Hnm as [Hne Hnm].
  destruct nm as [|y nm]; [discriminate|].
  cbn [forallb] in Hnm. apply andb_prop in Hnm. destruct Hnm as [Hy Hnm].
  rewrite <- !app_assoc. cbn [app nameCan]. rewrite Hy. cbn [andb].
  apply afterName_skip; [exact Hnm|].
  apply lang_opt_inv in Hpar. destruct Hpar as [->|Hpar]; [exact Hr|].
  apply lang_seq_inv in Hpar. destruct Hpar as (o & rest & -> & Ho & _).
  now rewrite (@lang_one_inv "(" 40%N _ _ eq_refl Ho).
Qed.

Lemma lang_pattern1_can (pos : nat) (a : jsstring) :
  lang pattern1 pos a -> forall b, pattern1Can (Nat.eqb pos 0) (a ++ b) = true.
Proof.
  unfold pattern1, seq. cbn [fold_right]. intros H b.
  apply lang_seq_inv in H. destruct H as (h & a1 & -> & Hh & H).
  apply lang_seq_inv in H. destruct H as (nm & a2 & -> & Hnm & H).
  apply lang_seq_inv in H. destruct H as (w1 & a3 & -> & Hw1 & H).
  apply lang_seq_inv in H. destruct H as (co & a4 & -> & Hco & H).
  apply lang_seq_inv in H. destruct H as (w2 & a5 & -> & Hw2 & H).
  apply lang_star_chr, spaces_nameChars in Hw1, Hw2.
  pose proof (lang_value_can H b) as Hv. apply afterName_value in Hv.
  assert (Hname : nameCan (nm ++ w1 ++ co ++ w2 ++ a5 ++ b) = true).
  { apply (lang_nameGroup_can _ Hnm). apply afterName_skip; [exact Hw1|].
    apply lang_opt_inv in Hco. destruct Hco as [->|Hco].
    - change ([] ++ w2 ++ a5 ++ b) with (w2 ++ a5 ++ b).
      now apply afterName_skip.
    - now rewrite (@lang_one_inv ":" 58%N _ _ eq_refl Hco). }
  rewrite <- !app_assoc. unfold pattern1Can.
  inversion Hh as [| | | |? ? ? ? Hbol|? ? ? ? Hsp| | |]; subst.
  - inversion Hbol; subst. cbn [Nat.eqb andb app]. now rewrite Hname.
  - apply lang_chr_inv in Hsp. destruct Hsp as (x & -> & Hx).
    cbn [app]. rewrite Hx, Hname. apply orb_true_r.
Qed.

Lemma run_pattern1_none (s : jsstring) (pos : nat) (c : captures) (k : kont) :
  pattern1Can (Nat.eqb pos 0) s = false -> run pattern1 pos s c k = None.
Proof.
  intros Hs. destruct (run pattern1 pos s c k) as [st|] eqn:H; [|reflexivity].
  apply run_sound in H. destruct H as (a & b & c' & -> & Ha & _).
  now rewrite (lang_pattern1_can Ha b) in Hs.
Qed.

(** *** Answers settled before a colon *)

Lemma afterNumber_colon (t rest : jsstring) :
  afterNumber (t ++ 58%N :: rest) = afterNumber (t ++ [58%N]).
Proof.
  induction t as [|x t IH]; [reflexivity|].
  cbn [app afterNumber]. now rewrite IH.
Qed.

Lemma valueCan_colon (t rest : jsstring) :
  valueCan (t ++ 58%N :: rest) = valueCan (t ++ [58%N]).
Proof.
  destruct t as [|x t]; [reflexivity|].
  cbn [app valueCan]. now rewrite afterNumber_colon.
Qed.

Lemma afterName_colon (t rest : jsstring) :
  afterName (t ++ 58%N :: rest) = afterName (t ++ [58%N]).
Proof.
  induction t as [|x t IH]; [reflexivity|].
  change ((x :: t) ++ 58%N :: rest) with (x :: (t ++ 58%N :: rest)).
  change ((x :: t) ++ [58%N]) with (x :: (t ++ [58%N])).
  cbn [afterName]. rewrite IH.
  change (x :: (t ++ 58%N :: rest)) with ((x :: t) ++ 58%N :: rest).
  change (x :: (t ++ [58%N])) with ((x :: t) ++ [58%N]).
  now rewrite valueCan_colon.
Qed.

Lemma nameCan_colon (t rest : jsstring) :
  nameCan (t ++ 58%N :: rest) = nameCan (t ++ [58%N]).
Proof.
  destruct t as [|x t]; [reflexivity|].
  cbn [app nameCan]. now rewrite afterName_colon.
Qed.

Lemma pattern1Can_colon (atStart : bool) (t rest : jsstring) :
  pattern1Can atStart (t ++ 58%N :: rest) = pattern1Can atStart (t ++ [58%N]).
Proof.
  unfold pattern1Can. rewrite nameCan_colon.
  destruct t as [|x t]; [reflexivity|].
  cbn [app]. now rewrite nameCan_colon.
Qed.

(** *** The patterns on the line "<name>: <numeral> <unit>" *)

Lemma run_valuePattern_none (s : jsstring) (pos : nat) (c : captures)
  (k : kont) :
  valueCan s = false -> run valuePattern pos s c k = None.
Proof. unfold valuePattern, seq. cbn [fold_right]. apply run_value_none. Qed.

Lemma run_pattern2_start (s : jsstring) (pos : nat) (c : captures) (k : kont) :
  valueCan s = false -> run pattern2 pos s c k = None.
Proof. unfold pattern2, seq. cbn [fold_right]. apply run_value_none. Qed.

Lemma numeral_not_space (x : N) : numeralChar x = true -> isSpace x = false.
Proof.
  unfold numeralChar. intros H. apply orb_prop in H. destruct H as [H|H].
  - now apply digit_not_space.
  - apply N.eqb_eq in H. now subst.
Qed.

Section OnLine.

Variables n u ip fp : jsstring.

Let v : jsstring := decimalText ip fp.
Let line : jsstring := lineOf n v u.

Hypothesis Hnum : isDecimal ip fp = true.
Hypothesis Hunit : unitOk u = true.
Hypothesis Hprefix : valueFree n = true.

Lemma skipn_line_name (i : nat) :
  i <= List.length n ->
  skipn i line = skipn i n ++ 58%N :: (32%N :: v ++ suffixOf u).
Proof. intros Hi. unfold line, lineOf. now apply skipn_in_prefix. Qed.

Lemma skipn_line_space :
  skipn (S (List.length n)) line = 32%N :: v ++ suffixOf u.
Proof.
  unfold line, lineOf. rewrite <- Nat.add_1_r. now rewrite skipn_past_prefix.
Qed.

(** A position of the prefix lies in the name or at its colon, or is the
    space after the colon. *)
Lemma prefix_positions (Q : nat -> Prop) :
  (forall i, i <= List.length n -> Q i) ->
  Q (S (List.length n)) ->
  forall i, i < List.length (prefixOf n) -> Q i.
Proof.
  intros Hname Hspace i Hi. unfold prefixOf in Hi. rewrite length_app in Hi.
  cbn [List.length] in Hi.
  destruct (Nat.eq_dec i (S (List.length n))) as [->|Hne]; [exact Hspace|].
  apply Hname. lia.
Qed.

Lemma prefix_attempt (i : nat) :
  i < List.length (prefixOf n) -> valueCan (skipn i line) = false.
Proof.
  revert i. apply prefix_positions.
  - intros i Hi. rewrite skipn_line_name, valueCan_colon by exact Hi.
    apply negb_true_iff.
    apply (@forallb_seq_lt
             (fun i => negb (valueCan (skipn i n ++ [58%N]))) _ i Hprefix).
    lia.
  - now rewrite skipn_line_space.
Qed.

(** The value pattern finds the numeral and the unit. *)
Lemma match_first_valuePattern :
  match_first valuePattern line
  = Some {| m_index := List.length (prefixOf n);
            m_end := List.length (prefixOf n) + List.length v + 1 + List.length u;
            m_groups := [(2, u); (1, v)] |}.
Proof.
  unfold match_first, exec.
  apply exec_from_hit with (n := List.length (prefixOf n)).
  - intros j Hj. apply match_at_none, run_valuePattern_none.
    apply prefix_attempt. lia.
  - apply match_at_some. cbn [Nat.add].
    replace (List.length (prefixOf n)) with (List.length (prefixOf n) + 0) at 2
      by lia.
    unfold line. rewrite skipn_line_numeral by lia. cbn [skipn].
    now apply run_valuePattern.
  - unfold line. rewrite lineOf_parts, length_app. lia.
Qed.

(** The second generic pattern matches nowhere. *)
Hypothesis Hpair : hasPair (suffixOf u) = false.

Lemma matchAll_pattern2 : matchAll pattern2 line = [].
Proof.
  apply matchAll_none. unfold exec. apply exec_from_miss.
  intros j Hj. cbn [Nat.add]. rewrite Nat.sub_0_r in Hj. revert j Hj.
  apply line_positions.
  - intros i Hi. apply match_at_none, run_pattern2_start.
    now apply prefix_attempt.
  - intros j Hj. apply match_at_none, run_pattern2_none.
    unfold line. rewrite skipn_line_numeral by lia.
    rewrite <- skipn_in_prefix by lia. apply hasPair_skipn.
    rewrite hasPair_app_left; [exact Hpair|].
    pose proof (decimalText_numeral _ _ Hnum) as Hall. fold v in Hall.
    rewrite forallb_forall in *. intros x Hx.
    now rewrite (numeral_not_unitChar _ (Hall x Hx)).
  - intros j Hj. apply match_at_none, run_pattern2_none.
    unfold line. rewrite skipn_line_suffix. now apply hasPair_skipn.
Qed.

(** The first generic pattern matches once, from the start to the end. *)
Variables a b : jsstring.
Hypothesis Ha : blockOf nameChar a = true.
Hypothesis Hb : forallb notRParen b = true.
Hypothesis Hname : n = a ++ parenText b.

Lemma matchAll_pattern1 :
  matchAll pattern1 line
  = [ {| m_index := 0; m_end := List.length line;
         m_groups := [(3, u); (2, v); (1, n)] |} ].
Proof.
  assert (Hlen : List.length line = S (List.length line - 1)).
  { unfold line. rewrite length_lineOf. lia. }
  apply matchAll_one.
  - unfold exec. apply exec_from_hit with (n := 0); [intros j Hj; lia | | lia].
    apply match_at_some. cbn [Nat.add skipn]. unfold line. rewrite Hname.
    now apply run_pattern1.
  - reflexivity.
  - cbn [m_index m_end]. lia.
  - apply match_at_none. rewrite skipn_all. rewrite Hlen.
    apply run_pattern1_end.
Qed.

(** When no match of the first generic pattern starts in the name or in
    the unit, it matches nowhere. *)
Lemma matchAll_pattern1_none :
  pattern1Free n = true ->
  pattern1FreeTail (suffixOf u) = true ->
  matchAll pattern1 line = [].
Proof.
  intros Hfree Htail.
  apply matchAll_none. unfold exec. apply exec_from_miss.
  intros j Hj. cbn [Nat.add]. rewrite Nat.sub_0_r in Hj. revert j Hj.
  apply line_positions.
  - apply prefix_positions.
    + intros i Hi. apply match_at_none, run_pattern1_none.
      rewrite skipn_line_name, pattern1Can_colon by exact Hi.
      apply negb_true_iff.
      apply (@forallb_seq_lt
               (fun i => negb (pattern1Can (Nat.eqb i 0) (skipn i n ++ [58%N])))
               _ i Hfree).
      lia.
    + apply match_at_none, run_pattern1_none. rewrite skipn_line_space.
      destruct (decimalText_head _ _ (suffixOf u) Hnum) as (d & tl & E & Hd).
      fold v in E. rewrite E. unfold pattern1Can.
      cbn [Nat.eqb andb orb nameCan]. rewrite (digit_not_nameChar _ Hd).
      apply andb_false_r.
  - intros j Hj. apply match_at_none, run_pattern1_none.
    unfold line. rewrite skipn_line_numeral by lia.
    destruct (@skipn_head numeralChar v (suffixOf u) j
                (decimalText_numeral _ _ Hnum) Hj) as (x & t & -> & Hx).
    unfold prefixOf. rewrite length_app. cbn [List.length].
    replace (List.length n + 2 + j) with (S (List.length n + 1 + j)) by lia.
    unfold pattern1Can. cbn [Nat.eqb andb orb].
    now rewrite (numeral_not_space _ Hx).
  - intros j Hj. apply match_at_none, run_pattern1_none.
    unfold line. rewrite skipn_line_suffix.
    unfold prefixOf. rewrite length_app. cbn [List.length].
    replace (List.length n + 2 + List.length v + j)
      with (S (List.length n + 1 + List.length v + j)) by lia.
    cbn [Nat.eqb]. apply negb_true_iff.
    apply (@forallb_seq_lt
             (fun i => negb (pattern1Can false (skipn i (suffixOf u))))
             _ j Htail).
    lia.
Qed.

End OnLine.

(** *** Name patterns on the line *)

Lemma test_name_self (name rest : jsstring) (re : regex) :
  literalRun name re -> test re (name ++ rest) = true.
Proof.
  intros Hrun. unfold test, exec.
  rewrite (@exec_from_hit re (name ++ rest)
             {| m_index := 0; m_end := 0 + List.length name; m_groups := [] |} 0);
    [reflexivity | intros j Hj; lia | | lia].
  rewrite (@match_at_literal name re _ _ Hrun). cbn [Nat.add].
  now rewrite skipn_O, dropPrefix_ci_self.
Qed.

Lemma test_name_other (F n v u : jsstring) (re : regex) :
  literalRun F re ->
  otherNameOk F n u = true ->
  forallb numeralChar v = true ->
  test re (lineOf n v u) = false.
Proof.
  intros Hrun Hok Hv. unfold otherNameOk in Hok.
  apply andb_prop in Hok. destruct Hok as [Hok HS].
  apply andb_prop in Hok. destruct Hok as [HP Hletter].
  unfold test, exec. rewrite exec_from_miss; [reflexivity|].
  intros j Hj. cbn [Nat.add]. rewrite Nat.sub_0_r in Hj. revert j Hj.
  apply line_positions; intros i Hi; rewrite (@match_at_literal F re _ _ Hrun).
  - rewrite skipn_line_prefix by exact Hi.
    rewrite clash_dropPrefix; [reflexivity|].
    exact (@forallb_seq_lt _ _ _ HP Hi).
  - rewrite skipn_line_numeral by lia.
    destruct (@skipn_head numeralChar v (suffixOf u) i Hv Hi) as (x & t & -> & Hx).
    now rewrite dropPrefix_ci_numeral.
  - rewrite skipn_line_suffix.
    assert (Hi' : i < S (List.length (suffixOf u))) by lia.
    pose proof (@forallb_seq_lt _ _ _ HS Hi') as Hnone. cbv beta in Hnone.
    destruct (dropPrefix_ci F (skipn i (suffixOf u))); [discriminate | reflexivity].
Qed.

(** *** The whole extraction on the line *)

Lemma split_aux_no_sep (sep : N) (s cur : jsstring) :
  forallb (fun x => negb (N.eqb x sep)) s = true ->
  split_aux sep cur s = [rev cur ++ s].
Proof.
  revert cur. induction s as [|x s IH]; intros cur H.
  - cbn [split_aux]. now rewrite app_nil_r.
  - cbn [forallb] in H. apply andb_prop in H. destruct H as [Hx Hs].
    apply negb_true_iff in Hx. cbn [split_aux]. rewrite Hx, (IH _ Hs).
    cbn [rev]. now rewrite <- app_assoc.
Qed.

Lemma split_no_sep (sep : N) (s : jsstring) :
  forallb (fun x => negb (N.eqb x sep)) s = true -> split sep s = [s].
Proof. intros H. unfold split. now rewrite split_aux_no_sep. Qed.

Lemma flat_map_In_ext {A B} (f g : A -> list B) (l : list A) :
  (forall x, In x l -> f x = g x) -> flat_map f l = flat_map g l.
Proof.
  induction l as [|x l IH]; intros H; [reflexivity|].
  cbn [flat_map]. rewrite (H x (or_introl eq_refl)). f_equal.
  apply IH. intros y Hy. apply H. now right.
Qed.

Lemma flat_map_single {A B} (p : A -> bool) (y : B) (l : list A) :
  List.length (filter p l) = 1 ->
  flat_map (fun x => if p x then [y] else []) l = [y].
Proof.
  assert (H : flat_map (fun x => if p x then [y] else []) l
              = repeat y (List.length (filter p l))).
  { induction l as [|x l IH]; [reflexivity|]. cbn [flat_map filter].
    destruct (p x); cbn [app List.length repeat]; now rewrite IH. }
  intros Hone. now rewrite H, Hone.
Qed.

Lemma firstOfEachName_same (n : jsstring) (l : list Parsed.t) :
  (forall pv, In pv l -> Parsed.name pv = n) -> firstOfEachName [n] l = [].
Proof.
  induction l as [|x l IH]; intros H; [reflexivity|].
  cbn [firstOfEachName existsb]. rewrite (H x (or_introl eq_refl)).
  rewrite jsstring_eqb_refl. cbn [orb]. apply IH.
  intros pv Hpv. apply H. now right.
Qed.

Lemma catalog_literal :
  forallb (fun r => forallb literalChar (Range.name r)) values = true.
Proof. vm_compute. reflexivity. Qed.

Section Extraction.

Variable r : Range.t.
Variables ip fp : jsstring.

Let n : jsstring := Range.name r.
Let u : jsstring := Range.unit r.
Let v : jsstring := decimalText ip fp.
Let line : jsstring := lineOf n v u.
Let hit : Parsed.t :=
  {| Parsed.name := n; Parsed.value := parseFloat v; Parsed.unit := u |}.

Hypothesis Hok : entryOk r = true.
Hypothesis Hnum : isDecimal ip fp = true.

Lemma entryOk_parts :
  valueFree n = true /\
  forallb (fun x => negb (N.eqb x 10)) (n ++ u) = true /\
  unitOk u = true /\
  hasPair (suffixOf u) = false /\
  forallb (fun F => JsString.eqb (Range.name F) n
                    || otherNameOk (Range.name F) n u) values = true /\
  List.length (filter (fun kv => JsString.eqb (Range.name (snd kv)) n) entries) = 1 /\
  (namedByPattern1 n = true \/ missedByPattern1 n u = true).
Proof.
  pose proof Hok as H. unfold entryOk in H. cbv zeta in H. fold n u in H.
  do 6 (apply andb_prop in H; destruct H as [H ?]).
  repeat split; try assumption.
  - now apply negb_true_iff.
  - now apply Nat.eqb_eq.
  - now apply orb_prop.
Qed.

Lemma line_one_line : split 10 line = [line].
Proof.
  destruct entryOk_parts as (_ & Hnl & _).
  rewrite forallb_app in Hnl. apply andb_prop in Hnl. destruct Hnl as [Hn Hu].
  apply split_no_sep. unfold line, lineOf.
  change (58%N :: 32%N :: v ++ 32%N :: u) with ([58%N; 32%N] ++ v ++ [32%N] ++ u).
  rewrite !forallb_app, Hn, Hu.
  change (forallb (fun x => negb (x =? 10)%N) [58%N; 32%N]) with true.
  change (forallb (fun x => negb (x =? 10)%N) [32%N]) with true.
  cbn [andb]. rewrite andb_true_r.
  pose proof (decimalText_numeral _ _ Hnum) as Hv. fold v in Hv.
  rewrite forallb_forall in *. intros x Hx. specialize (Hv x Hx).
  unfold numeralChar in Hv. apply orb_prop in Hv. destruct Hv as [Hd|Hd].
  - apply digit_cases in Hd. cbn [In] in Hd.
    repeat (destruct Hd as [<-|Hd]; [reflexivity|]). destruct Hd.
  - apply N.eqb_eq in Hd. now subst.
Qed.

(** The scan of the catalog finds the entry, and nothing else. *)
Lemma knownNameHits_line : knownNameHits line = [hit].
Proof.
  destruct entryOk_parts as (Hpre & _ & Hunit & _ & Hothers & Hone & _).
  unfold knownNameHits.
  rewrite (@flat_map_In_ext _ _ _
             (fun kv => if JsString.eqb (Range.name (snd kv)) n
                        then [hit] else [])).
  - now apply flat_map_single.
  - intros kv Hkv.
    assert (HF : In (snd kv) values) by (unfold values; now apply in_map).
    pose proof (@forallb_In _ _ values (snd kv) catalog_literal HF) as Hlit.
    cbv beta in Hlit.
    destruct (compile_i_literal _ Hlit) as (re & Hre & Hrun).
    unfold testNameRegex. rewrite Hre.
    destruct (JsString.eqb (Range.name (snd kv)) n) eqn:E.
    + apply jsstring_eqb_eq in E.
      assert (Htest : test re line = true).
      { unfold line, lineOf. rewrite <- E. now apply test_name_self. }
      rewrite Htest. unfold line, v.
      rewrite (match_first_valuePattern n u ip fp Hnum Hunit Hpre).
      cbn [m_groups capture Nat.eqb parseFloat_opt]. rewrite E. reflexivity.
    + pose proof (@forallb_In _ _ values (snd kv) Hothers HF) as Ho.
      cbv beta in Ho. rewrite E in Ho. cbn [orb] in Ho.
      unfold line, v.
      rewrite (@test_name_other _ _ _ _ _ Hrun Ho (decimalText_numeral _ _ Hnum)).
      reflexivity.
Qed.

(** Every generic hit names the entry. *)
Lemma genericHits_line (pv : Parsed.t) :
  In pv (genericHits line) -> Parsed.name pv = n.
Proof.
  destruct entryOk_parts as (Hpre & _ & Hunit & Hpair & _ & _ & Hp1).
  unfold genericHits, patterns. cbn [flat_map]. unfold line, v.
  rewrite (matchAll_pattern2 n u ip fp Hnum Hpre Hpair).
  destruct Hp1 as [Hp1|Hp1].
  - unfold namedByPattern1 in Hp1.
    do 4 (apply andb_prop in Hp1; destruct Hp1 as [Hp1 ?]).
    assert (Hname : n = nameBlock n ++ parenText (nameParen n))
      by now apply jsstring_eqb_eq.
    assert (Htrim : trim n = n) by now apply jsstring_eqb_eq.
    rewrite (@matchAll_pattern1 n u ip fp Hnum Hunit
               (nameBlock n) (nameParen n) Hp1 ltac:(assumption) Hname).
    cbn [flat_map]. rewrite !app_nil_r.
    unfold genericHit. cbn [m_groups capture Nat.eqb option_map].
    rewrite Htrim.
    assert (Hn : exists x t, n = x :: t).
    { unfold blockOf in Hp1. apply andb_prop in Hp1. destruct Hp1 as [Hne _].
      rewrite Hname. destruct (nameBlock n) as [|x t]; [discriminate|].
      cbn [app]. eauto. }
    destruct Hn as (x & t & En). rewrite En. cbn [js_or truthy].
    rewrite <- En.
    destruct (js_or (Some u) (Some (decimalText ip fp))) as [u'|]; [|intros []].
    destruct (_ && _); [|intros []].
    destruct (find (isKnownTest n) values) as [k|] eqn:Hk; [|intros []].
    intros [<-|[]]. cbn [Parsed.name]. now apply jsstring_eqb_eq.
  - unfold missedByPattern1 in Hp1. apply andb_prop in Hp1.
    destruct Hp1 as [Hfree Htail].
    rewrite (matchAll_pattern1_none n u ip fp Hnum Hfree Htail).
    intros [].
Qed.

Lemma parseBloodworkText_line : parseBloodworkText line = [hit].
Proof.
  unfold parseBloodworkText, collect. rewrite line_one_line.
  cbn [flat_map]. rewrite app_nil_r, knownNameHits_line.
  rewrite uniqueResults_firstOfEachName. cbn [app firstOfEachName existsb].
  f_equal. apply firstOfEachName_same. exact genericHits_line.
Qed.

End Extraction.

(** The catalog entries whose line reads as written are those whose unit
    has no mu. *)
Lemma catalog_entryOk :
  forallb (fun r => unitHasMu r || entryOk r) values = true.
Proof. vm_compute. reflexivity. Qed.

(** For every catalog entry whose unit has no mu and every decimal numeral,
    the line "<name>: <numeral> <unit>" yields the one measurement of that
    name, value and unit. *)
Theorem catalog_line_extracted (r : Range.t) (ip fp : jsstring) :
  In r values ->
  unitHasMu r = false ->
  isDecimal ip fp = true ->
  parseBloodworkText (catalogLine r (decimalText ip fp))
  = [ {| Parsed.name := Range.name r;
         Parsed.value := parseFloat (decimalText ip fp);
         Parsed.unit := Range.unit r |} ].
Proof.
  intros Hin Hmu Hnum.
  pose proof (@forallb_In _ _ values r catalog_entryOk Hin) as Hok.
  cbv beta in Hok. rewrite Hmu in Hok. cbn [orb] in Hok.
  exact (parseBloodworkText_line r ip fp Hok Hnum).
Qed.

Lemma catalog_line_extracted_witness :
  In vitaminB12Range values /\
  decimalText (lit "512") (lit "5") = lit "512.5" /\
  parseBloodworkText (catalogLine vitaminB12Range (decimalText (lit "512") (lit "5")))
  = [ {| Parsed.name := Range.name vitaminB12Range;
         Parsed.value := parseFloat (decimalText (lit "512") (lit "5"));
         Parsed.unit := Range.unit vitaminB12Range |} ].
Proof.
  assert (Hin : In vitaminB12Range values).
  { unfold values, entries, NORMAL_RANGES. cbn [map snd In].
    do 17 right. left. reflexivity. }
  split; [exact Hin|]. split; [reflexivity|].
  apply catalog_line_extracted; [exact Hin | reflexivity | reflexivity].
Defined.


(** ** Every extracted name is a catalog name *)


Lemma knownNameHits_names (line : jsstring) (pv : Parsed.t) :
  In pv (knownNameHits line) -> catalogName (Parsed.name pv).
Proof.
  unfold knownNameHits, entries. intros Hin.
  apply in_flat_map in Hin. destruct Hin as (kv & Hkv & Hin).
  destruct (testNameRegex (snd kv)); [|destruct Hin].
  destruct (test _ line); [|destruct Hin].
  destruct (match_first valuePattern line) as [valueMatch|]; [|destruct Hin].
  destruct (capture 2 (m_groups valueMatch)); [|destruct Hin].
  destruct Hin as [<-|[]]. exists (snd kv). split; [|reflexivity].
  unfold values. now apply in_map.
Qed.

Lemma genericHit_names (m : rmatch) (pv : Parsed.t) :
  In pv (genericHit m) -> catalogName (Parsed.name pv).
Proof.
  unfold genericHit. intros Hin.
  destruct (js_or (option_map trim (capture 1 (m_groups m))) _) as [tn|];
    [|destruct Hin].
  destruct (js_or (capture 3 (m_groups m)) _) as [u|]; [|destruct Hin].
  destruct (_ && _); [|destruct Hin].
  destruct (find (isKnownTest tn) values) as [knownTest|] eqn:Hfind;
    [|destruct Hin].
  destruct Hin as [<-|[]]. exists knownTest. split; [|reflexivity].
  apply find_some in Hfind. apply Hfind.
Qed.

Lemma collect_names (text : jsstring) (pv : Parsed.t) :
  In pv (collect text) -> catalogName (Parsed.name pv).
Proof.
  unfold collect. intros Hin.
  apply in_flat_map in Hin. destruct Hin as (line & _ & Hin).
  apply in_app_or in Hin. destruct Hin as [Hin|Hin].
  - now apply knownNameHits_names in Hin.
  - unfold genericHits in Hin.
    apply in_flat_map in Hin. destruct Hin as (pattern & _ & Hin).
    apply in_flat_map in Hin. destruct Hin as (m & _ & Hin).
    now apply genericHit_names in Hin.
Qed.

Lemma parseBloodworkText_In_collect (text : jsstring) (pv : Parsed.t) :
  In pv (parseBloodworkText text) -> In pv (collect text).
Proof.
  unfold parseBloodworkText. rewrite uniqueResults_firstOfEachName.
  apply Subsequence_In, firstOfEachName_subsequence.
Qed.

Lemma findRange_of_catalogName (n : jsstring) :
  catalogName n -> exists range, findRange n = Some range.
Proof.
  intros (r & Hin & ->). unfold findRange.
  destruct (find _ values) as [range|] eqn:Hfind; [now exists range|].
  pose proof (find_none _ _ Hfind r Hin) as Hne. cbv beta in Hne.
  now rewrite jsstring_eqb_refl in Hne.
Qed.

Lemma catalog_rangeText :
  forallb (fun r => negb (JsString.eqb (rangeText r) (lit "Unknown"))) values = true.
Proof. vm_compute. reflexivity. Qed.

Lemma normalRange_of_known (name : jsstring) (value : number) (unit : jsstring)
  (range : Range.t) :
  findRange name = Some range ->
  Analysis.normalRange (analyzeValue name value unit) = rangeText range.
Proof.
  unfold analyzeValue. intros ->. cbv zeta.
  destruct (ltb _ (Range.min range)); [reflexivity|].
  destruct (gtb _ (Range.max range)); reflexivity.
Qed.

(** C10.  Every measurement [parseBloodworkText] returns is named by the
    display name of a catalog entry, so the lookup of [analyzeValue] finds a
    range for it and the analysis is never the one with range "Unknown". *)
Theorem C10_names_from_catalog :
  forall (text : jsstring) (pv : Parsed.t),
    In pv (parseBloodworkText text) ->
    (exists r, In r values /\ Parsed.name pv = Range.name r) /\
    (exists range, findRange (Parsed.name pv) = Some range) /\
    Analysis.normalRange
      (analyzeValue (Parsed.name pv) (Parsed.value pv) (Parsed.unit pv))
    <> lit "Unknown".
Proof.
  intros text pv Hin.
  apply parseBloodworkText_In_collect, collect_names in Hin.
  split; [exact Hin|].
  destruct (findRange_of_catalogName Hin) as (range & Hfind).
  split; [now exists range|].
  rewrite (@normalRange_of_known _ (Parsed.value pv) (Parsed.unit pv) _ Hfind).
  apply findRange_In in Hfind. destruct Hfind as [Hr _].
  pose proof (@forallb_In _ _ values range catalog_rangeText Hr) as Hne.
  apply negb_true_iff in Hne. now apply jsstring_eqb_neq.
Qed.

Lemma C10_names_from_catalog_witness :
  In (parsed "Glucose (Fasting)" (dec 250 0) "mg/dL") (parseBloodworkText sampleReport) /\
  Analysis.normalRange
    (analyzeValue (lit "Glucose (Fasting)") (dec 250 0) (lit "mg/dL"))
  <> lit "Unknown".
Proof.
  assert (Hin : In (parsed "Glucose (Fasting)" (dec 250 0) "mg/dL")
                  (parseBloodworkText sampleReport))
    by (vm_compute; left; reflexivity).
  split; [exact Hin|].
  exact (proj2 (proj2 (@C10_names_from_catalog sampleReport _ Hin))).
Defined.

(** ** The flagged count *)


Lemma length_filter_flaggedIn (vs : list Analyzed.t) :
  List.length (filter (fun v => negb (hasStatus normal v)) vs) = flaggedIn vs.
Proof.
  induction vs as [|v vs IH]; [reflexivity|].
  cbn [filter flaggedIn]. unfold hasStatus at 1.
  destruct (Analyzed.status v); cbn; now rewrite IH.
Qed.

Lemma screen_values (u n t : jsstring) (pvs : list Parsed.t) :
  Screening.values (screen u n t pvs) = map analyze pvs.
Proof. unfold screen. destruct (generateSummary _). reflexivity. Qed.

Lemma screen_flaggedCount (u n t : jsstring) (pvs : list Parsed.t) :
  Screening.flaggedCount (screen u n t pvs)
  = flaggedIn (Screening.values (screen u n t pvs)).
Proof.
  rewrite screen_values. unfold screen. destruct (generateSummary _).
  cbn [Screening.flaggedCount]. apply length_filter_flaggedIn.
Qed.

(** ** The upload handler *)

Section UploadFacts.

Import stdpp.base stdpp.option stdpp.gmap.
Import Upload.

Variable env : Env.

Ltac run_extract Hb Hu :=
  cbv beta iota delta [ret returns throw bind console_error unlink];
  cbn [fs console snd fst];
  rewrite Hb, ?Hu;
  cbn [fs console snd fst];
  rewrite <- ?app_assoc, ?app_nil_r.

(** Text extraction with the upload staged, path by path: the PDF text, a
    failed PDF parse, an image, any other file.  On each of them the
    [finally] block has tried to unlink the staged file. *)
Lemma extractText_staged (f : File) (w : World) :
  is_Some (fs w !! tempFilePath env f) ->
  extractText env f w =
    if JsString.eqb (fileExtension f) (lit "pdf") then
      match pdfParse env (bytes f) with
      | Some text => (Normal text, afterCleanup env f [] w)
      | None =>
          (Return extractionFailure,
           afterCleanup env f [lit "Error extracting text:"] w)
      end
    else if isImageExtension (fileExtension f) then
      (Return imageResponse, afterCleanup env f [] w)
    else (Normal (decodeUtf8 env (bytes f)), afterCleanup env f [] w).
Proof.
  intros [b Hb]. unfold extractText, tryFinally, tryCatch, afterCleanup,
    cleaned, leftBehind.
  destruct (canUnlink env (tempFilePath env f)) eqn:Hu;
    (destruct (JsString.eqb (fileExtension f) (lit "pdf"));
     [destruct (pdfParse env (bytes f))
     |destruct (isImageExtension (fileExtension f))]);
    run_extract Hb Hu; reflexivity.
Qed.

Lemma afterCleanup_fs (f : File) (msgs : list jsstring) (w : World) :
  fs (afterCleanup env f msgs w)
  = if canUnlink env (tempFilePath env f)
    then delete (tempFilePath env f) (fs w) else fs w.
Proof. unfold afterCleanup. now destruct (canUnlink env _). Qed.

Lemma extractText_fs (f : File) (w : World) :
  is_Some (fs w !! tempFilePath env f) ->
  fs (snd (extractText env f w))
  = if canUnlink env (tempFilePath env f)
    then delete (tempFilePath env f) (fs w) else fs w.
Proof.
  intros Hb. rewrite (extractText_staged _ _ Hb).
  destruct (JsString.eqb _ _); [destruct (pdfParse _ _) | destruct (isImageExtension _)];
    apply afterCleanup_fs.
Qed.

(** A failed unlink is logged. *)
Lemma extractText_console (f : File) (w : World) :
  is_Some (fs w !! tempFilePath env f) ->
  canUnlink env (tempFilePath env f) = false ->
  In (lit "Error deleting temp file:") (console (snd (extractText env f w))).
Proof.
  intros Hb Hu. rewrite (extractText_staged _ _ Hb). unfold afterCleanup.
  rewrite Hu. unfold leftBehind.
  destruct (JsString.eqb _ _); [destruct (pdfParse _ _) | destruct (isImageExtension _)];
    cbn [snd console]; rewrite !in_app_iff; right; right; now left.
Qed.

(** Extraction returns early only with an error response. *)
Lemma extractText_returns (f : File) (w w' : World) (r : Response) :
  is_Some (fs w !! tempFilePath env f) ->
  extractText env f w = (Return r, w') ->
  r = extractionFailure \/ r = imageResponse.
Proof.
  intros Hb. rewrite (extractText_staged _ _ Hb).
  destruct (JsString.eqb _ _); [destruct (pdfParse _ _) | destruct (isImageExtension _)];
    intros [=]; auto.
Qed.

Lemma extractText_no_throw (f : File) (w w' : World) (e : Api.thrown) :
  is_Some (fs w !! tempFilePath env f) ->
  extractText env f w <> (Throw e, w').
Proof.
  intros Hb. rewrite (extractText_staged _ _ Hb).
  destruct (JsString.eqb _ _); [destruct (pdfParse _ _) | destruct (isImageExtension _)];
    discriminate.
Qed.

Lemma staged_lookup (f : File) (w : World) :
  fs (staged env f w) !! tempFilePath env f = Some (bytes f).
Proof. unfold staged. cbn [fs]. apply lookup_insert_eq. Qed.

(** Saving: without the client's environment, and when the insert rejects,
    the body throws; an error of the database is logged.  The file system
    is not touched. *)
Lemma save_outcome (result : Screening.t) (w : World) :
  fs (snd (save env result w)) = fs w /\
  fst (save env result w)
  = if truthy (History.NEXT_PUBLIC_SUPABASE_URL (processEnv env))
       && truthy (History.NEXT_PUBLIC_SUPABASE_PUBLISHABLE_KEY (processEnv env))
    then
      match dbInsert env result with
      | Saved id => Return (ResultResponse result (Some id) None)
      | DbError =>
          Return
            (ResultResponse result None
               (Some (lit "Results processed but could not be saved to database.")))
      | InsertRejected e => Throw e
      end
    else Throw (Api.Error History.missingEnvironment).
Proof.
  unfold save, bind, onConsole, History.createSupabaseServerClient.
  cbv zeta.
  destruct (truthy (History.NEXT_PUBLIC_SUPABASE_URL (processEnv env)));
    [destruct (truthy (History.NEXT_PUBLIC_SUPABASE_PUBLISHABLE_KEY (processEnv env)))|];
    cbn [negb orb andb]; unfold Async.throw, Async.ret; cbv beta iota;
    try (split; reflexivity).
  destruct (dbInsert env result); split; reflexivity.
Qed.

(** The handler past the staging: what is left of [POST] once
    [fs.writeFile] has succeeded. *)
Lemma handle_staged (req : Request) (f : File) (w : World) :
  file req = Some f -> truthy (userId req) = true ->
  canWrite env (tempFilePath env f) = true ->
  exists c w2,
    extractText env f (staged env f w) = (c, w2) /\
    fs (snd (POST env req w)) = fs w2 /\
    match c with
    | Normal text =>
        fst (POST env req w) =
          (let parsedValues := parseBloodworkText text in
           if Nat.eqb (List.length parsedValues) 0 then
             ErrorResponse 400
               (lit "Could not extract bloodwork values from the file.")
               (Some (lit "Please ensure your file contains readable bloodwork results with test names and values."))
               (Some (firstn 500 text)) None
           else
             let result :=
               screen (default [] (userId req)) (name f) (isoNow env) parsedValues in
             match fst (save env result w2) with
             | Return r => r
             | Throw e =>
                 ErrorResponse 500 (lit "Internal server error") None None
                   (Some (History.detailsOf e))
             | Normal a => match a with end
             end)
    | Return r => fst (POST env req w) = r
    | Throw e => False
    end.
Proof.
  intros Hf Hu Hw.
  destruct (extractText env f (staged env f w)) as [c w2] eqn:Hx.
  exists c, w2. split; [reflexivity|].
  unfold POST, handle. rewrite Hf, Hu. cbn [negb].
  cbv beta delta [bind writeFile]. rewrite Hw. cbv beta iota.
  fold (staged env f w). rewrite Hx.
  destruct c as [text|r|e].
  - cbv beta iota zeta. destruct (Nat.eqb _ 0); [split; reflexivity|].
    pose proof (save_outcome
                  (screen (default [] (userId req)) (name f) (isoNow env)
                     (parseBloodworkText text)) w2) as [Hfs _].
    destruct (save env _ w2) as [[a|r|e] w3]; cbn [fst snd] in *;
      [destruct a | |]; split; try reflexivity; exact Hfs.
  - split; reflexivity.
  - exfalso. eapply extractText_no_throw; [|exact Hx].
    rewrite staged_lookup. eauto.
Qed.

(** C9.  Once [fs.writeFile] has staged the upload, the
    handler tries to unlink the staged file before it returns, on every
    path: a PDF whose text is extracted, a PDF whose parse fails (the 500
    response), an image (the 400 response returned from inside the [try])
    and any other file read as text.  When [fs.unlink] succeeds the file is
    gone; when it fails the failure is logged and the file is still there.
    No other file is touched, and the two error responses do not depend on
    the unlink. *)
Theorem C9_staged_file_cleanup :
  forall (req : Request) (w : World) (f : File),
    file req = Some f ->
    truthy (userId req) = true ->
    canWrite env (tempFilePath env f) = true ->
    let path := tempFilePath env f in
    let response := fst (POST env req w) in
    let final := snd (POST env req w) in
    writeFile env path (bytes f) w = (Normal tt, staged env f w) /\
    fs (staged env f w) !! path = Some (bytes f) /\
    (canUnlink env path = true -> fs final !! path = None) /\
    (canUnlink env path = false ->
       fs final !! path = Some (bytes f) /\
       In (lit "Error deleting temp file:") (console final)) /\
    (forall p, p <> path -> fs final !! p = fs w !! p) /\
    (fileExtension f = lit "pdf" -> pdfParse env (bytes f) = None ->
       response = extractionFailure) /\
    (fileExtension f <> lit "pdf" -> isImageExtension (fileExtension f) = true ->
       response = imageResponse).
Proof.
  intros req w f Hf Hu Hw path response final.
  assert (Hstaged : is_Some (fs (staged env f w) !! path))
    by (unfold path; rewrite staged_lookup; eauto).
  assert (Hconsole : canUnlink env path = false ->
            In (lit "Error deleting temp file:") (console final)).
  { intros Hno. unfold final, POST, handle. rewrite Hf, Hu. cbn [negb].
    cbv beta delta [bind writeFile]. rewrite Hw. cbv beta iota.
    fold (staged env f w).
    pose proof (extractText_console _ _ Hstaged Hno) as Hlog.
    pose proof (@extractText_no_throw f (staged env f w)) as Hnt.
    destruct (extractText env f (staged env f w)) as [[text|r|e] w2];
      cbn [snd] in Hlog.
    - cbv beta iota zeta. destruct (Nat.eqb _ 0); [exact Hlog|].
      unfold save, bind, onConsole, History.createSupabaseServerClient.
      cbv zeta.
      destruct (negb _ || negb _);
        unfold Async.throw, Async.ret; cbv beta iota; cbn [snd console].
      + apply in_or_app. now left.
      + destruct (dbInsert env _);
          unfold returns, throw, bind, console_error; cbn [snd console];
          rewrite ?in_app_iff; auto.
    - exact Hlog.
    - exfalso. exact (Hnt w2 e Hstaged eq_refl). }
  destruct (handle_staged req w Hf Hu Hw) as (c & w2 & Hx & Hfs & Hresp).
  fold final in Hfs. fold response in Hresp.
  assert (Hw2 : fs w2 = if canUnlink env path
                        then delete path (fs (staged env f w))
                        else fs (staged env f w)).
  { pose proof (extractText_fs _ _ Hstaged) as H. rewrite Hx in H. exact H. }
  split; [unfold writeFile, path; now rewrite Hw|].
  split; [apply staged_lookup|].
  split; [intros Hyes; rewrite Hfs, Hw2, Hyes; apply lookup_delete_eq|].
  split.
  { intros Hno. split; [|exact (Hconsole Hno)].
    rewrite Hfs, Hw2, Hno. apply staged_lookup. }
  split.
  { intros p Hp. rewrite Hfs, Hw2.
    destruct (canUnlink env path).
    - rewrite lookup_delete_ne by congruence.
      unfold staged. cbn [fs]. fold path.
      now rewrite lookup_insert_ne by congruence.
    - unfold staged. cbn [fs]. fold path.
      now rewrite lookup_insert_ne by congruence. }
  rewrite (extractText_staged _ _ Hstaged) in Hx.
  split.
  - intros Hpdf Hnone. rewrite Hpdf, jsstring_eqb_refl, Hnone in Hx.
    injection Hx as <- _. exact Hresp.
  - intros Hpdf Himg. apply jsstring_eqb_neq in Hpdf.
    rewrite Hpdf, Himg in Hx. injection Hx as <- _. exact Hresp.
Qed.

(** C6.  Whenever the handler answers with a screening result, the flagged
    count of that result is the number of its values whose status is not
    normal. *)
Theorem C6_flagged_count :
  forall (req : Request) (w w' : World) (result : Screening.t)
         (id warning : option jsstring),
    POST env req w = (ResultResponse result id warning, w') ->
    Screening.flaggedCount result = flaggedIn (Screening.values result).
Proof.
  intros req w w' result id warning HP.
  assert (Hresp : fst (POST env req w) = ResultResponse result id warning)
    by (now rewrite HP).
  clear HP. revert Hresp.
  destruct (file req) as [f|] eqn:Hf;
    [|unfold POST, handle; rewrite Hf; discriminate].
  destruct (truthy (userId req)) eqn:Hu;
    [|unfold POST, handle; rewrite Hf, Hu; discriminate].
  destruct (canWrite env (tempFilePath env f)) eqn:Hw.
  - destruct (handle_staged req w Hf Hu Hw) as (c & w2 & Hx & _ & Hresp).
    destruct c as [text|r|e]; [| |destruct Hresp].
    + rewrite Hresp. cbv zeta.
      destruct (Nat.eqb _ 0); [discriminate|].
      rewrite (proj2 (save_outcome _ w2)).
      destruct (_ && _); [|discriminate].
      destruct (dbInsert env _); try discriminate;
        intros [= <- _ _]; apply screen_flaggedCount.
    + rewrite Hresp. apply extractText_returns in Hx;
        [|rewrite staged_lookup; eauto].
      destruct Hx as [-> | ->]; discriminate.
  - unfold POST, handle. rewrite Hf, Hu. cbn [negb].
    cbv beta delta [bind writeFile]. rewrite Hw. discriminate.
Qed.

End UploadFacts.
(** *** The handler on sample uploads *)

Section UploadSamples.

Import stdpp.base stdpp.option stdpp.gmap.
Import Upload Samples.

Lemma C9_staged_file_cleanup_witness :
  fs (snd (POST sampleEnv (upload imageFile) emptyWorld))
    !! tempFilePath sampleEnv imageFile = None /\
  fst (POST sampleEnv (upload imageFile) emptyWorld) = imageResponse.
Proof.
  destruct (@C9_staged_file_cleanup sampleEnv (upload imageFile) emptyWorld
              imageFile eq_refl eq_refl eq_refl)
    as (_ & _ & Hgone & _ & _ & _ & Himage).
  split; [apply Hgone; reflexivity|].
  apply Himage.
  - vm_compute. discriminate.
  - vm_compute. reflexivity.
Defined.

(** C9, the other way round.  Where the runtime cannot remove the staged
    file, the handler answers the upload all the same, and the file is
    still there when it returns: after a successful extraction and after
    the early return for an image. *)
Lemma C9_unlink_failure_leaves_file :
  (exists result id warning,
     fst (POST stickyEnv (upload textFile) emptyWorld)
     = ResultResponse result id warning) /\
  fs (snd (POST stickyEnv (upload textFile) emptyWorld))
    !! tempFilePath stickyEnv textFile = Some (bytes textFile) /\
  fs (snd (POST stickyEnv (upload imageFile) emptyWorld))
    !! tempFilePath stickyEnv imageFile = Some (bytes imageFile).
Proof.
  split; [|split].
  - destruct (fst (POST stickyEnv (upload textFile) emptyWorld))
      as [st msg sug preview details | result id warning] eqn:HP.
    + vm_compute in HP. discriminate HP.
    + now exists result, id, warning.
  - vm_compute. reflexivity.
  - vm_compute. reflexivity.
Qed.

Lemma C6_flagged_count_witness :
  exists result id warning w',
    POST sampleEnv (upload textFile) emptyWorld
    = (ResultResponse result id warning, w') /\
    Screening.flaggedCount result = flaggedIn (Screening.values result).
Proof.
  destruct (POST sampleEnv (upload textFile) emptyWorld) as [resp w'] eqn:HP.
  destruct resp as [st msg sug preview details | result id warning].
  - vm_compute in HP. discriminate HP.
  - exists result, id, warning, w'. split; [reflexivity|].
    exact (@C6_flagged_count sampleEnv _ _ _ _ _ _ HP).
Defined.

End UploadSamples.

(** ** End to end *)

Lemma sampleReport_parsed :
  parseBloodworkText sampleReport
  = [parsed "Glucose (Fasting)" (dec 250 0) "mg/dL";
     parsed "Hemoglobin" (dec 14 0) "g/dL"].
Proof. vm_compute. reflexivity. Qed.

(** C7.  The text "Glucose: 250 mg/dL", newline, "Hemoglobin: 14 g/dL"
    yields exactly two measurements; glucose is critical, on the high side
    (250 exceeds 100 * 1.5), hemoglobin is normal, the flagged count is 1 and
    the summary is the critical alert for one value followed by the closing
    sentence. *)
Theorem C7_end_to_end :
  parseBloodworkText sampleReport
  = [parsed "Glucose (Fasting)" (dec 250 0) "mg/dL";
     parsed "Hemoglobin" (dec 14 0) "g/dL"] /\
  (forall userId fileName uploadedAt : jsstring,
     let result :=
       screen userId fileName uploadedAt (parseBloodworkText sampleReport) in
     map (fun v => (Analyzed.name v, Analyzed.status v)) (Screening.values result)
       = [(lit "Glucose (Fasting)", critical); (lit "Hemoglobin", normal)] /\
     gtb (dec 250 0) (highCut glucoseRange) = true /\
     Screening.flaggedCount result = 1 /\
     Screening.summary result = criticalSummary 1 ++ closingSentence /\
     startsWith (lit "⚠️ Your bloodwork shows 1 critical value(s)")
       (Screening.summary result) = true /\
     Screening.recommendations result = criticalRecommendations).
Proof.
  split; [exact sampleReport_parsed|].
  intros userId fileName uploadedAt result. subst result.
  rewrite sampleReport_parsed. vm_compute. repeat split; reflexivity.
Qed.
(** *** What a match captures *)

Lemma star_loop_ran (r : regex) (k : kont) (st : state) :
  (forall pos s c k', run r pos s c k' = Some st -> ran r pos s c k' st) ->
  forall fuel pos s c,
    star_loop (run r) k fuel pos s c = Some st -> ran (Star r) pos s c k st.
Proof.
  intros IHr. induction fuel as [|fuel IH]; intros pos s c H; cbn [star_loop] in H.
  - exists [], s, c. rewrite Nat.add_0_r. repeat split; [constructor | exact H].
  - destruct (run r pos s c _) as [st'|] eqn:Hbody.
    + injection H as ->. apply IHr in Hbody.
      destruct Hbody as (a & b & c' & -> & Ha & Hk).
      destruct (Nat.ltb pos (pos + List.length a)); [|discriminate].
      apply IH in Hk. destruct Hk as (a2 & b2 & c2 & -> & Ha2 & Hk).
      exists (a ++ a2), b2, c2. rewrite <- app_assoc, length_app, Nat.add_assoc.
      repeat split; [now apply caught_star_cons with (c1 := c') | exact Hk].
    + exists [], s, c. rewrite Nat.add_0_r.
      repeat split; [constructor | exact H].
Qed.

Lemma run_ran (r : regex) :
  forall pos s c k st, run r pos s c k = Some st -> ran r pos s c k st.
Proof.
  induction r as [| |p|r1 IH1 r2 IH2|r1 IH1 r2 IH2|r IH|i r IH];
    intros pos s c k st H.
  - exists [], s, c. rewrite Nat.add_0_r. repeat split; [constructor | exact H].
  - cbn [run] in H. destruct pos; [|discriminate].
    exists [], s, c. repeat split; [constructor | exact H].
  - cbn [run] in H. destruct s as [|x s]; [discriminate|].
    destruct (p x) eqn:Hx; [|discriminate].
    exists [x], s, c. cbn [List.length]. rewrite Nat.add_1_r.
    repeat split; [now constructor | exact H].
  - cbn [run] in H. apply IH1 in H. destruct H as (a & b & c1 & -> & Ha & H).
    apply IH2 in H. destruct H as (a2 & b2 & c2 & -> & Ha2 & H).
    exists (a ++ a2), b2, c2. rewrite <- app_assoc, length_app, Nat.add_assoc.
    repeat split; [now apply caught_seq with (c1 := c1) | exact H].
  - cbn [run] in H. destruct (run r1 pos s c k) as [st'|] eqn:H1.
    + injection H as ->. apply IH1 in H1.
      destruct H1 as (a & b & c' & -> & Ha & Hk).
      exists a, b, c'. repeat split; [now apply caught_alt_l | exact Hk].
    + apply IH2 in H. destruct H as (a & b & c' & -> & Ha & Hk).
      exists a, b, c'. repeat split; [now apply caught_alt_r | exact Hk].
  - cbn [run] in H. eapply star_loop_ran; [|exact H].
    intros pos' s' c' k' Hr. now apply IH in Hr.
  - cbn [run] in H. apply IH in H. destruct H as (a & b & c' & -> & Ha & Hk).
    exists a, b, ((i, a) :: c'). repeat split; [now constructor|].
    replace (pos + List.length a - pos) with (List.length a + 0) in Hk by lia.
    rewrite firstn_app_2 in Hk. cbn [firstn] in Hk.
    now rewrite app_nil_r in Hk.
Qed.

(** What is caught is a text of the pattern. *)
Lemma caught_lang (r : regex) (pos : nat) (a : jsstring) (c c' : captures) :
  caught r pos a c c' -> lang r pos a.
Proof. induction 1; now econstructor; eauto. Qed.

Lemma caught_groupFree (r : regex) (pos : nat) (a : jsstring) (c c' : captures) :
  caught r pos a c c' -> groupFree r = true -> c' = c.
Proof.
  induction 1; cbn [groupFree]; intros Hg; try reflexivity; try discriminate.
  - apply andb_prop in Hg. destruct Hg as [H1 H2].
    rewrite (IHcaught2 H2). now apply IHcaught1.
  - apply andb_prop in Hg. now apply IHcaught.
  - apply andb_prop in Hg. now apply IHcaught.
  - rewrite (IHcaught2 Hg). now apply IHcaught1.
Qed.

Lemma caught_seq_inv (r1 r2 : regex) (pos : nat) (a : jsstring) (c c2 : captures) :
  caught (Seq r1 r2) pos a c c2 ->
  exists a1 a2 c1, a = a1 ++ a2 /\ caught r1 pos a1 c c1
                   /\ caught r2 (pos + List.length a1) a2 c1 c2.
Proof. inversion 1; subst; eauto 6. Qed.

(** A group around a pattern without groups pushes its own text. *)
Lemma caught_group_inv (i : nat) (r : regex) (pos : nat) (a : jsstring)
  (c c' : captures) :
  groupFree r = true ->
  caught (Group i r) pos a c c' -> c' = (i, a) :: c /\ lang r pos a.
Proof.
  intros Hg H. inversion H; subst.
  match goal with Hc : caught r _ _ _ _ |- _ =>
    rewrite (caught_groupFree Hc Hg); split;
      [reflexivity | exact (caught_lang Hc)] end.
Qed.

(** *** Where the matches of a search come from *)

Lemma match_at_ran (r : regex) (input : jsstring) (i : nat) (m : rmatch) :
  match_at r input i = Some m ->
  exists a b, skipn i input = a ++ b /\ caught r i a [] (m_groups m).
Proof.
  unfold match_at. intros H.
  destruct (run r i (skipn i input) [] _) as [[e c]|] eqn:Hrun; [|discriminate].
  injection H as <-. apply run_ran in Hrun.
  destruct Hrun as (a & b & c' & E & Ha & Hk). injection Hk as _ <-.
  exists a, b. split; [exact E | exact Ha].
Qed.

Lemma exec_from_ran (r : regex) (input : jsstring) (steps i : nat) (m : rmatch) :
  exec_from r input i steps = Some m -> exists j, match_at r input j = Some m.
Proof.
  revert i. induction steps as [|steps IH]; intros i H; cbn [exec_from] in H.
  - destruct (match_at r input i) eqn:E; [|discriminate].
    exists i. now rewrite E.
  - destruct (match_at r input i) eqn:E.
    + exists i. now rewrite E.
    + now apply IH in H.
Qed.

Lemma matchAll_from_ran (r : regex) (input : jsstring) (fuel i : nat) (m : rmatch) :
  In m (matchAll_from r input i fuel) -> exists j, match_at r input j = Some m.
Proof.
  revert i. induction fuel as [|fuel IH]; intros i H; cbn [matchAll_from] in H.
  - destruct H.
  - destruct (Nat.ltb (List.length input) i); [destruct H|].
    destruct (exec r input i) as [m0|] eqn:E; [|destruct H].
    destruct H as [<-|H].
    + unfold exec in E. now apply exec_from_ran in E.
    + now apply IH in H.
Qed.

Lemma matchAll_ran (r : regex) (input : jsstring) (m : rmatch) :
  In m (matchAll r input) -> exists j, match_at r input j = Some m.
Proof. apply matchAll_from_ran. Qed.

Lemma match_first_ran (r : regex) (input : jsstring) (m : rmatch) :
  match_first r input = Some m -> exists j, match_at r input j = Some m.
Proof. apply exec_from_ran. Qed.

(** *** The groups of the three patterns *)

Lemma caught_numberGroup (i pos : nat) (a : jsstring) (c c' : captures) :
  caught (numberGroup i) pos a c c' ->
  c' = (i, a) :: c /\ numberText a = true.
Proof.
  intros H. pose proof (caught_lang H) as Hl.
  apply lang_numberGroup in Hl. destruct Hl as (x & t & -> & Hx & Ht).
  unfold numberGroup in H. apply caught_group_inv in H; [|reflexivity].
  destruct H as [-> _]. split; [reflexivity|].
  cbn [numberText]. now rewrite Hx, Ht.
Qed.

Lemma caught_unitGroup (i pos : nat) (a : jsstring) (c c' : captures) :
  caught (unitGroup i) pos a c c' ->
  c' = (i, a) :: c /\ blockOf unitChar a = true.
Proof.
  unfold unitGroup. intros H. apply caught_group_inv in H; [|reflexivity].
  destruct H as [-> Hl]. split; [reflexivity | now apply lang_plus_chr in Hl].
Qed.

Lemma caught_nameGroup (i pos : nat) (a : jsstring) (c c' : captures) :
  caught (nameGroup i) pos a c c' -> c' = (i, a) :: c /\ a <> [].
Proof.
  unfold nameGroup. intros H. apply caught_group_inv in H; [|reflexivity].
  destruct H as [-> Hl]. split; [reflexivity|].
  unfold seq in Hl. cbn [fold_right] in Hl. apply lang_seq_inv in Hl.
  destruct Hl as (nm & rest & -> & Hnm & _).
  apply lang_plus_chr, app_block_start in Hnm.
  destruct Hnm as (y & w & -> & _). discriminate.
Qed.

(** Skip a part of a sequence that has no group. *)
Ltac skip_part H :=
  let a := fresh "a" in let b := fresh "b" in let c1 := fresh "c" in
  let Ha := fresh "Ha" in
  apply caught_seq_inv in H; destruct H as (a & b & c1 & -> & Ha & H);
  apply caught_groupFree in Ha; [subst c1 | reflexivity].

Lemma caught_valuePattern (pos : nat) (a : jsstring) (c' : captures) :
  caught valuePattern pos a [] c' ->
  exists an au, c' = [(2, au); (1, an)]
                /\ numberText an = true /\ blockOf unitChar au = true.
Proof.
  unfold valuePattern, seq. cbn [fold_right]. intros H.
  apply caught_seq_inv in H. destruct H as (an & b1 & c1 & -> & Hn & H).
  apply caught_numberGroup in Hn. destruct Hn as [-> Hn].
  skip_part H.
  apply caught_seq_inv in H. destruct H as (au & b2 & c2 & -> & Hu & H).
  apply caught_unitGroup in Hu. destruct Hu as [-> Hu].
  inversion H; subst. now exists an, au.
Qed.

Lemma caught_pattern1 (pos : nat) (a : jsstring) (c' : captures) :
  caught pattern1 pos a [] c' ->
  exists nm an au, c' = [(3, au); (2, an); (1, nm)] /\ nm <> []
                   /\ numberText an = true /\ blockOf unitChar au = true.
Proof.
  unfold pattern1, seq. cbn [fold_right]. intros H.
  skip_part H.
  apply caught_seq_inv in H. destruct H as (nm & b1 & c1 & -> & Hnm & H).
  apply caught_nameGroup in Hnm. destruct Hnm as [-> Hnm].
  skip_part H. skip_part H. skip_part H.
  apply caught_seq_inv in H. destruct H as (an & b2 & c2 & -> & Hn & H).
  apply caught_numberGroup in Hn. destruct Hn as [-> Hn].
  skip_part H.
  apply caught_seq_inv in H. destruct H as (au & b3 & c3 & -> & Hu & H).
  apply caught_unitGroup in Hu. destruct Hu as [-> Hu].
  inversion H; subst. now exists nm, an, au.
Qed.

Lemma caught_pattern2 (pos : nat) (a : jsstring) (c' : captures) :
  caught pattern2 pos a [] c' ->
  exists an au nm, c' = [(3, nm); (2, au); (1, an)] /\ nm <> []
                   /\ numberText an = true /\ blockOf unitChar au = true.
Proof.
  unfold pattern2, seq. cbn [fold_right]. intros H.
  apply caught_seq_inv in H. destruct H as (an & b1 & c1 & -> & Hn & H).
  apply caught_numberGroup in Hn. destruct Hn as [-> Hn].
  skip_part H.
  apply caught_seq_inv in H. destruct H as (au & b2 & c2 & -> & Hu & H).
  apply caught_unitGroup in Hu. destruct Hu as [-> Hu].
  skip_part H.
  apply caught_seq_inv in H. destruct H as (nm & b3 & c3 & -> & Hnm & H).
  apply caught_nameGroup in Hnm. destruct Hnm as [-> Hnm].
  inversion H; subst. now exists an, au, nm.
Qed.

(** Every text the three patterns consume holds a digit. *)
Lemma numberText_digit (an rest : jsstring) :
  numberText an = true -> existsb isDigit (an ++ rest) = true.
Proof.
  destruct an as [|x t]; [discriminate|]. cbn [numberText app existsb].
  intros H. apply andb_prop in H. destruct H as [-> _]. reflexivity.
Qed.

Lemma existsb_app_r {A} (f : A -> bool) (l1 l2 : list A) :
  existsb f l2 = true -> existsb f (l1 ++ l2) = true.
Proof. intros H. rewrite existsb_app, H. apply orb_true_r. Qed.

Lemma existsb_app_l {A} (f : A -> bool) (l1 l2 : list A) :
  existsb f l1 = true -> existsb f (l1 ++ l2) = true.
Proof. intros H. now rewrite existsb_app, H. Qed.

Lemma lang_numberGroup_digit (i pos : nat) (a : jsstring) :
  lang (numberGroup i) pos a -> existsb isDigit a = true.
Proof.
  intros H. apply lang_numberGroup in H. destruct H as (x & t & -> & Hx & _).
  cbn [existsb]. now rewrite Hx.
Qed.

Lemma lang_pattern_digit (r : regex) (pos : nat) (a : jsstring) :
  In r [valuePattern; pattern1; pattern2] -> lang r pos a ->
  existsb isDigit a = true.
Proof.
  intros [<-|[<-|[<-|[]]]] H.
  - unfold valuePattern, seq in H. cbn [fold_right] in H.
    apply lang_seq_inv in H. destruct H as (an & b & -> & Hn & _).
    apply existsb_app_l. now apply lang_numberGroup_digit in Hn.
  - unfold pattern1, seq in H. cbn [fold_right] in H.
    do 5 (apply lang_seq_inv in H; destruct H as (? & ? & -> & _ & H);
          apply existsb_app_r).
    apply lang_seq_inv in H. destruct H as (an & b & -> & Hn & _).
    apply existsb_app_l. now apply lang_numberGroup_digit in Hn.
  - unfold pattern2, seq in H. cbn [fold_right] in H.
    apply lang_seq_inv in H. destruct H as (an & b & -> & Hn & _).
    apply existsb_app_l. now apply lang_numberGroup_digit in Hn.
Qed.

Lemma existsb_skipn {A} (f : A -> bool) (i : nat) (l : list A) :
  existsb f (skipn i l) = true -> existsb f l = true.
Proof.
  intros H. rewrite <- (firstn_skipn i l). now apply existsb_app_r.
Qed.

(** Without a digit in the line, none of the three patterns matches. *)
Lemma match_at_digit (r : regex) (input : jsstring) (i : nat) (m : rmatch) :
  In r [valuePattern; pattern1; pattern2] ->
  match_at r input i = Some m -> existsb isDigit input = true.
Proof.
  intros Hr H. apply match_at_ran in H. destruct H as (a & b & E & Ha).
  apply existsb_skipn with (i := i). rewrite E. apply existsb_app_l.
  exact (@lang_pattern_digit r i a Hr (caught_lang Ha)).
Qed.

(** *** Numbers read from the groups *)

Section Rounding.

Let nonneg (mrs : shr_record) : Prop := (0 <= shr_m mrs)%Z.

Lemma shr_1_nonneg (mrs : shr_record) : nonneg mrs -> nonneg (shr_1 mrs).
Proof.
  unfold nonneg. destruct mrs as [m r s]. cbn [shr_m].
  destruct m as [|p|p]; [| |lia]; intros _.
  - cbn. lia.
  - destruct p; cbn; lia.
Qed.

Lemma iter_pos_nonneg (n : positive) (mrs : shr_record) :
  nonneg mrs -> nonneg (iter_pos shr_1 n mrs).
Proof.
  revert mrs. induction n as [n IH|n IH|]; intros mrs H; cbn [iter_pos].
  - apply IH, IH. now apply shr_1_nonneg.
  - now apply IH, IH.
  - now apply shr_1_nonneg.
Qed.

Lemma shr_fexp_nonneg (m e : Z) (l : location) :
  (0 <= m)%Z -> nonneg (fst (shr_fexp prec emax m e l)).
Proof.
  intros Hm. unfold shr_fexp, shr.
  assert (H0 : nonneg (shr_record_of_loc m l)).
  { unfold nonneg. destruct l as [|[]]; exact Hm. }
  destruct (_ - e)%Z; cbn [fst]; [exact H0 | | exact H0].
  now apply iter_pos_nonneg.
Qed.

Lemma round_nearest_even_nonneg (m : Z) (l : location) :
  (0 <= m)%Z -> (0 <= round_nearest_even m l)%Z.
Proof.
  intros Hm. destruct l as [|[]]; cbn [round_nearest_even]; try lia.
  destruct (Z.even m); lia.
Qed.

Lemma binary_round_aux_nonNegative (m e : Z) (l : location) :
  (0 <= m)%Z -> nonNegative (binary_round_aux prec emax false m e l) = true.
Proof.
  intros Hm. unfold binary_round_aux.
  pose proof (shr_fexp_nonneg e l Hm) as H1.
  destruct (shr_fexp prec emax m e l) as [mrs' e']. cbn [fst] in H1.
  pose proof (@shr_fexp_nonneg
                (round_nearest_even (shr_m mrs') (loc_of_shr_record mrs'))
                e' loc_Exact (round_nearest_even_nonneg _ H1)) as H2.
  destruct (shr_fexp prec emax _ e' loc_Exact) as [mrs'' e''].
  cbn [fst] in H2. unfold nonneg in H2.
  destruct (shr_m mrs'') as [|p|p]; [reflexivity | | lia].
  destruct (e'' <=? emax - prec)%Z; reflexivity.
Qed.

End Rounding.

(** A decimal numeral without a minus sign reads as a number that is not
    NaN and not negative. *)
Lemma of_decimal_nonNegative (m : N) (e : Z) :
  nonNegative (of_decimal false m e) = true.
Proof.
  unfold of_decimal. destruct m as [|p]; [reflexivity|].
  destruct e as [|k|k].
  - unfold binary_round. destruct (shl_align _ _ _) as [mz ez].
    now apply binary_round_aux_nonNegative.
  - unfold binary_round. destruct (shl_align _ _ _) as [mz ez].
    now apply binary_round_aux_nonNegative.
  - unfold SFdiv, SFdiv_core_binary. cbv zeta.
    match goal with |- context [Z.div_eucl ?a ?b] =>
      pose proof (Z.div_eucl_eq a b ltac:(lia)) as Hq;
      pose proof (Z.mod_pos_bound a b ltac:(lia)) as Hr;
      assert (Ha : (0 <= a)%Z);
      [| unfold Z.modulo in Hr; destruct (Z.div_eucl a b) as [q r] ]
    end.
    + destruct (_ - _ - _)%Z; try lia. apply Z.shiftl_nonneg. lia.
    + cbn [xorb]. apply binary_round_aux_nonNegative. nia.
Qed.

Lemma readSign_other (x : N) (t : jsstring) :
  x <> 43%N -> x <> 45%N -> readSign (x :: t) = (false, x :: t).
Proof.
  intros H1 H2. unfold readSign. destruct x as [|p]; [reflexivity|].
  do 6 (try destruct p as [p|p|]); try reflexivity; congruence.
Qed.

Lemma parseFloat_readSign (str : jsstring) :
  parseFloat str =
    let '(neg, s) := readSign (trimStart str) in
    if startsWith (lit "Infinity") s then S754_infinity neg
    else
      let (ip, s1) := span isDigit s in
      let '(fp, s2) :=
        match s1 with
        | 46%N :: t =>
            let (f, u) := span isDigit t in
            match ip, f with
            | [], [] => ([], s1)
            | _, _ => (f, u)
            end
        | _ => ([], s1)
        end in
      match ip ++ fp with
      | [] => NaN
      | ds => of_decimal neg (digits_val ds)
                (parse_exponent s2 - Z.of_nat (List.length fp))
      end.
Proof. reflexivity. Qed.

(** A text that starts with neither white space nor a sign never reads as
    a negative number. *)
Lemma parseFloat_unsigned (x : N) (t : jsstring) :
  isSpace x = false -> x <> 43%N -> x <> 45%N ->
  isNaN (parseFloat (x :: t)) || nonNegative (parseFloat (x :: t)) = true.
Proof.
  intros Hsp H1 H2. rewrite parseFloat_readSign.
  unfold trimStart. cbn [dropWhile]. rewrite Hsp.
  rewrite (readSign_other t H1 H2).
  destruct (startsWith _ _); [reflexivity|].
  destruct (span isDigit (x :: t)) as [ip s1].
  destruct (match s1 with [] => _ | _ :: _ => _ end) as [fp s2].
  destruct (ip ++ fp) as [|d ds]; [reflexivity|].
  rewrite of_decimal_nonNegative. apply orb_true_r.
Qed.

(** The text of a number group reads as a number that is neither NaN nor
    negative. *)
Lemma parseFloat_numberText (an : jsstring) :
  numberText an = true -> nonNegative (parseFloat an) = true.
Proof.
  destruct an as [|x t]; [discriminate|]. cbn [numberText]. intros H.
  apply andb_prop in H. destruct H as [Hx _].
  rewrite parseFloat_readSign. unfold trimStart. cbn [dropWhile].
  rewrite (digit_not_space _ Hx).
  assert (Hs : readSign (x :: t) = (false, x :: t)).
  { apply readSign_other; intros ->; discriminate. }
  rewrite Hs.
  assert (Hinf : startsWith (lit "Infinity") (x :: t) = false).
  { apply digit_cases in Hx. cbn [In] in Hx.
    repeat (destruct Hx as [<-|Hx]; [reflexivity|]). destruct Hx. }
  rewrite Hinf. cbn [span]. rewrite Hx.
  destruct (span isDigit t) as [ip s1].
  destruct (match s1 with [] => _ | _ :: _ => _ end) as [fp s2].
  cbn [app]. apply of_decimal_nonNegative.
Qed.

(** The text of a unit group reads as NaN, unless it starts with
    "Infinity". *)
Lemma parseFloat_unitText (au : jsstring) :
  blockOf unitChar au = true ->
  parseFloat au
  = if startsWith (lit "Infinity") au then S754_infinity false else NaN.
Proof.
  intros H. apply app_block_start in H. destruct H as (x & t & -> & Hx).
  assert (Hsp : isSpace x = false).
  { destruct (isSpace x) eqn:E; [|reflexivity].
    unfold unitChar, isLetter, isUpper, isLower in Hx. unfold isSpace in E.
    repeat rewrite ?orb_true_iff, ?andb_true_iff, ?N.leb_le, ?N.eqb_eq in Hx.
    repeat rewrite ?orb_true_iff, ?andb_true_iff, ?N.leb_le, ?N.eqb_eq in E. lia. }
  assert (Hd : isDigit x = false).
  { destruct (isDigit x) eqn:E; [|reflexivity].
    now rewrite (digit_not_unitChar _ E) in Hx. }
  assert (H43 : x <> 43%N) by (intros ->; discriminate).
  assert (H45 : x <> 45%N) by (intros ->; discriminate).
  assert (H46 : x <> 46%N) by (intros ->; discriminate).
  rewrite parseFloat_readSign. unfold trimStart. cbn [dropWhile].
  rewrite Hsp, (readSign_other t H43 H45).
  destruct (startsWith _ _); [reflexivity|].
  cbn [span]. rewrite Hd.
  destruct x as [|p]; [reflexivity|].
  do 6 (try destruct p as [p|p|]); try reflexivity; congruence.
Qed.

(** *** What a hit carries *)

Lemma knownNameHits_groups (line : jsstring) (pv : Parsed.t) :
  In pv (knownNameHits line) ->
  exists an au, numberText an = true /\ blockOf unitChar au = true
                /\ Parsed.value pv = parseFloat an /\ Parsed.unit pv = au.
Proof.
  unfold knownNameHits. intros H. apply in_flat_map in H.
  destruct H as (kv & _ & H).
  destruct (testNameRegex (snd kv)) as [re|]; [|destruct H].
  destruct (test re line); [|destruct H].
  destruct (match_first valuePattern line) as [m|] eqn:Hm; [|destruct H].
  apply match_first_ran in Hm. destruct Hm as (j & Hm).
  apply match_at_ran in Hm. destruct Hm as (a & b & _ & Hc).
  apply caught_valuePattern in Hc. destruct Hc as (an & au & Hg & Hn & Hu).
  rewrite Hg in H. cbn [capture Nat.eqb parseFloat_opt] in H. destruct H as [<-|[]].
  now exists an, au.
Qed.

Lemma blockOf_nonempty (p : N -> bool) (a : jsstring) :
  blockOf p a = true -> exists x t, a = x :: t.
Proof.
  intros H. apply app_block_start in H. destruct H as (x & t & -> & _). eauto.
Qed.

Lemma numberText_nonempty (a : jsstring) :
  numberText a = true -> exists x t, a = x :: t.
Proof. destruct a; [discriminate | eauto]. Qed.

(** A hit of the first generic pattern reads its value from the number
    group and its unit from the unit group. *)
Lemma genericHit_pattern1 (input : jsstring) (i : nat) (m : rmatch) (pv : Parsed.t) :
  match_at pattern1 input i = Some m -> In pv (genericHit m) ->
  exists an au, numberText an = true /\ blockOf unitChar au = true
                /\ Parsed.value pv = parseFloat an /\ Parsed.unit pv = au.
Proof.
  intros Hm H. apply match_at_ran in Hm. destruct Hm as (a & b & _ & Hc).
  apply caught_pattern1 in Hc.
  destruct Hc as (nm & an & au & Hg & _ & Hn & Hu).
  unfold genericHit in H. rewrite Hg in H. cbn [capture Nat.eqb option_map] in H.
  destruct (numberText_nonempty _ Hn) as (x & t & ->).
  destruct (blockOf_nonempty _ _ Hu) as (y & w & ->).
  cbn [js_or truthy parseFloat_opt] in H.
  destruct (js_or _ _) as [tn|]; [|destruct H].
  destruct (_ && _); [|destruct H].
  destruct (find _ values); [|destruct H].
  destruct H as [<-|[]]. exists (x :: t), (y :: w). now repeat split.
Qed.

(** A hit of the second generic pattern reads its value from the text of
    the unit group, and its unit from the text of the name group. *)
Lemma genericHit_pattern2 (input : jsstring) (i : nat) (m : rmatch) (pv : Parsed.t) :
  match_at pattern2 input i = Some m -> In pv (genericHit m) ->
  exists au nm, blockOf unitChar au = true /\ nm <> []
                /\ Parsed.value pv = parseFloat au
                /\ isNaN (parseFloat au) = false /\ Parsed.unit pv = nm.
Proof.
  intros Hm H. apply match_at_ran in Hm. destruct Hm as (a & b & _ & Hc).
  apply caught_pattern2 in Hc.
  destruct Hc as (an & au & nm & Hg & Hnm & Hn & Hu).
  unfold genericHit in H. rewrite Hg in H. cbn [capture Nat.eqb option_map] in H.
  destruct nm as [|z nm]; [congruence|].
  destruct (blockOf_nonempty _ _ Hu) as (y & w & ->).
  cbn [js_or truthy parseFloat_opt] in H.
  destruct (js_or _ _) as [tn|]; [|destruct H].
  destruct (truthy _); [|destruct H].
  destruct (isNaN (parseFloat (y :: w))) eqn:Enan; [destruct H|].
  cbn [negb andb] in H.
  destruct (find _ values); [|destruct H].
  destruct H as [<-|[]]. exists (y :: w), (z :: nm). now repeat split.
Qed.

Lemma genericHits_cases (line : jsstring) (pv : Parsed.t) :
  In pv (genericHits line) ->
  (exists i m, match_at pattern1 line i = Some m /\ In pv (genericHit m))
  \/ (exists i m, match_at pattern2 line i = Some m /\ In pv (genericHit m)).
Proof.
  unfold genericHits, patterns. cbn [flat_map]. rewrite app_nil_r, in_app_iff.
  intros [H|H]; [left|right]; apply in_flat_map in H;
    destruct H as (m & Hm & H); apply matchAll_ran in Hm;
    destruct Hm as (i & Hm); eauto.
Qed.

Lemma collect_cases (text : jsstring) (pv : Parsed.t) :
  In pv (collect text) ->
  exists line, In line (split 10 text)
               /\ (In pv (knownNameHits line) \/ In pv (genericHits line)).
Proof.
  unfold collect. intros H. apply in_flat_map in H.
  destruct H as (line & Hl & H). apply in_app_iff in H. eauto.
Qed.

(** *** Lines *)

Lemma split_aux_app (sep : N) (a b cur : jsstring) :
  split_aux sep cur (a ++ sep :: b) = split_aux sep cur a ++ split_aux sep [] b.
Proof.
  revert cur. induction a as [|c a IH]; intros cur; cbn [app split_aux].
  - now rewrite N.eqb_refl.
  - destruct (c =? sep)%N; [cbn [app]; f_equal|]; apply IH.
Qed.

Lemma split_app (sep : N) (a b : jsstring) :
  split sep (a ++ sep :: b) = split sep a ++ split sep b.
Proof. apply split_aux_app. Qed.

Lemma forallb_rev_true {A} (p : A -> bool) (l : list A) :
  forallb p l = true -> forallb p (rev l) = true.
Proof.
  intros H. rewrite forallb_forall in *. intros x Hx. apply H.
  now apply in_rev.
Qed.

Lemma split_aux_forallb (p : N -> bool) (sep : N) (s cur line : jsstring) :
  forallb p cur = true -> forallb p s = true ->
  In line (split_aux sep cur s) -> forallb p line = true.
Proof.
  revert cur. induction s as [|c s IH]; intros cur Hcur Hs H; cbn [split_aux] in H.
  - destruct H as [<-|[]]. now apply forallb_rev_true.
  - cbn [forallb] in Hs. apply andb_prop in Hs. destruct Hs as [Hc Hs].
    destruct (c =? sep)%N.
    + destruct H as [<-|H]; [now apply forallb_rev_true|].
      now apply IH with (cur := []).
    + apply IH with (cur := c :: cur); [|exact Hs|exact H].
      cbn [forallb]. now rewrite Hc, Hcur.
Qed.

Lemma split_forallb (p : N -> bool) (sep : N) (s line : jsstring) :
  forallb p s = true -> In line (split sep s) -> forallb p line = true.
Proof. now apply split_aux_forallb. Qed.

Lemma forallb_negb_existsb {A} (f : A -> bool) (l : list A) :
  forallb (fun x => negb (f x)) l = true -> existsb f l = false.
Proof.
  induction l as [|x l IH]; [reflexivity|]. cbn [forallb existsb].
  intros H. apply andb_prop in H. destruct H as [Hx H].
  apply negb_true_iff in Hx. now rewrite Hx, IH.
Qed.

(** *** Keeping the first of each name, over two parts *)

Lemma firstOfEachName_ext (s1 s2 : list jsstring) (l : list Parsed.t) :
  (forall n, existsb (JsString.eqb n) s1 = existsb (JsString.eqb n) s2) ->
  firstOfEachName s1 l = firstOfEachName s2 l.
Proof.
  revert s1 s2. induction l as [|x l IH]; intros s1 s2 H; [reflexivity|].
  cbn [firstOfEachName]. rewrite (H (Parsed.name x)).
  destruct (existsb _ s2); [now apply IH|]. f_equal. apply IH.
  intros n. cbn [existsb]. now rewrite H.
Qed.

Lemma firstOfEachName_app (seen : list jsstring) (l1 l2 : list Parsed.t) :
  firstOfEachName seen (l1 ++ l2)
  = firstOfEachName seen l1 ++ firstOfEachName (map Parsed.name l1 ++ seen) l2.
Proof.
  revert seen. induction l1 as [|x l1 IH]; intros seen; [reflexivity|].
  cbn [app firstOfEachName map].
  destruct (existsb (JsString.eqb (Parsed.name x)) seen) eqn:E.
  - rewrite IH. f_equal. apply firstOfEachName_ext. intros n.
    cbn [app existsb]. rewrite !existsb_app.
    destruct (JsString.eqb n (Parsed.name x)) eqn:En; [|reflexivity].
    apply jsstring_eqb_eq in En. subst n. rewrite E. now rewrite orb_true_r.
  - cbn [app]. f_equal. rewrite IH. f_equal. apply firstOfEachName_ext.
    intros n. cbn [app existsb]. rewrite !existsb_app. cbn [existsb].
    destruct (JsString.eqb n (Parsed.name x)),
      (existsb (JsString.eqb n) (map Parsed.name l1)),
      (existsb (JsString.eqb n) seen); reflexivity.
Qed.

Lemma firstOfEachName_filter (S T : list jsstring) (l : list Parsed.t) :
  firstOfEachName (S ++ T) l
  = filter (fun pv => negb (existsb (JsString.eqb (Parsed.name pv)) S))
      (firstOfEachName T l).
Proof.
  revert T. induction l as [|x l IH]; intros T; [reflexivity|].
  cbn [firstOfEachName]. rewrite existsb_app.
  destruct (existsb (JsString.eqb (Parsed.name x)) T) eqn:ET.
  - rewrite orb_true_r. apply IH.
  - rewrite orb_false_r. cbn [filter].
    destruct (existsb (JsString.eqb (Parsed.name x)) S) eqn:ES; cbn [negb].
    + rewrite <- IH. apply firstOfEachName_ext. intros n.
      rewrite !existsb_app. cbn [existsb].
      destruct (JsString.eqb n (Parsed.name x)) eqn:En; [|reflexivity].
      apply jsstring_eqb_eq in En. subst n. now rewrite ES.
    + f_equal. rewrite <- IH. apply firstOfEachName_ext. intros n.
      change (Parsed.name x :: S ++ T) with ((Parsed.name x :: S) ++ T).
      rewrite !existsb_app. cbn [existsb].
      destruct (JsString.eqb n (Parsed.name x)),
        (existsb (JsString.eqb n) S), (existsb (JsString.eqb n) T); reflexivity.
Qed.

Lemma existsb_names (l : list Parsed.t) (seen : list jsstring) (n : jsstring) :
  existsb (JsString.eqb n) (map Parsed.name (firstOfEachName seen l)) || existsb (JsString.eqb n) seen
  = existsb (JsString.eqb n) (map Parsed.name l) || existsb (JsString.eqb n) seen.
Proof.
  revert seen. induction l as [|x l IH]; intros seen; [reflexivity|].
  cbn [firstOfEachName map existsb].
  destruct (existsb (JsString.eqb (Parsed.name x)) seen) eqn:E.
  - rewrite IH. destruct (JsString.eqb n (Parsed.name x)) eqn:En; [|reflexivity].
    apply jsstring_eqb_eq in En. subst n. rewrite E. now rewrite !orb_true_r.
  - cbn [map existsb]. rewrite <- !orb_assoc.
    specialize (IH (Parsed.name x :: seen)). cbn [existsb] in IH.
    destruct (JsString.eqb n (Parsed.name x)); [reflexivity|].
    cbn [orb] in *. exact IH.
Qed.

(** ** The parser on arbitrary text *)

Lemma values_names_length : List.length (map Range.name values) = 20.
Proof. reflexivity. Qed.

Lemma parse_length (text : jsstring) :
  List.length (parseBloodworkText text) <= 20.
Proof.
  rewrite <- values_names_length, <- (length_map Parsed.name).
  apply NoDup_incl_length.
  - unfold parseBloodworkText. rewrite uniqueResults_firstOfEachName.
    apply firstOfEachName_NoDup.
  - intros n Hn. apply in_map_iff in Hn. destruct Hn as (pv & <- & Hpv).
    apply parseBloodworkText_In_collect, collect_names in Hpv.
    destruct Hpv as (r & Hr & ->). now apply in_map.
Qed.

(** The parser never returns more measurements than the catalog has
    entries, twenty, however long the text is. *)
Theorem parse_at_most_catalog (text : jsstring) :
  List.length (parseBloodworkText text) <= List.length values
  /\ List.length values = 20.
Proof.
  split; [|reflexivity].
  change (List.length values) with 20. apply parse_length.
Qed.

Lemma flat_map_nil_all {A B} (f : A -> list B) (l : list A) :
  (forall x, In x l -> f x = []) -> flat_map f l = [].
Proof.
  induction l as [|x l IH]; intros H; [reflexivity|]. cbn [flat_map].
  rewrite (H x (or_introl eq_refl)), IH; [reflexivity|].
  intros y Hy. apply H. now right.
Qed.

Lemma no_digit_no_match (r : regex) (line : jsstring) :
  In r [valuePattern; pattern1; pattern2] ->
  existsb isDigit line = false ->
  match_first r line = None /\ matchAll r line = [].
Proof.
  intros Hr Hd. split.
  - destruct (match_first r line) as [m|] eqn:E; [|reflexivity].
    apply match_first_ran in E. destruct E as (j & E).
    now rewrite (@match_at_digit r line j m Hr E) in Hd.
  - destruct (matchAll r line) as [|m l] eqn:E; [reflexivity|].
    assert (Hm : In m (matchAll r line)) by (rewrite E; now left).
    apply matchAll_ran in Hm. destruct Hm as (j & Hm).
    now rewrite (@match_at_digit r line j m Hr Hm) in Hd.
Qed.

Lemma collect_without_digit (text : jsstring) :
  forallb (fun x => negb (isDigit x)) text = true -> collect text = [].
Proof.
  intros H. unfold collect. apply flat_map_nil_all. intros line Hl.
  pose proof (@split_forallb _ _ _ _ H Hl) as Hline.
  apply forallb_negb_existsb in Hline.
  assert (Hk : knownNameHits line = []).
  { unfold knownNameHits. apply flat_map_nil_all. intros kv _.
    destruct (testNameRegex (snd kv)); [|reflexivity].
    destruct (test _ line); [|reflexivity].
    destruct (@no_digit_no_match valuePattern line) as [-> _];
      [now left | exact Hline | reflexivity]. }
  assert (Hg : genericHits line = []).
  { unfold genericHits, patterns. cbn [flat_map].
    destruct (@no_digit_no_match pattern1 line) as [_ ->];
      [right; now left | exact Hline |].
    destruct (@no_digit_no_match pattern2 line) as [_ ->];
      [right; right; now left | exact Hline | reflexivity]. }
  now rewrite Hk, Hg.
Qed.

(** A text without a digit, the empty text included, yields no
    measurement. *)
Theorem parse_without_digit (text : jsstring) :
  forallb (fun x => negb (isDigit x)) text = true ->
  parseBloodworkText text = [].
Proof.
  intros H. unfold parseBloodworkText. now rewrite (@collect_without_digit text H).
Qed.

Lemma parse_without_digit_witness :
  parseBloodworkText (lit "Glucose: pending") = [].
Proof. apply parse_without_digit. reflexivity. Defined.

(** Every measurement the parser returns has a value that is neither NaN
    nor negative, and a unit that is not empty. *)
Theorem parse_values_sane (text : jsstring) (pv : Parsed.t) :
  In pv (parseBloodworkText text) ->
  nonNegative (Parsed.value pv) = true /\ Parsed.unit pv <> [].
Proof.
  intros H. apply parseBloodworkText_In_collect, collect_cases in H.
  destruct H as (line & _ & [H|H]).
  - apply knownNameHits_groups in H.
    destruct H as (an & au & Hn & Hu & -> & ->). split.
    + now apply parseFloat_numberText.
    + destruct (@blockOf_nonempty _ _ Hu) as (y & w & ->). discriminate.
  - apply genericHits_cases in H. destruct H as [(i & m & Hm & H)|(i & m & Hm & H)].
    + destruct (@genericHit_pattern1 _ _ _ _ Hm H) as (an & au & Hn & Hu & -> & ->).
      split.
      * now apply parseFloat_numberText.
      * destruct (@blockOf_nonempty _ _ Hu) as (y & w & ->). discriminate.
    + destruct (@genericHit_pattern2 _ _ _ _ Hm H)
        as (au & nm & Hu & Hnm & -> & Hnan & ->).
      split; [|exact Hnm].
      rewrite (@parseFloat_unitText au Hu) in *.
      now destruct (startsWith _ au).
Qed.

Lemma parse_values_sane_witness :
  nonNegative (dec 250 0) = true /\ lit "mg/dL" <> [].
Proof.
  apply (@parse_values_sane sampleReport
           (parsed "Glucose (Fasting)" (dec 250 0) "mg/dL")).
  vm_compute. left. reflexivity.
Defined.

Lemma jsstring_eqb_sym (a b : jsstring) : JsString.eqb a b = JsString.eqb b a.
Proof.
  destruct (JsString.eqb b a) eqn:E.
  - apply jsstring_eqb_eq in E. subst. apply jsstring_eqb_refl.
  - apply jsstring_eqb_neq. apply jsstring_eqb_neq in E. congruence.
Qed.

Lemma existsb_map_named (n : jsstring) (l : list Parsed.t) :
  existsb (JsString.eqb n) (map Parsed.name l) = existsb (named n) l.
Proof.
  induction l as [|r l IH]; [reflexivity|]. cbn [map existsb].
  unfold named at 1. now rewrite IH, jsstring_eqb_sym.
Qed.

(** Lines are read one by one: what a text yields stays, in place, when
    more lines follow, and the later lines add the names not yet seen. *)
Theorem parse_lines_compose (a b : jsstring) :
  parseBloodworkText (a ++ newline ++ b)
  = parseBloodworkText a
    ++ filter (fun pv => negb (existsb (named (Parsed.name pv))
                                 (parseBloodworkText a)))
         (parseBloodworkText b).
Proof.
  unfold parseBloodworkText, newline. cbn [app].
  rewrite !uniqueResults_firstOfEachName. unfold collect.
  rewrite split_app, flat_map_app. fold (collect a) (collect b).
  rewrite firstOfEachName_app. f_equal.
  rewrite firstOfEachName_filter. apply filter_ext. intros pv. f_equal.
  pose proof (existsb_names (collect a) [] (Parsed.name pv)) as Hn.
  cbn [existsb] in Hn. rewrite !orb_false_r in Hn. rewrite <- Hn.
  apply existsb_map_named.
Qed.

(** ** Classification at the edges of the number line *)

Lemma ltb_nan_l (x : number) : ltb NaN x = false.
Proof. reflexivity. Qed.

Lemma ltb_nan_r (x : number) : ltb x NaN = false.
Proof. now destruct x. Qed.

Lemma normalizedValue_nan (range : Range.t) (unit : jsstring) :
  normalizedValue range NaN unit = NaN.
Proof.
  rewrite normalizedValue_cases. now destruct (_ && _).
Qed.

(** A value that is not a number is classified normal, whatever the test
    name and the unit. *)
Theorem nan_is_classified_normal (name unit : jsstring) :
  Analysis.status (analyzeValue name NaN unit) = normal.
Proof.
  destruct (findRange name) as [range|] eqn:E.
  - rewrite (@status_of_known name NaN unit range E). cbv zeta.
    rewrite normalizedValue_nan. unfold gtb.
    now rewrite ltb_nan_l, ltb_nan_r.
  - unfold analyzeValue. now rewrite E.
Qed.

Lemma normalizedValue_infinity (range : Range.t) (unit : jsstring) :
  normalizedValue range infinity unit = infinity.
Proof.
  rewrite normalizedValue_cases. now destruct (_ && _).
Qed.

Lemma catalog_below_infinity :
  forallb (fun r => negb (ltb infinity (Range.min r))
                    && gtb infinity (Range.max r)
                    && gtb infinity (highCut r)) values = true.
Proof. vm_compute. reflexivity. Qed.

(** An infinite value is critical for every catalog name. *)
Lemma infinity_is_critical (name unit : jsstring) (range : Range.t) :
  findRange name = Some range ->
  Analysis.status (analyzeValue name infinity unit) = critical.
Proof.
  intros E. rewrite (@status_of_known name infinity unit range E). cbv zeta.
  rewrite normalizedValue_infinity.
  destruct (findRange_In _ E) as [Hin _].
  pose proof (@forallb_In _ _ values range catalog_below_infinity Hin) as H.
  cbv beta in H. apply andb_prop in H. destruct H as [H H3].
  apply andb_prop in H. destruct H as [H1 H2].
  apply negb_true_iff in H1. now rewrite H1, H2, H3.
Qed.

(** The matches of the second generic pattern, the one written for the
    order "95 mg/dL Glucose", never yield a finite value: the value is read
    from the text of the unit group, which is a number only when it starts
    with "Infinity"; every such measurement is classified critical. *)
Theorem pattern2_value_not_finite (line : jsstring) (pv : Parsed.t) :
  In pv (flat_map genericHit (matchAll pattern2 line)) ->
  Parsed.value pv = infinity /\ Analyzed.status (analyze pv) = critical.
Proof.
  intros H. apply in_flat_map in H. destruct H as (m & Hm & H).
  apply matchAll_ran in Hm. destruct Hm as (i & Hm).
  pose proof (@genericHit_names m pv H) as Hname.
  apply findRange_of_catalogName in Hname. destruct Hname as (range & Hr).
  destruct (@genericHit_pattern2 _ _ _ _ Hm H) as (au & nm & Hu & _ & Hv & Hnan & _).
  rewrite (@parseFloat_unitText au Hu) in *.
  destruct (startsWith _ au); [|discriminate].
  split; [exact Hv|]. unfold analyze. cbn [Analyzed.status]. rewrite Hv.
  exact (@infinity_is_critical _ _ range Hr).
Qed.

Lemma pattern2_value_not_finite_witness :
  Parsed.value (parsed "Vitamin B12" infinity "x") = infinity
  /\ Analyzed.status (analyzed "Vitamin B12" infinity "x") = critical.
Proof.
  apply (@pattern2_value_not_finite (lit "12 Infinity x")).
  vm_compute. left. reflexivity.
Defined.

(** ** The summary and the flagged count *)

(** The summary and the recommendations depend only on how many values are
    critical, high and low: neither the order of the values nor the normal
    ones among them change the text. *)
Theorem summary_depends_on_counts (vs vs' : list Analyzed.t) :
  count critical vs = count critical vs' ->
  count high vs = count high vs' ->
  count low vs = count low vs' ->
  generateSummary vs = generateSummary vs'.
Proof.
  intros Hc Hh Hl. rewrite !generateSummary_counts. cbv zeta.
  now rewrite Hc, Hh, Hl.
Qed.

Lemma summary_depends_on_counts_witness :
  generateSummary [analyzed "Hemoglobin" (dec 19 0) "g/dL";
                   analyzed "Ferritin" (dec 12 0) "ng/mL"]
  = generateSummary [analyzed "Ferritin" (dec 12 0) "ng/mL";
                     analyzed "Glucose (Fasting)" (dec 85 0) "mg/dL";
                     analyzed "Hemoglobin" (dec 19 0) "g/dL"].
Proof. apply summary_depends_on_counts; vm_compute; reflexivity. Defined.

Lemma criticalSummary_head (n : nat) :
  startsWith (lit "✅") (criticalSummary n ++ closingSentence) = false.
Proof. reflexivity. Qed.

Lemma flaggedSummary_head (n : nat) (rest : jsstring) :
  startsWith (lit "✅") (flaggedSummary n ++ rest) = false.
Proof. reflexivity. Qed.

Lemma normalSummary_head :
  startsWith (lit "✅") (normalSummary ++ closingSentence) = true.
Proof. reflexivity. Qed.

(** The flagged count of a result and its summary agree: the count is zero
    exactly when the summary is the all-normal one and the recommendations
    are those of the all-normal branch; and the count never exceeds the
    number of values. *)
Theorem flagged_count_matches_summary (userId fileName uploadedAt : jsstring)
  (parsedValues : list Parsed.t) :
  let result := screen userId fileName uploadedAt parsedValues in
  (Screening.flaggedCount result = 0
   <-> Screening.summary result = normalSummary ++ closingSentence) /\
  (Screening.flaggedCount result = 0
   <-> Screening.recommendations result = normalRecommendations) /\
  Screening.flaggedCount result <= List.length (Screening.values result).
Proof.
  cbv zeta. unfold screen. rewrite generateSummary_counts. cbv zeta.
  rewrite length_filter_flagged.
  set (c := count critical (map analyze parsedValues)).
  set (h := count high (map analyze parsedValues)).
  set (l := count low (map analyze parsedValues)).
  assert (Hle : c + h + l <= List.length (map analyze parsedValues)).
  { unfold c, h, l. rewrite <- length_filter_flagged. apply filter_length_le. }
  destruct (Nat.ltb_spec 0 c) as [Hc|Hc]; cbv beta iota;
    cbn [Screening.flaggedCount Screening.summary Screening.recommendations
         Screening.values].
  - split; [|split; [|exact Hle]].
    + split; [lia|]. intros Hs.
      pose proof (criticalSummary_head c) as Hh. rewrite Hs in Hh. discriminate.
    + split; [lia | discriminate].
  - destruct (Nat.ltb 0 h || Nat.ltb 0 l) eqn:Ehl; cbv beta iota;
      cbn [Screening.flaggedCount Screening.summary Screening.recommendations
           Screening.values].
    + assert (Hpos : c + h + l <> 0).
      { apply orb_prop in Ehl. destruct Ehl as [H|H]; apply Nat.ltb_lt in H; lia. }
      split; [|split; [|exact Hle]].
      * split; [intros H0; now elim Hpos|]. intros Hs.
        pose proof (flaggedSummary_head (c + h + l)
                      ((if Nat.ltb 0 h then elevatedSentence h else [])
                       ++ (if Nat.ltb 0 l then lowSentence l else [])
                       ++ closingSentence)) as Hh.
        rewrite <- !app_assoc in Hs. rewrite Hs in Hh. discriminate.
      * split; [intros H0; now elim Hpos | discriminate].
    + apply orb_false_iff in Ehl. destruct Ehl as [H1 H2].
      apply Nat.ltb_ge in H1, H2.
      split; [|split; [|exact Hle]]; (split; [reflexivity | lia]).
Qed.

Lemma flagged_count_matches_summary_witness :
  let result :=
    screen (lit "user_1") (lit "report.txt") (lit "2024-01-01T00:00:00.000Z")
      [parsed "Hemoglobin" (dec 14 0) "g/dL"] in
  Screening.flaggedCount result = 0
  /\ Screening.summary result = normalSummary ++ closingSentence
  /\ Screening.recommendations result = normalRecommendations.
Proof.
  cbv zeta.
  destruct (flagged_count_matches_summary (lit "user_1") (lit "report.txt")
              (lit "2024-01-01T00:00:00.000Z")
              [parsed "Hemoglobin" (dec 14 0) "g/dL"]) as (Hs & Hr & _).
  assert (H0 : Screening.flaggedCount
                 (screen (lit "user_1") (lit "report.txt")
                    (lit "2024-01-01T00:00:00.000Z")
                    [parsed "Hemoglobin" (dec 14 0) "g/dL"]) = 0)
    by (vm_compute; reflexivity).
  split; [exact H0|]. split; [now apply Hs | now apply Hr].
Defined.

(** ** The upload handler at its edges *)

Section UploadEdges.

Import stdpp.base stdpp.option stdpp.gmap.
Import Upload.

Variable env : Env.

(** A request without a file, or without a user id (an empty one
    included), is answered with status 400 before anything is staged or
    logged. *)
Theorem POST_rejects_incomplete_request (req : Request) (w : World) :
  (file req = None ->
   POST env req w = (jsonError 400 "No file uploaded", w)) /\
  (forall f, file req = Some f -> truthy (userId req) = false ->
   POST env req w = (jsonError 400 "userId is required", w)).
Proof.
  split.
  - intros Hf. unfold POST, handle. now rewrite Hf.
  - intros f Hf Hu. unfold POST, handle. now rewrite Hf, Hu.
Qed.


(** Where a screening result comes from. *)
Lemma POST_result_inv (req : Request) (w w' : World) (result : Screening.t)
  (id warning : option jsstring) :
  POST env req w = (ResultResponse result id warning, w') ->
  exists f text,
    file req = Some f /\ truthy (userId req) = true
    /\ canWrite env (tempFilePath env f) = true
    /\ fst (extractText env f (staged env f w)) = Normal text
    /\ parseBloodworkText text <> []
    /\ result = screen (default [] (userId req)) (name f) (isoNow env)
                  (parseBloodworkText text)
    /\ truthy (History.NEXT_PUBLIC_SUPABASE_URL (processEnv env))
       && truthy (History.NEXT_PUBLIC_SUPABASE_PUBLISHABLE_KEY (processEnv env))
       = true
    /\ match dbInsert env result with
       | Saved i => id = Some i /\ warning = None
       | DbError => id = None /\ warning = Some databaseWarning
       | InsertRejected _ => False
       end.
Proof.
  intros HP.
  assert (Hresp : fst (POST env req w) = ResultResponse result id warning)
    by (now rewrite HP).
  clear HP. revert Hresp.
  destruct (file req) as [f|] eqn:Hf;
    [|unfold POST, handle; rewrite Hf; discriminate].
  destruct (truthy (userId req)) eqn:Hu;
    [|unfold POST, handle; rewrite Hf, Hu; discriminate].
  destruct (canWrite env (tempFilePath env f)) eqn:Hw.
  - destruct (@handle_staged env req f w Hf Hu Hw) as (c & w2 & Hx & _ & Hresp).
    destruct c as [text|r|e]; [| |destruct Hresp].
    + rewrite Hresp. cbv zeta. intros H. exists f, text.
      split; [reflexivity|]. split; [reflexivity|]. split; [exact Hw|].
      split; [now rewrite Hx|].
      destruct (Nat.eqb (List.length (parseBloodworkText text)) 0) eqn:El;
        [discriminate H|].
      split; [intros Ep; now rewrite Ep in El|].
      rewrite (proj2 (save_outcome env _ w2)) in H.
      destruct (_ && _); [|discriminate H].
      destruct (dbInsert env _) eqn:Ed; try discriminate H;
        injection H as Hr Hid Hwarn; subst result; rewrite Ed;
        (split; [reflexivity|]); (split; [reflexivity|]);
        unfold databaseWarning; split; now symmetry.
    + rewrite Hresp. apply extractText_returns in Hx;
        [|rewrite staged_lookup; eauto].
      destruct Hx as [-> | ->]; discriminate.
  - unfold POST, handle. rewrite Hf, Hu. cbn [negb].
    cbv beta delta [bind writeFile]. rewrite Hw. discriminate.
Qed.

End UploadEdges.

Section UploadResults.

Import stdpp.base stdpp.option stdpp.gmap.
Import Upload.

Lemma analyze_names (pvs : list Parsed.t) :
  map Analyzed.name (map analyze pvs) = map Parsed.name pvs.
Proof. rewrite map_map. now apply map_ext. Qed.

Lemma extractText_extracted (env : Env) (f : File) (w : World) :
  fst (extractText env f (staged env f w))
  = match extracted env f with
    | Some text => Normal text
    | None =>
        if JsString.eqb (fileExtension f) (lit "pdf")
        then Return extractionFailure else Return imageResponse
    end.
Proof.
  rewrite extractText_staged by (rewrite staged_lookup; eauto).
  unfold extracted. destruct (JsString.eqb (fileExtension f) (lit "pdf")).
  - now destruct (pdfParse env (bytes f)).
  - now destruct (isImageExtension (fileExtension f)).
Qed.

Lemma tempFilePath_withDb (env : Env) (db : Screening.t -> InsertOutcome)
  (f : File) :
  tempFilePath (withDb env db) f = tempFilePath env f.
Proof. reflexivity. Qed.

Lemma extractText_withDb (env : Env) (db : Screening.t -> InsertOutcome)
  (f : File) :
  extractText (withDb env db) f = extractText env f.
Proof. reflexivity. Qed.

(** A screening result survives an error of the database, and nothing
    else that goes wrong there.  A response with a result means that the
    client's environment was set and that the insert did not reject; the id
    is present exactly when the row was saved and the warning exactly when
    the database reported an error.  With any other database behind the
    same request, a saved row gives the same result with its id, an error
    of the database the same result without an id and with the warning, and
    a rejected insert status 500 with the error's message and no result. *)
Theorem POST_result_survives_database_error (env : Env) (req : Request)
  (w w' : World) (result : Screening.t) (id warning : option jsstring)
  (db : Screening.t -> InsertOutcome) :
  POST env req w = (ResultResponse result id warning, w') ->
  truthy (History.NEXT_PUBLIC_SUPABASE_URL (processEnv env))
  && truthy (History.NEXT_PUBLIC_SUPABASE_PUBLISHABLE_KEY (processEnv env))
  = true /\
  match dbInsert env result with
  | Saved i => id = Some i /\ warning = None
  | DbError => id = None /\ warning = Some databaseWarning
  | InsertRejected _ => False
  end /\
  fst (POST (withDb env db) req w)
  = match db result with
    | Saved i => ResultResponse result (Some i) None
    | DbError => ResultResponse result None (Some databaseWarning)
    | InsertRejected e =>
        ErrorResponse 500 (lit "Internal server error") None None
          (Some (match e with
                 | Api.APIError message _ _ | Api.Error message => message
                 | Api.NotAnError _ => lit "Unknown error"
                 end))
    end.
Proof.
  intros HP. apply POST_result_inv in HP.
  destruct HP as (f & text & Hf & Hu & Hw & Hx & Hne & Hr & Hclient & Hdb).
  split; [exact Hclient|]. split; [exact Hdb|].
  assert (Hw' : canWrite (withDb env db) (tempFilePath (withDb env db) f) = true).
  { rewrite tempFilePath_withDb. exact Hw. }
  destruct (@handle_staged (withDb env db) req f w Hf Hu Hw')
    as (c & w2 & Hx' & _ & Hresp).
  unfold staged in Hx', Hx.
  rewrite extractText_withDb, tempFilePath_withDb in Hx'.
  rewrite Hx' in Hx. cbn [fst] in Hx. subst c.
  rewrite Hresp. cbv zeta.
  destruct (Nat.eqb (List.length (parseBloodworkText text)) 0) eqn:El.
  - apply Nat.eqb_eq, length_zero_iff_nil in El. now elim Hne.
  - rewrite (proj2 (save_outcome (withDb env db) _ w2)).
    unfold withDb at 1 2. cbn [processEnv]. rewrite Hclient.
    unfold withDb, databaseWarning. cbn [isoNow dbInsert]. rewrite <- Hr.
    destruct (db result); reflexivity.
Qed.

(** Every screening result the handler returns is for the request's user
    and file, and holds between one and twenty values with pairwise
    distinct names. *)
Theorem POST_result_shape (env : Env) (req : Request) (w w' : World)
  (result : Screening.t) (id warning : option jsstring) :
  POST env req w = (ResultResponse result id warning, w') ->
  userId req = Some (Screening.userId result) /\
  Screening.userId result <> [] /\
  option_map name (file req) = Some (Screening.fileName result) /\
  1 <= List.length (Screening.values result) <= 20 /\
  List.NoDup (map Analyzed.name (Screening.values result)).
Proof.
  intros HP. apply POST_result_inv in HP.
  destruct HP as (f & text & Hf & Hu & _ & _ & Hne & Hr & _).
  assert (Hv : Screening.values result = map analyze (parseBloodworkText text))
    by (rewrite Hr; apply screen_values).
  assert (Hid : Screening.userId result = default [] (userId req)).
  { rewrite Hr. unfold screen. now destruct (generateSummary _). }
  assert (Hfn : Screening.fileName result = name f).
  { rewrite Hr. unfold screen. now destruct (generateSummary _). }
  rewrite Hv, Hid, Hfn, Hf, length_map.
  destruct (userId req) as [[|c u]|]; try discriminate Hu.
  split; [reflexivity|]. split; [discriminate|]. split; [reflexivity|].
  split; [split|].
  - destruct (parseBloodworkText text); [now elim Hne | cbn; lia].
  - apply parse_length.
  - rewrite analyze_names.
    unfold parseBloodworkText. rewrite uniqueResults_firstOfEachName.
    apply (firstOfEachName_NoDup [] (collect text)).
Qed.

(** An upload whose text holds no digit, an empty file included, is
    answered with status 400 and the first 500 code units of the text. *)
Theorem POST_text_without_digit (env : Env) (req : Request) (w : World)
  (f : File) (text : jsstring) :
  file req = Some f ->
  truthy (userId req) = true ->
  canWrite env (tempFilePath env f) = true ->
  extracted env f = Some text ->
  forallb (fun x => negb (isDigit x)) text = true ->
  fst (POST env req w) = noValuesResponse text.
Proof.
  intros Hf Hu Hw Hx Hd.
  destruct (@handle_staged env req f w Hf Hu Hw) as (c & w2 & Hx' & _ & Hresp).
  pose proof (extractText_extracted env f w) as He.
  rewrite Hx', Hx in He. cbn [fst] in He. subst c.
  rewrite Hresp. cbv zeta. unfold parseBloodworkText.
  now rewrite (collect_without_digit _ Hd).
Qed.

End UploadResults.

Section UploadEdgeSamples.

Import stdpp.base stdpp.option stdpp.gmap.
Import Upload Samples EdgeSamples.

Lemma POST_rejects_incomplete_request_witness :
  POST sampleEnv noFile emptyWorld
    = (jsonError 400 "No file uploaded", emptyWorld) /\
  POST sampleEnv noUser emptyWorld
    = (jsonError 400 "userId is required", emptyWorld).
Proof.
  split.
  - apply (POST_rejects_incomplete_request sampleEnv noFile emptyWorld).
    reflexivity.
  - apply (proj2 (POST_rejects_incomplete_request sampleEnv noUser emptyWorld)
             textFile); reflexivity.
Defined.


Lemma POST_result_survives_database_error_witness :
  exists result,
    fst (POST sampleEnv (upload textFile) emptyWorld)
      = ResultResponse result (Some (lit "row-1")) None /\
    fst (POST (withDb sampleEnv refuseAll) (upload textFile) emptyWorld)
      = ResultResponse result None (Some databaseWarning) /\
    fst (POST (withDb sampleEnv (fun _ => InsertRejected (Api.NotAnError Api.Null)))
           (upload textFile) emptyWorld)
      = ErrorResponse 500 (lit "Internal server error") None None
          (Some (lit "Unknown error")).
Proof.
  destruct (POST sampleEnv (upload textFile) emptyWorld) as [resp w'] eqn:HP.
  destruct resp as [st msg sug preview details | result id warning].
  - vm_compute in HP. discriminate HP.
  - exists result.
    split; [|split].
    + destruct (@POST_result_survives_database_error sampleEnv _ _ _ _ _ _
                  refuseAll HP) as (_ & Hdb & _).
      cbn [dbInsert sampleEnv] in Hdb. destruct Hdb as [-> ->]. reflexivity.
    + exact (proj2 (proj2 (@POST_result_survives_database_error sampleEnv _ _ _
                             _ _ _ refuseAll HP))).
    + exact (proj2 (proj2 (@POST_result_survives_database_error sampleEnv _ _ _
                             _ _ _
                             (fun _ => InsertRejected (Api.NotAnError Api.Null))
                             HP))).
Defined.

Lemma POST_result_shape_witness :
  exists result id warning w',
    POST sampleEnv (upload textFile) emptyWorld
      = (ResultResponse result id warning, w') /\
    Screening.userId result = lit "user_1" /\
    Screening.fileName result = lit "report.txt" /\
    1 <= List.length (Screening.values result) <= 20 /\
    List.NoDup (map Analyzed.name (Screening.values result)).
Proof.
  destruct (POST sampleEnv (upload textFile) emptyWorld) as [resp w'] eqn:HP.
  destruct resp as [st msg sug preview details | result id warning].
  - vm_compute in HP. discriminate HP.
  - exists result, id, warning, w'. split; [reflexivity|].
    destruct (@POST_result_shape sampleEnv _ _ _ _ _ _ HP)
      as (Hu & _ & Hf & Hlen & Hnd).
    split; [now injection Hu|]. split; [now injection Hf|]. now split.
Defined.

Lemma POST_text_without_digit_witness :
  fst (POST sampleEnv (upload pendingFile) emptyWorld)
  = noValuesResponse (lit "Glucose: pending").
Proof.
  apply (@POST_text_without_digit sampleEnv (upload pendingFile) emptyWorld
           pendingFile); reflexivity.
Defined.

End UploadEdgeSamples.

(** *** The extension of a file name *)

Section Extension.

Import Upload.




End Extension.

(** ** Validation and rate limiting *)

Section ApiFacts.

Import stdpp.base stdpp.option stdpp.gmap.
Import Api ApiRuns.

Lemma missingFields_In (data : list (jsstring * value)) (fields : list jsstring)
  (f : jsstring) :
  In f (missingFields data fields)
  <-> In f fields /\ toBoolean (get data f) = false.
Proof.
  unfold missingFields. rewrite filter_In. now rewrite negb_true_iff.
Qed.

(** [validateRequired] returns exactly when every listed field holds a
    truthy value; otherwise the error it throws lists, in the order given,
    the fields that are absent or hold a falsy value, and [handleAPIError]
    turns it into status 400 with code MISSING_FIELDS. *)
Theorem validateRequired_outcome (data : list (jsstring * value))
  (fields console : list jsstring) :
  let missing :=
    List.filter (fun f => negb (toBoolean (get data f))) fields in
  (forall f, In f missing <-> In f fields /\ toBoolean (get data f) = false) /\
  match validateRequired data fields with
  | None =>
      missing = [] /\ forall f, In f fields -> toBoolean (get data f) = true
  | Some e =>
      missing <> []
      /\ e = APIError (lit "Missing required fields: " ++ join (lit ", ") missing)
               400 (Some (lit "MISSING_FIELDS"))
      /\ fst (handleAPIError e console)
         = {| error := lit "Missing required fields: "
                       ++ join (lit ", ") missing;
              code := Some (lit "MISSING_FIELDS");
              status := 400 |}
  end.
Proof.
  cbv zeta. split; [intros f; apply missingFields_In|].
  unfold validateRequired. cbv zeta. fold (missingFields data fields).
  destruct (missingFields data fields) as [|m ms] eqn:E.
  - cbn [List.length Nat.ltb Nat.leb]. split; [reflexivity|]. intros f Hf.
    destruct (toBoolean (get data f)) eqn:Et; [reflexivity|].
    assert (Hin : In f (missingFields data fields))
      by (apply missingFields_In; now split).
    rewrite E in Hin. destruct Hin.
  - cbn [List.length Nat.ltb Nat.leb].
    split; [discriminate|]. split; reflexivity.
Qed.

Lemma ltb_irrefl (x : number) : Number.ltb x x = false.
Proof.
  destruct x as [s|s| |s m e]; try reflexivity.
  - now destruct s.
  - unfold Number.ltb, SFltb, SFcompare.
    rewrite Z.compare_refl, Pos.compare_cont_refl. now destruct s.
Qed.

(** [validateAppointmentDate] throws (400, INVALID_DATE) exactly for the
    appointments whose time value is below the current one.  Every other
    appointment passes: one in the future, one at the current instant, and
    a date and time the runtime cannot read (time value NaN). *)
Theorem validateAppointmentDate_outcome (timeValue : jsstring -> number)
  (now : number) (date time : jsstring) :
  let t := timeValue (date ++ lit "T" ++ time) in
  (Number.ltb t now = true ->
   validateAppointmentDate timeValue now date time
   = Some (APIError (lit "Appointment date must be in the future") 400
             (Some (lit "INVALID_DATE")))) /\
  (Number.ltb t now = false ->
   validateAppointmentDate timeValue now date time = None) /\
  (Number.gtb t now = true ->
   validateAppointmentDate timeValue now date time = None) /\
  (t = now -> validateAppointmentDate timeValue now date time = None) /\
  (isNaN t = true -> validateAppointmentDate timeValue now date time = None).
Proof.
  cbv zeta. unfold validateAppointmentDate. cbv zeta.
  split; [|split; [|split; [|split]]].
  - intros ->. reflexivity.
  - intros ->. reflexivity.
  - intros Hgt. unfold Number.gtb in Hgt.
    now rewrite (@leb_not_ltb _ _ (@ltb_leb _ _ Hgt)).
  - intros ->. now rewrite ltb_irrefl.
  - intros Hn. destruct (timeValue _); try discriminate Hn. reflexivity.
Qed.

Lemma validateAppointmentDate_outcome_witness :
  validateAppointmentDate (fun _ => dec 1800000000000 0) (dec 1700000000000 0)
    (lit "2027-01-15") (lit "10:00") = None
  /\ validateAppointmentDate (fun _ => dec 1600000000000 0) (dec 1700000000000 0)
       (lit "2020-09-13") (lit "12:00")
     = Some (APIError (lit "Appointment date must be in the future") 400
               (Some (lit "INVALID_DATE")))
  /\ validateAppointmentDate (fun _ => NaN) (dec 1700000000000 0)
       (lit "tomorrow") (lit "noon") = None.
Proof.
  split; [|split].
  - apply (proj1 (proj2 (proj2 (validateAppointmentDate_outcome
                                  (fun _ => dec 1800000000000 0)
                                  (dec 1700000000000 0)
                                  (lit "2027-01-15") (lit "10:00"))))).
    vm_compute. reflexivity.
  - apply (proj1 (validateAppointmentDate_outcome
                    (fun _ => dec 1600000000000 0) (dec 1700000000000 0)
                    (lit "2020-09-13") (lit "12:00"))).
    vm_compute. reflexivity.
  - apply (proj2 (proj2 (proj2 (proj2 (validateAppointmentDate_outcome
                                         (fun _ => NaN) (dec 1700000000000 0)
                                         (lit "tomorrow") (lit "noon")))))).
    reflexivity.
Defined.

(** The first request of a window is admitted whatever the limit, a limit
    of zero included: for a user the map does not know, or whose window has
    passed, the call returns and the user's entry restarts at one. *)
Theorem first_request_is_admitted (now : number) (userId : jsstring)
  (limit windowMs : option number) (rateLimit : gmap jsstring Entry) :
  match rateLimit !! userId with
  | None => True
  | Some e => Number.gtb now (resetTime e) = true
  end ->
  checkRateLimit now userId limit windowMs rateLimit
  = (None, <[userId := freshEntry now windowMs]> rateLimit).
Proof.
  unfold checkRateLimit. cbv zeta.
  destruct (rateLimit !! userId) as [e|]; [|reflexivity].
  intros ->. reflexivity.
Qed.

Lemma first_request_is_admitted_witness :
  checkRateLimit (dec 1700000000000 0) (lit "user_1") (Some (dec 0 0)) None ∅
  = (None, <[lit "user_1" := freshEntry (dec 1700000000000 0) None]> ∅).
Proof. apply first_request_is_admitted. vm_compute. exact I. Defined.

(** A call touches no entry but the caller's, and a rejected call changes
    nothing at all. *)
Theorem checkRateLimit_frame (now : number) (userId : jsstring)
  (limit windowMs : option number) (rateLimit : gmap jsstring Entry) :
  let outcome := fst (checkRateLimit now userId limit windowMs rateLimit) in
  let after := snd (checkRateLimit now userId limit windowMs rateLimit) in
  (forall other, other <> userId -> after !! other = rateLimit !! other) /\
  (outcome = None -> is_Some (after !! userId)) /\
  (outcome <> None -> outcome = Some tooManyRequests /\ after = rateLimit).
Proof.
  cbv zeta. unfold checkRateLimit. cbv zeta.
  assert (Hset : forall (entry : Entry),
             (forall other, other <> userId ->
                <[userId := entry]> rateLimit !! other = rateLimit !! other)
             /\ is_Some (<[userId := entry]> rateLimit !! userId)).
  { intros entry. split.
    - intros other Ho. now rewrite lookup_insert_ne by congruence.
    - rewrite lookup_insert_eq. eauto. }
  destruct (rateLimit !! userId) as [e|] eqn:E.
  - destruct (Number.gtb now (resetTime e)); [|destruct (geb _ _)];
      cbn [fst snd].
    + split; [apply Hset|]. split; [intros _; apply Hset | intros H; now elim H].
    + split; [reflexivity|]. split; [discriminate | now split].
    + split; [apply Hset|]. split; [intros _; apply Hset | intros H; now elim H].
  - cbn [fst snd].
    split; [apply Hset|]. split; [intros _; apply Hset | intros H; now elim H].
Qed.

End ApiFacts.

Section ApiSamples.

Import stdpp.base stdpp.option stdpp.gmap.
Import Api ApiRuns.

Lemma validateRequired_outcome_witness :
  validateRequired
    [(lit "email", Str (lit "a@b.c")); (lit "age", Num (dec 0 0))]
    [lit "name"; lit "email"; lit "age"]
  = Some (APIError (lit "Missing required fields: name, age") 400
            (Some (lit "MISSING_FIELDS")))
  /\ validateRequired
       [(lit "email", Str (lit "a@b.c")); (lit "age", Num (dec 0 0))]
       [lit "email"]
     = None.
Proof.
  split.
  - pose proof (validateRequired_outcome
                  [(lit "email", Str (lit "a@b.c")); (lit "age", Num (dec 0 0))]
                  [lit "name"; lit "email"; lit "age"] []) as H.
    cbv zeta in H. destruct H as [_ H]. revert H.
    destruct (validateRequired _ [lit "name"; lit "email"; lit "age"])
      as [e|] eqn:E; intros H.
    + destruct H as (_ & -> & _). vm_compute. reflexivity.
    + vm_compute in E. discriminate E.
  - pose proof (validateRequired_outcome
                  [(lit "email", Str (lit "a@b.c")); (lit "age", Num (dec 0 0))]
                  [lit "email"] []) as H.
    cbv zeta in H. destruct H as [_ H]. revert H.
    destruct (validateRequired _ [lit "email"]) as [e|] eqn:E; intros H.
    + destruct H as (Hm & _). exfalso. apply Hm. vm_compute. reflexivity.
    + reflexivity.
Defined.

Lemma checkRateLimit_frame_witness :
  let rateLimit : gmap jsstring Entry :=
    <[lit "user_1" := {| count := dec 2 0; resetTime := dec 1700000060000 0 |}]> ∅ in
  fst (checkRateLimit (dec 1700000000000 0) (lit "user_1") (Some (dec 2 0)) None
         rateLimit) = Some tooManyRequests
  /\ snd (checkRateLimit (dec 1700000000000 0) (lit "user_1") (Some (dec 2 0))
            None rateLimit) = rateLimit.
Proof.
  cbv zeta.
  apply (checkRateLimit_frame (dec 1700000000000 0) (lit "user_1")
           (Some (dec 2 0)) None
           (<[lit "user_1" := {| count := dec 2 0;
                                 resetTime := dec 1700000060000 0 |}]> ∅)).
  vm_compute. discriminate.
Defined.

End ApiSamples.

(** *** Counting requests within a window *)

Section Counting.

Import stdpp.base stdpp.option stdpp.gmap.
Import Api ApiRuns.

Lemma same_eq (x y : number) : same x y = true -> x = y.
Proof.
  destruct x as [a|a| |a m e], y as [b|b| |b m' e']; cbn [same];
    try discriminate; try reflexivity.
  - intros H. apply Bool.eqb_prop in H. now subst.
  - intros H. apply Bool.eqb_prop in H. now subst.
  - intros H. apply andb_prop in H. destruct H as [H He].
    apply andb_prop in H. destruct H as [Hs Hm].
    apply Bool.eqb_prop in Hs. apply Pos.eqb_eq in Hm. apply Z.eqb_eq in He.
    now subst.
Qed.

Lemma counts_table : countsFrom largestLimit 1 = true.
Proof. vm_compute. reflexivity. Qed.

Lemma countsFrom_at (fuel : nat) (k : N) (i : nat) :
  countsFrom fuel k = true -> i < fuel ->
  same (add (dec (k + N.of_nat i) 0) (dec 1 0)) (dec (k + N.of_nat i + 1) 0)
  && Number.ltb (dec (k + N.of_nat i) 0) (dec (k + N.of_nat i + 1) 0) = true.
Proof.
  revert k i. induction fuel as [|fuel IH]; intros k i H Hi; [lia|].
  cbn [countsFrom] in H. apply andb_prop in H. destruct H as [H Hrest].
  destruct i as [|i].
  - cbn [N.of_nat]. now rewrite N.add_0_r.
  - specialize (IH (k + 1)%N i Hrest ltac:(lia)).
    now replace (k + N.of_nat (S i))%N with (k + 1 + N.of_nat i)%N by lia.
Qed.

Lemma count_step (k : nat) :
  1 <= k <= largestLimit ->
  add (numberOf k) (dec 1 0) = numberOf (S k)
  /\ Number.ltb (numberOf k) (numberOf (S k)) = true.
Proof.
  intros Hk.
  pose proof (@countsFrom_at largestLimit 1 (k - 1) counts_table ltac:(lia)) as H.
  replace (1 + N.of_nat (k - 1))%N with (N.of_nat k) in H by lia.
  replace (N.of_nat k + 1)%N with (N.of_nat (S k)) in H by lia.
  apply andb_prop in H. destruct H as [H1 H2]. split; [|exact H2].
  now apply same_eq.
Qed.

Lemma count_lt (j k : nat) :
  1 <= j -> j < k -> k <= S largestLimit ->
  Number.ltb (numberOf j) (numberOf k) = true.
Proof.
  intros Hj Hjk Hk. induction k as [|k IH]; [lia|].
  destruct (count_step (k := k)) as [_ Hstep]; [lia|].
  destruct (Nat.eq_dec j k) as [->|Hne]; [exact Hstep|].
  apply ltb_leb_trans with (a := numberOf k); [apply IH; lia|].
  now apply ltb_leb.
Qed.

Lemma leb_refl (x : number) : isNaN x = false -> Number.leb x x = true.
Proof.
  destruct x as [s|s| |s m e]; try discriminate; intros _.
  - reflexivity.
  - now destruct s.
  - unfold Number.leb, SFleb, SFcompare.
    rewrite Z.compare_refl, Pos.compare_cont_refl. now destruct s.
Qed.

Lemma numberOf_not_nan (n : nat) : isNaN (numberOf n) = false.
Proof.
  pose proof (of_decimal_nonNegative (N.of_nat n) (- Z.of_nat 0)) as H.
  fold (dec (N.of_nat n) 0) in H. fold (numberOf n) in H.
  now destruct (numberOf n).
Qed.

(** Whether a count has reached the limit. *)
Lemma count_reached (k L : nat) :
  1 <= k <= L -> L <= largestLimit ->
  geb (numberOf k) (numberOf L) = Nat.eqb k L.
Proof.
  intros Hk HL. unfold geb. destruct (Nat.eqb_spec k L) as [->|Hne].
  - apply leb_refl, numberOf_not_nan.
  - destruct (Number.leb (numberOf L) (numberOf k)) eqn:E; [|reflexivity].
    apply leb_not_ltb in E. rewrite count_lt in E; [discriminate|lia|lia|lia].
Qed.

(** With [k] requests counted in the running window, the next requests are
    admitted until the count reaches the limit, and rejected from then on. *)
Lemma requests_in_window (L : nat) (userId : jsstring) (windowMs : option number)
  (reset : number) (times : list number) :
  L <= largestLimit ->
  Forall (fun t => Number.gtb t reset = false) times ->
  forall (k : nat) (rateLimit : gmap jsstring Entry),
    1 <= k <= L ->
    rateLimit !! userId = Some {| count := numberOf k; resetTime := reset |} ->
    fst (requests userId (Some (numberOf L)) windowMs times rateLimit)
    = map (fun i => if Nat.ltb (k + i) L then None else Some tooManyRequests)
        (List.seq 0 (List.length times)).
Proof.
  intros HL Htimes. induction Htimes as [|t times Ht _ IH];
    intros k rateLimit Hk Hentry; [reflexivity|].
  cbn [requests List.length List.seq map]. unfold checkRateLimit. cbv zeta.
  rewrite Hentry. cbn [resetTime count default id]. rewrite Ht.
  rewrite (@count_reached k L Hk HL). rewrite <- seq_shift, map_map.
  rewrite Nat.add_0_r.
  destruct (Nat.eqb_spec k L) as [->|Hne].
  - specialize (IH L rateLimit Hk Hentry).
    destruct (requests userId _ windowMs times rateLimit) as [outs final].
    cbn [fst] in *. rewrite Nat.ltb_irrefl. f_equal. rewrite IH.
    apply map_ext. intros i.
    destruct (Nat.ltb_spec (L + i) L), (Nat.ltb_spec (L + S i) L);
      try reflexivity; lia.
  - destruct (count_step (k := k)) as [Hstep _]; [lia|]. rewrite Hstep.
    specialize (IH (S k)
                  (<[userId := {| count := numberOf (S k); resetTime := reset |}]>
                     rateLimit)
                  ltac:(lia) (lookup_insert_eq _ _ _)).
    destruct (requests userId _ windowMs times _) as [outs final].
    cbn [fst] in *. destruct (Nat.ltb_spec k L); [|lia]. f_equal.
    rewrite IH. apply map_ext. intros i.
    now replace (S k + i) with (k + S i) by lia.
Qed.

(** Within one window, a user's request is admitted exactly when fewer than
    [limit] requests came before it in that window, for every whole limit
    from 1 to 100000. *)
Theorem rate_limit_counts (L : nat) (userId : jsstring)
  (windowMs : option number) (t0 : number) (times : list number)
  (rateLimit : gmap jsstring Entry) :
  1 <= L <= largestLimit ->
  rateLimit !! userId = None ->
  Forall (fun t => Number.gtb t (resetTime (freshEntry t0 windowMs)) = false)
    times ->
  fst (requests userId (Some (numberOf L)) windowMs (t0 :: times) rateLimit)
  = map (fun i => if Nat.ltb i L then None else Some tooManyRequests)
      (List.seq 0 (S (List.length times))).
Proof.
  intros HL Hnone Htimes.
  cbn [requests List.length List.seq map]. unfold checkRateLimit. cbv zeta.
  rewrite Hnone.
  pose proof (@requests_in_window L userId windowMs
                (resetTime (freshEntry t0 windowMs)) times
                ltac:(lia) Htimes 1
                (<[userId := freshEntry t0 windowMs]> rateLimit)
                ltac:(lia) (lookup_insert_eq _ _ _)) as H.
  unfold freshEntry in H at 1. cbn [default id] in *.
  destruct (requests userId _ windowMs times _) as [outs final].
  cbn [fst] in *. destruct (Nat.ltb_spec 0 L); [|lia]. f_equal.
  rewrite H, <- seq_shift, map_map. reflexivity.
Qed.

End Counting.

Section CountingSamples.

Import stdpp.base stdpp.option stdpp.gmap.
Import Api ApiRuns.

Lemma rate_limit_counts_witness :
  fst (requests (lit "user_1") (Some (numberOf 3)) None
         [dec 1700000000000 0; dec 1700000000100 0; dec 1700000000200 0;
          dec 1700000000300 0] ∅)
  = [None; None; None; Some tooManyRequests].
Proof.
  apply (@rate_limit_counts 3 (lit "user_1") None (dec 1700000000000 0)
           [dec 1700000000100 0; dec 1700000000200 0; dec 1700000000300 0] ∅).
  - split; [lia|]. apply Nat.leb_le. vm_compute. reflexivity.
  - vm_compute. reflexivity.
  - repeat constructor.
Defined.

End CountingSamples.

(** ** The listing handler *)

Section HistoryFacts.

Import Api Async History.

(** [GET] never throws.  Without a user id the listing is refused with
    status 400 before the client is built; without the client's
    environment, and when the query rejects, the answer is status 500
    "Internal server error" with the error's message as details ("Unknown
    error" when what was thrown is not an error); an error of the database
    gives status 500 with its message; otherwise every row is transformed,
    in order.  Each failure after the first check logs one line. *)
Theorem GET_outcomes (env : ProcessEnv) (query : jsstring -> QueryOutcome)
  (userId : option jsstring) (console : list jsstring) :
  (truthy userId = false ->
   GET env query userId console
   = (Return (Failure 400 (lit "userId parameter is required") None),
      console)) /\
  (forall u, userId = Some u -> u <> [] ->
   GET env query userId console
   = if truthy (NEXT_PUBLIC_SUPABASE_URL env)
        && truthy (NEXT_PUBLIC_SUPABASE_PUBLISHABLE_KEY env)
     then
       match query u with
       | Rows data => (Return (Listing (map transform data)), console)
       | QueryError message =>
           (Return (Failure 500 (lit "Failed to fetch bloodwork screenings")
                      (Some message)),
            console ++ [lit "Database error:"])
       | Rejected e =>
           (Return (Failure 500 (lit "Internal server error")
                      (Some (detailsOf e))),
            console ++ [lit "Error fetching bloodwork screenings:"])
       end
     else
       (Return (Failure 500 (lit "Internal server error")
                  (Some (lit "Missing Supabase environment variables"))),
        console ++ [lit "Error fetching bloodwork screenings:"])).
Proof.
  split.
  - intros H. unfold GET, list_screenings, tryCatch. rewrite H. reflexivity.
  - intros u -> Hu. unfold GET, list_screenings, tryCatch.
    destruct u as [|c u]; [now elim Hu|].
    change (truthy (Some (c :: u))) with true. cbv beta iota delta [negb].
    unfold bind at 1. unfold createSupabaseServerClient. cbv zeta.
    destruct (truthy (NEXT_PUBLIC_SUPABASE_URL env));
      [destruct (truthy (NEXT_PUBLIC_SUPABASE_PUBLISHABLE_KEY env))|];
      cbn [negb orb andb]; try reflexivity.
    unfold ret, bind at 1, select. cbn [stdpp.option.default stdpp.option.from_option id].
    destruct (query (c :: u)); reflexivity.
Qed.

Lemma GET_outcomes_witness :
  GET {| NEXT_PUBLIC_SUPABASE_URL := None;
         NEXT_PUBLIC_SUPABASE_PUBLISHABLE_KEY := None |}
      (fun _ => Rows []) (Some []) []
  = (Return (Failure 400 (lit "userId parameter is required") None), [])
  /\ GET {| NEXT_PUBLIC_SUPABASE_URL := Some (lit "https://db.example");
            NEXT_PUBLIC_SUPABASE_PUBLISHABLE_KEY := Some (lit "key") |}
       (fun _ => Rejected (NotAnError Null)) (Some (lit "user_1")) []
     = (Return (Failure 500 (lit "Internal server error")
                  (Some (lit "Unknown error"))),
        [lit "Error fetching bloodwork screenings:"]).
Proof.
  split.
  - apply GET_outcomes. reflexivity.
  - exact (proj2 (GET_outcomes
                    {| NEXT_PUBLIC_SUPABASE_URL := Some (lit "https://db.example");
                       NEXT_PUBLIC_SUPABASE_PUBLISHABLE_KEY := Some (lit "key") |}
                    (fun _ => Rejected (NotAnError Null))
                    (Some (lit "user_1")) [])
             (lit "user_1") eq_refl ltac:(discriminate)).
Defined.

Lemma orValue_same (a b : value) :
  (toBoolean a = false -> b = a) -> orValue a b = a.
Proof. unfold orValue. destruct (toBoolean a); auto. Qed.

(** For a row as [POST] writes it, the transformation returns the stored
    values, summary, recommendations and flagged count unchanged, an empty
    summary and a count of zero included; the upload time it reports is the
    row's [created_at], not the [uploadedAt] of the stored result.  A row
    whose [results] are null gets the defaults. *)
Theorem transform_storedRow
  (id userId fileName createdAt uploadedAt : jsstring) (values : list value)
  (summary : jsstring) (recommendations : list value) (flaggedCount : nat) :
  transform (storedRow id userId fileName createdAt uploadedAt values summary
               recommendations flaggedCount)
  = [ (lit "id", Str id);
      (lit "userId", Str userId);
      (lit "fileName", Str fileName);
      (lit "uploadedAt", Str createdAt);
      (lit "values", Arr values);
      (lit "summary", Str summary);
      (lit "recommendations", Arr recommendations);
      (lit "flaggedCount", Num (dec (N.of_nat flaggedCount) 0)) ]
  /\ map snd (skipn 4 (transform [(lit "id", Str id); (lit "results", Null)]))
     = [Arr []; Str []; Arr []; Num (dec 0 0)].
Proof.
  split; [|reflexivity].
  pose proof (of_decimal_nonNegative (N.of_nat flaggedCount) (- Z.of_nat 0)) as Hn.
  fold (dec (N.of_nat flaggedCount) 0) in Hn.
  unfold transform, storedRow. cbv zeta.
  remember (dec (N.of_nat flaggedCount) 0) as x eqn:Ex. clear Ex.
  change (get _ (lit "results")) with
    (Obj [ (lit "userId", Str userId); (lit "fileName", Str fileName);
           (lit "uploadedAt", Str uploadedAt); (lit "values", Arr values);
           (lit "summary", Str summary);
           (lit "recommendations", Arr recommendations);
           (lit "flaggedCount", Num x) ]).
  change (get _ (lit "id")) with (Str id).
  change (get _ (lit "user_id")) with (Str userId).
  change (get _ (lit "file_name")) with (Str fileName).
  change (get _ (lit "created_at")) with (Str createdAt).
  change (member _ (lit "values")) with (Arr values).
  change (member _ (lit "summary")) with (Str summary).
  change (member _ (lit "recommendations")) with (Arr recommendations).
  change (member _ (lit "flaggedCount")) with (Num x).
  rewrite (@orValue_same (Str summary) (Str [])) by (now destruct summary).
  rewrite (@orValue_same (Num x) (Num (dec 0 0))).
  - reflexivity.
  - destruct x as [[|]| | |]; try discriminate; reflexivity.
Qed.

End HistoryFacts.

(** ** Mail *)

Section MailFacts.

Import Api Async Mail.

Lemma startsWith_app (n rest : jsstring) : startsWith n (n ++ rest) = true.
Proof.
  induction n as [|x n IH]; [reflexivity|].
  cbn [app startsWith]. now rewrite N.eqb_refl, IH.
Qed.

Lemma includes_startsWith (s n : jsstring) :
  startsWith n s = true -> includes s n = true.
Proof. intros H. destruct s; cbn [includes]; now rewrite H. Qed.

Lemma includes_here (n b : jsstring) : includes (n ++ b) n = true.
Proof. apply includes_startsWith, startsWith_app. Qed.

Lemma includes_later (p s n : jsstring) :
  includes s n = true -> includes (p ++ s) n = true.
Proof.
  intros H. induction p as [|x p IH]; [exact H|].
  cbn [app includes]. rewrite IH. apply orb_true_r.
Qed.

Ltac find_part :=
  rewrite <- !app_assoc;
  repeat first [apply includes_here | apply includes_later].

(** What the [try] and [catch] of both mail functions make of an answer of
    the service. *)
Lemma sent (send : Email -> SendOutcome) (email : Email)
  (console : list jsstring) :
  tryCatch (bind (emails_send send email) answered) failed console
  = match send email with
    | Answered data error =>
        if toBoolean error
        then (Return (NoSuccess (NotAnError error)),
              console ++ [lit "Error sending email:"])
        else (Return (Success data), console)
    | Rejected e =>
        (Return (NoSuccess e), console ++ [lit "Error sending email:"])
    end.
Proof.
  unfold tryCatch, bind, emails_send, answered.
  destruct (send email) as [data error|e]; [|reflexivity].
  unfold ret. destruct (toBoolean error); reflexivity.
Qed.

(** [sendAppointmentConfirmation] never throws: it reports success exactly
    when the mail service answered without an error, and otherwise logs one
    line and reports what was thrown.  The message goes to the one
    recipient, with the name, the date and the time put into the HTML as
    they are given, no character escaped. *)
Theorem sendAppointmentConfirmation_outcome (send : Email -> SendOutcome)
  (recipient name date time : jsstring) (console : list jsstring) :
  let email := appointmentEmail recipient name date time in
  to email = [recipient] /\
  includes (html email) name = true /\
  includes (html email) date = true /\
  includes (html email) time = true /\
  sendAppointmentConfirmation send recipient name date time console
  = match send email with
    | Answered data error =>
        if toBoolean error
        then (Return (NoSuccess (NotAnError error)),
              console ++ [lit "Error sending email:"])
        else (Return (Success data), console)
    | Rejected e =>
        (Return (NoSuccess e), console ++ [lit "Error sending email:"])
    end.
Proof.
  cbv zeta. split; [reflexivity|].
  split; [|split; [|split]]; [| | |apply sent];
    unfold appointmentEmail; cbn [html]; unfold line; find_part.
Qed.

(** [sendDiagnosticResults] never throws either: when the result cannot be
    printed as JSON, what [JSON.stringify] threw is reported and logged;
    otherwise the message goes to the one recipient under the subject
    "Your <type> Results", with the name, the type and the printed result
    put into the HTML as they are given, and success is reported exactly
    when the mail service answered without an error. *)
Theorem sendDiagnosticResults_outcome (send : Email -> SendOutcome)
  (recipient name diagnosisType : jsstring) (stringify : jsstring + thrown)
  (console : list jsstring) :
  match stringify with
  | inr e =>
      sendDiagnosticResults send recipient name diagnosisType stringify console
      = (Return (NoSuccess e), console ++ [lit "Error sending email:"])
  | inl json =>
      let email := diagnosticEmail recipient name diagnosisType json in
      to email = [recipient] /\
      subject email = lit "Your " ++ diagnosisType ++ lit " Results" /\
      includes (html email) name = true /\
      includes (html email) diagnosisType = true /\
      includes (html email) json = true /\
      sendDiagnosticResults send recipient name diagnosisType stringify console
      = match send email with
        | Answered data error =>
            if toBoolean error
            then (Return (NoSuccess (NotAnError error)),
                  console ++ [lit "Error sending email:"])
            else (Return (Success data), console)
        | Rejected e =>
            (Return (NoSuccess e), console ++ [lit "Error sending email:"])
        end
  end.
Proof.
  destruct stringify as [json|e]; [|reflexivity].
  cbv zeta. split; [reflexivity|]. split; [reflexivity|].
  split; [|split; [|split]];
    [| | |exact (sent send (diagnosticEmail recipient name diagnosisType json)
                   console)];
    unfold diagnosticEmail; cbn [html]; unfold line; find_part.
Qed.

End MailFacts.

